(** * yarpOpenPose: the orchestration layer of [src/yarpOpenPose/main.cpp]

  The module reads frames from a YARP image port, hands them to the
  OpenPose asynchronous wrapper, serialises the returned key points into a
  nested [Bottle] and republishes the rendered frame.  This file embeds
  the four classes of [main.cpp] ([ImageInput], [ImageProcessing],
  [ImageOutput] and [Module]) together with the small part of the C
  library, OpenPose and YARP interfaces they call, and proves properties
  of the embedded code. *)

From Stdlib Require Import ZArith Ascii String PrimFloat.
From stdpp Require Import gmap strings list pretty.

#[local] Set Warnings "-register-all".

(** ** Outcomes and diagnostics *)

(** A call of the C++ code either returns, leaves through an exception
  (the [std::runtime_error] that [op::error] raises, the
  [cv::Exception] of OpenCV), or has no defined behaviour (a read past
  the end of an array, signed overflow). [Throws] carries the message
  of the exception, not the state the call leaves behind. *)
Inductive Result (A : Type) : Type :=
| Returns (a : A)
| Throws (what : string)
| Undefined.
Arguments Returns {A} a.
Arguments Throws {A} what.
Arguments Undefined {A}.

Definition bind {A B : Type} (r : Result A) (k : A -> Result B) : Result B :=
  match r with
  | Returns a => k a
  | Throws w => Throws w
  | Undefined => Undefined
  end.

Notation "x <-- r ;; k" := (bind r (fun x => k))
  (at level 100, r at next level, right associativity).

(** The diagnostics the code emits, by the call that emits them:
  [op::log] of OpenPose, [yError] and [yDebug] of YARP. *)
Inductive LogLine : Type :=
| OpLog (msg : string)
| YError (msg : string)
| YDebug (msg : string).

(** C [int]: 32 bits, two's complement. *)
Definition INT_MAX : Z := 2147483647.
Definition INT_MIN : Z := -2147483648.
Definition LONG_MAX : Z := 9223372036854775807.
Definition LONG_MIN : Z := -9223372036854775808.

(** ** The C library: [sscanf] with the format ["%dx%d"] *)

Module libc.

Definition isspace (c : ascii) : bool :=
  let n := nat_of_ascii c in
  Nat.eqb n 32 || (Nat.leb 9 n && Nat.leb n 13).

Definition isdigit (c : ascii) : bool :=
  let n := nat_of_ascii c in
  Nat.leb 48 n && Nat.leb n 57.

Definition digit_value (c : ascii) : Z := Z.of_nat (nat_of_ascii c) - 48.

(** [std::string::c_str] seen as a C string: the characters before the
    first NUL. *)
Fixpoint c_str (s : string) : string :=
  match s with
  | EmptyString => EmptyString
  | String c r => if Nat.eqb (nat_of_ascii c) 0 then EmptyString else String c (c_str r)
  end.

Fixpoint skip_space (s : string) : string :=
  match s with
  | String c r => if isspace c then skip_space r else s
  | EmptyString => EmptyString
  end.

(** The longest run of decimal digits at the head of [s], accumulated
    from [acc]; [seen] tells whether a digit was consumed. *)
Fixpoint scan_digits (s : string) (seen : bool) (acc : Z) : bool * Z * string :=
  match s with
  | String c r =>
      if isdigit c then scan_digits r true (acc * 10 + digit_value c)
      else (seen, acc, s)
  | EmptyString => (seen, acc, s)
  end.

(** What [%d] stores for the digits read: glibc converts with [strtol]
    (which saturates at the bounds of [long]) and stores the result
    through an [int*]. ISO C leaves a value outside [int] undefined;
    the count [sscanf] returns does not depend on it. *)
Definition clamp_long (z : Z) : Z := Z.max LONG_MIN (Z.min LONG_MAX z).
Definition wrap_int (z : Z) : Z := (z + 2147483648) mod 4294967296 - 2147483648.
Definition store_int (z : Z) : Z := wrap_int (clamp_long z).

Inductive Conversion : Type :=
| InputFailure                        (* end of input before any character of the item *)
| MatchingFailure                     (* the item is not a decimal integer *)
| Converted (v : Z) (rest : string).

(** One [%d] directive: skip white space, take an optional sign, then at
    least one digit. *)
Definition scan_d (s : string) : Conversion :=
  match skip_space s with
  | EmptyString => InputFailure
  | String c r =>
      let '(negative, body) :=
        if Ascii.eqb c "-" then (true, r)
        else if Ascii.eqb c "+" then (false, r)
        else (false, String c r) in
      match scan_digits body false 0 with
      | (true, v, rest) => Converted (store_int (if negative then - v else v)) rest
      | (false, _, _) => MatchingFailure
      end
  end.

(** [sscanf(str, "%dx%d", &w, &h)]: the returned count and the two
    objects, which keep their old value when not assigned. *)
Definition sscanf_dxd (str : string) (w h : Z) : Z * Z * Z :=
  match scan_d (c_str str) with
  | InputFailure => (-1, w, h)%Z
  | MatchingFailure => (0, w, h)%Z
  | Converted w' rest =>
      match rest with
      | String c rest' =>
          if Ascii.eqb c "x" then
            match scan_d rest' with
            | Converted h' _ => (2, w', h')%Z
            | _ => (1, w', h)%Z
            end
          else (1, w', h)%Z
      | EmptyString => (1, w', h)%Z
      end
  end.

End libc.

(** ** The OpenPose interface used by the module *)

Module op.

Inductive PoseModel : Type := COCO_18 | MPI_15 | MPI_15_4.

Inductive ScaleMode : Type :=
| InputResolution
| NetOutputResolution
| OutputResolution
| ZeroToOne
| PlusMinusOne
| UnsignedChar.

Inductive HeatMapType : Type := Parts | Background | PAFs.

(** The interval of values a [ScaleMode] scales to, for the three modes
    that normalise: [ZeroToOne] is [0,1], [PlusMinusOne] is [-1,1] and
    [UnsignedChar] is the integers [0,255]. *)
Definition value_range (m : ScaleMode) : option (Z * Z) :=
  match m with
  | ZeroToOne => Some (0, 1)%Z
  | PlusMinusOne => Some (-1, 1)%Z
  | UnsignedChar => Some (0, 255)%Z
  | _ => None
  end.

(** [cv::Mat], as far as the module looks at it: its size and its bytes.
    [Mat()] is the empty matrix. *)
Record Mat : Type := { cols : nat; rows : nat; pixels : list Z }.

Definition Mat_default : Mat := {| cols := 0; rows := 0; pixels := [] |}.

Definition Mat_empty (m : Mat) : bool :=
  match pixels m with
  | [] => true
  | _ :: _ => Nat.eqb (cols m * rows m) 0
  end.

(** [op::Array<float>]: the sizes of its dimensions and its elements in
    row-major order.  The elements are kept as the [double] they convert
    to when read by [Bottle::addDouble]. *)
Record Array : Type := { mSize : list nat; mData : list float }.

Definition Array_default : Array := {| mSize := []; mData := [] |}.

Definition getVolume (a : Array) : nat :=
  match mSize a with
  | [] => 0
  | n :: ns => foldl Nat.mul n ns
  end.

Definition empty (a : Array) : bool := Nat.eqb (getVolume a) 0.

Definition getNumberDimensions (a : Array) : nat := length (mSize a).

Definition getSize (a : Array) (index : nat) : nat := nth index (mSize a) 0.

(** [operator[]]: unchecked in a release build. *)
Definition at_ (a : Array) (index : nat) : Result float :=
  match mData a !! index with
  | Some v => Returns v
  | None => Undefined
  end.

(** [op::Datum], restricted to the fields the module reads or writes. *)
Record Datum : Type := {
  cvInputData : Mat;
  cvOutputData : Mat;
  poseKeyPoints : Array
}.

Definition Datum_default : Datum :=
  {| cvInputData := Mat_default; cvOutputData := Mat_default;
     poseKeyPoints := Array_default |}.

End op.

(** [std::shared_ptr<std::vector<op::Datum>>]: [None] is [nullptr]. *)
Abbreviation DatumsPtr := (option (list op.Datum)).

(** ** The YARP interface used by the module *)

Module yarp.

(** A [Bottle] is a list of values; a value is a string, a double or a
    nested list. *)
Inductive Value : Type :=
| VString (s : string)
| VDouble (d : float)
| VList (l : list Value).

Abbreviation Bottle := (list Value).

(** [ImageOf<PixelRgb>]. *)
Record Image : Type := { width : nat; height : nat; bytes : list Z }.

End yarp.

(** ** [class ImageInput]: the frame source *)

Module ImageInput.

(** The inbound port is the sequence of images its blocking [read]
    delivers, [inPort_reads] counting the reads made so far. *)
Record t : Type := { inPort_reads : nat; mClosed : bool }.

(** The constructor: [mClosed{false}]. *)
Definition new : t := {| inPort_reads := 0; mClosed := false |}.

(** [cv::cvarrToMat] on the image's [IplImage]: same size, same bytes. *)
Definition cvarrToMat (img : yarp.Image) : op.Mat :=
  {| op.cols := yarp.width img; op.rows := yarp.height img;
     op.pixels := yarp.bytes img |}.

(** [workProducer]: the datum vector returned, the object afterwards and
    the lines logged. *)
Definition workProducer (frames : nat -> yarp.Image) (self : t)
  : DatumsPtr * t * list LogLine :=
  if mClosed self then
    (None, {| inPort_reads := inPort_reads self; mClosed := true |}, [])
  else
    let datum := op.Datum_default in
    let inImage := frames (inPort_reads self) in
    let reads := S (inPort_reads self) in
    let in_cv := cvarrToMat inImage in
    let datum := {| op.cvInputData := in_cv;
                    op.cvOutputData := op.cvOutputData datum;
                    op.poseKeyPoints := op.poseKeyPoints datum |} in
    if op.Mat_empty (op.cvInputData datum) then
      (None, {| inPort_reads := reads; mClosed := true |},
       [OpLog "Empty frame detected. Closing program."])
    else
      (Some [datum], {| inPort_reads := reads; mClosed := mClosed self |}, []).

Definition isFinished (self : t) : bool := mClosed self.

(** [n] calls in a row: the results in call order, and the object after
    the last one. *)
Fixpoint workProducer_n (frames : nat -> yarp.Image) (n : nat) (self : t)
  : list DatumsPtr * t :=
  match n with
  | O => ([], self)
  | S k =>
      let '(d, self', _) := workProducer frames self in
      let '(ds, self'') := workProducer_n frames k self' in
      (d :: ds, self'')
  end.

End ImageInput.

(** ** [class ImageProcessing]: the key-point publisher *)

Module ImageProcessing.

(** [mapParts] and the messages written to [targetPort], oldest first. *)
Record t : Type := {
  mapParts : gmap nat string;
  targetPort : list yarp.Bottle
}.

(** The member initialiser of [mapParts]. *)
Definition mapParts_init : gmap nat string :=
  list_to_map
    [ (0, "Nose"); (1, "Neck"); (2, "RShoulder"); (3, "RElbow");
      (4, "RWrist"); (5, "LShoulder"); (6, "LElbow"); (7, "LWrist");
      (8, "RHip"); (9, "RKnee"); (10, "RAnkle"); (11, "LHip");
      (12, "LKnee"); (13, "LAnkle"); (14, "REye"); (15, "LEye");
      (16, "REar"); (17, "LEar"); (18, "Background") ].

Definition new : t := {| mapParts := mapParts_init; targetPort := [] |}.

(** [std::map::operator[]]: the mapped string, inserting an empty one
    under a key that is absent. *)
Definition subscript (m : gmap nat string) (key : nat) : string * gmap nat string :=
  match m !! key with
  | Some name => (name, m)
  | None => (EmptyString, <[key := EmptyString]> m)
  end.

(** [for (auto i = 0; i < n; i++) body], from counter [i] with [todo]
    iterations left. *)
Fixpoint for_from {S : Type} (todo i : nat) (body : nat -> S -> Result S) (s : S)
  : Result S :=
  match todo with
  | O => Returns s
  | Datatypes.S todo' => s' <-- body i s ;; for_from todo' (Datatypes.S i) body s'
  end.

Definition for_range {S : Type} (n : nat) (body : nat -> S -> Result S) (s : S)
  : Result S :=
  for_from n 0 body s.

(** [3*(person*numberBodyParts + bodyPart)] in [int]: the index, provided
    it and the two that follow are representable. *)
Definition finalIndex (person numberBodyParts bodyPart : nat) : Result nat :=
  let index := 3 * (person * numberBodyParts + bodyPart) in
  if (Z.of_nat index + 2 <=? INT_MAX)%Z then Returns index else Undefined.

(** The body of the [bodyPart] loop, on [mapParts] and [peopleList]. *)
Definition bodyPart_body (pose : op.Array) (person numberBodyParts : nat)
    (bodyPart : nat) (s : gmap nat string * yarp.Bottle)
  : Result (gmap nat string * yarp.Bottle) :=
  let '(parts, peopleList) := s in
  index <-- finalIndex person numberBodyParts bodyPart ;;
  let '(name, parts) := subscript parts bodyPart in
  x <-- op.at_ pose index ;;
  y <-- op.at_ pose (index + 1) ;;
  c <-- op.at_ pose (index + 2) ;;
  let partList :=
    [yarp.VString name; yarp.VDouble x; yarp.VDouble y; yarp.VDouble c] in
  Returns (parts, peopleList ++ [yarp.VList partList]).

(** The body of the [person] loop, on [mapParts] and [mainList]. *)
Definition person_body (pose : op.Array) (numberBodyParts : nat)
    (person : nat) (s : gmap nat string * yarp.Bottle)
  : Result (gmap nat string * yarp.Bottle) :=
  let '(parts, mainList) := s in
  r <-- for_range numberBodyParts
          (bodyPart_body pose person numberBodyParts) (parts, []) ;;
  let '(parts, peopleList) := r in
  Returns (parts, mainList ++ [yarp.VList peopleList]).

(** The body of the loop over the datums. *)
Definition datum_body (datum : op.Datum) (s : gmap nat string * yarp.Bottle)
  : Result (gmap nat string * yarp.Bottle) :=
  let pose := op.poseKeyPoints datum in
  if negb (op.empty pose) && negb (Nat.eqb (op.getNumberDimensions pose) 3) then
    Throws "pose.getNumberDimensions() != 3."
  else
    let numberPeople := op.getSize pose 0 in
    let numberBodyParts := op.getSize pose 1 in
    for_range numberPeople (person_body pose numberBodyParts) s.

Fixpoint datums_loop (datums : list op.Datum) (s : gmap nat string * yarp.Bottle)
  : Result (gmap nat string * yarp.Bottle) :=
  match datums with
  | [] => Returns s
  | datum :: rest => s' <-- datum_body datum s ;; datums_loop rest s'
  end.

(** [work]. [targetPort.prepare()] hands out the bottle to fill; it is
    cleared, [addList] appends the nested [mainList] to it, the loops fill
    [mainList], and the bottle is written when its size is not zero. *)
Definition work (self : t) (datumsPtr : DatumsPtr) : Result t :=
  match datumsPtr with
  | Some ((_ :: _) as tDatumsNoPtr) =>
      r <-- datums_loop tDatumsNoPtr (mapParts self, []) ;;
      let '(parts, mainList) := r in
      let peopleBottle : yarp.Bottle := [] ++ [yarp.VList mainList] in
      if negb (Nat.eqb (length peopleBottle) 0) then
        Returns {| mapParts := parts; targetPort := targetPort self ++ [peopleBottle] |}
      else
        Returns {| mapParts := parts; targetPort := targetPort self |}
  | _ => Returns self
  end.

End ImageProcessing.

(** ** [class ImageOutput]: the annotated-frame publisher *)

Module ImageOutput.

(** The images written to [outPort], oldest first. *)
Record t : Type := { outPort : list yarp.Image }.

Definition new : t := {| outPort := [] |}.

(** [workConsumer]: the prepared image is resized to the output frame of
    the first datum, the frame is copied into it and it is written. An
    empty [cv::Mat] has no data: the [IplImage] made of it has a null
    [imageData], which [cvCopy] refuses with a [cv::Exception], so that
    [outPort.write()] is not reached. [Throws] carries the description
    of the error (the member [err] of the exception). *)
Definition workConsumer (self : t) (datumsPtr : DatumsPtr)
  : Result (t * list LogLine) :=
  match datumsPtr with
  | Some (datum0 :: _) =>
      let colour := op.cvOutputData datum0 in
      let outImage :=
        {| yarp.width := op.cols colour; yarp.height := op.rows colour;
           yarp.bytes := op.pixels colour |} in
      if op.Mat_empty colour then Throws "Unknown array type"
      else Returns ({| outPort := outPort self ++ [outImage] |}, [])
  | _ => Returns (self, [OpLog "Nullptr or empty datumsPtr found."])
  end.

End ImageOutput.

(** ** [class Module]: configuration and the periodic cycle *)

Module YarpOpenPose.

(** [cv::Size]: width and height. *)
Abbreviation Size := (Z * Z)%type.

(** The members [configure] reads from the resource finder, as far as
    [gflagsToOpParameters] and the integer and boolean fields of the
    wrapper configuration use them; [scale_gap], [disable_blending],
    [alpha_pose] and [alpha_heatmap] are passed on unread and left out. *)
Record Params : Type := {
  model_name : string;
  model_folder : string;
  net_resolution : string;
  img_resolution : string;
  num_gpu : Z;
  num_gpu_start : Z;
  num_scales : Z;
  scale_mode : Z;
  heatmaps_add_parts : bool;
  heatmaps_add_bkg : bool;
  heatmaps_add_PAFs : bool;
  heatmaps_scale_mode : Z;
  no_render_output : bool;
  part_to_show : Z
}.

(** The defaults [configure] passes to [rf.check]. *)
Definition Params_default : Params :=
  {| model_name := "COCO"; model_folder := "/models";
     net_resolution := "656x368"; img_resolution := "320x240";
     num_gpu := 1; num_gpu_start := 0; num_scales := 1; scale_mode := 0;
     heatmaps_add_parts := false; heatmaps_add_bkg := false;
     heatmaps_add_PAFs := false; heatmaps_scale_mode := 2;
     no_render_output := false; part_to_show := 0 |}.

Definition gflagToPoseModel (poseModeString : string) : op.PoseModel * list LogLine :=
  if String.eqb poseModeString "COCO" then (op.COCO_18, [])
  else if String.eqb poseModeString "MPI" then (op.MPI_15, [])
  else if String.eqb poseModeString "MPI_4_layers" then (op.MPI_15_4, [])
  else
    (op.COCO_18,
     [YError "String does not correspond to any model (COCO, MPI, MPI_4_layers)"]).

Definition gflagToScaleMode (scaleMode : Z) : op.ScaleMode * list LogLine :=
  if (scaleMode =? 0)%Z then (op.InputResolution, [])
  else if (scaleMode =? 1)%Z then (op.NetOutputResolution, [])
  else if (scaleMode =? 2)%Z then (op.OutputResolution, [])
  else if (scaleMode =? 3)%Z then (op.ZeroToOne, [])
  else if (scaleMode =? 4)%Z then (op.PlusMinusOne, [])
  else
    (op.InputResolution,
     [YError "String does not correspond to any scale mode: (0, 1, 2, 3, 4) for (InputResolution, NetOutputResolution, OutputResolution, ZeroToOne, PlusMinusOne)."]).

Definition gflagToHeatMaps (heatmaps_add_parts heatmaps_add_bkg heatmaps_add_PAFs : bool)
  : list op.HeatMapType :=
  let heatMapTypes := [] in
  let heatMapTypes := if heatmaps_add_parts then heatMapTypes ++ [op.Parts] else heatMapTypes in
  let heatMapTypes := if heatmaps_add_bkg then heatMapTypes ++ [op.Background] else heatMapTypes in
  let heatMapTypes := if heatmaps_add_PAFs then heatMapTypes ++ [op.PAFs] else heatMapTypes in
  heatMapTypes.

(** The tuple [gflagsToOpParameters] returns: [outputSize],
    [netInputSize], [poseModel], [scaleMode], [heatMapTypes],
    [heatMapsScaleMode]. *)
Abbreviation OpParameters :=
  (Size * Size * op.PoseModel * op.ScaleMode * list op.HeatMapType * op.ScaleMode)%type.

(** [std::get<0>], [std::get<1>], [std::get<2>] and [std::get<5>] of that
    tuple. *)
Definition outputSize_of (r : OpParameters) : Size :=
  let '(outputSize, _, _, _, _, _) := r in outputSize.

Definition netInputSize_of (r : OpParameters) : Size :=
  let '(_, netInputSize, _, _, _, _) := r in netInputSize.

Definition poseModel_of (r : OpParameters) : op.PoseModel :=
  let '(_, _, poseModel, _, _, _) := r in poseModel.

Definition heatMapsScaleMode_of (r : OpParameters) : op.ScaleMode :=
  let '(_, _, _, _, _, heatMapsScaleMode) := r in heatMapsScaleMode.

(** [gflagsToOpParameters]: the lines logged and the tuple, or the
    exception of the failed [op::checkE] or [op::check]. *)
Definition gflagsToOpParameters (p : Params) : list LogLine * Result OpParameters :=
  let '(nRead, width, height) := libc.sscanf_dxd (img_resolution p) 0 0 in
  let outputSize : Size := (width, height) in
  if negb (nRead =? 2)%Z then
    ([], Throws ("Error, resolution format (" +:+ img_resolution p
                 +:+ ") invalid, should be e.g., 960x540 "))
  else
  let '(nRead, width, height) := libc.sscanf_dxd (net_resolution p) 0 0 in
  let netInputSize : Size := (width, height) in
  if negb (nRead =? 2)%Z then
    ([], Throws ("Error, net resolution format (" +:+ net_resolution p
                 +:+ ") invalid, should be e.g., 656x368 (multiples of 16)"))
  else
  let '(poseModel, log1) := gflagToPoseModel (model_name p) in
  let '(scaleMode, log2) := gflagToScaleMode (scale_mode p) in
  let heatMapTypes :=
    gflagToHeatMaps (heatmaps_add_parts p) (heatmaps_add_bkg p) (heatmaps_add_PAFs p) in
  if negb ((0 <=? heatmaps_scale_mode p)%Z && (heatmaps_scale_mode p <=? 2)%Z) then
    (log1 ++ log2, Throws "Non valid `heatmaps_scale_mode`.")
  else
  let heatMapsScaleMode :=
    if (heatmaps_scale_mode p =? 0)%Z then op.PlusMinusOne
    else if (heatmaps_scale_mode p =? 1)%Z then op.ZeroToOne
    else op.UnsignedChar in
  (log1 ++ log2,
   Returns (outputSize, netInputSize, poseModel, scaleMode, heatMapTypes, heatMapsScaleMode)).

Section Wrapper.

(** The asynchronous [op::Wrapper] and the inbound stream are outside the
    module: [Wrapper] is the state of the former, and the variables below
    are its member functions as the module calls them. *)
Variable Wrapper : Type.
Variable opWrapper_configure : Wrapper -> Params -> OpParameters -> Wrapper.
Variable opWrapper_start : Wrapper -> Wrapper.
Variable opWrapper_stop : Wrapper -> Wrapper.
Variable waitAndEmplace : Wrapper -> list op.Datum -> bool * Wrapper.
Variable waitAndPop : Wrapper -> bool * DatumsPtr * Wrapper.
Variable frames : nat -> yarp.Image.

Record t : Type := {
  inputClass : ImageInput.t;
  processingClass : ImageProcessing.t;
  outputClass : ImageOutput.t;
  opWrapper : Wrapper;
  closing : bool
}.

(** [configure]: the lines logged, and the value returned with the module
    as it starts running, unless [gflagsToOpParameters] throws. *)
Definition configure (wrapper : Wrapper) (p : Params) : list LogLine * Result (bool * t) :=
  let log0 := [YDebug "Starting yarpOpenPose"] in
  match gflagsToOpParameters p with
  | (log1, Returns parameters) =>
      let wrapper := opWrapper_configure wrapper p parameters in
      let wrapper := opWrapper_start wrapper in
      (log0 ++ log1
         ++ [YDebug "Starting thread(s)"; YDebug "Done starting thread(s)";
             YDebug "Running processses"],
       Returns (true,
                {| inputClass := ImageInput.new;
                   processingClass := ImageProcessing.new;
                   outputClass := ImageOutput.new;
                   opWrapper := wrapper;
                   closing := false |}))
  | (log1, Throws what) => (log0 ++ log1, Throws what)
  | (log1, Undefined) => (log0 ++ log1, Undefined)
  end.

(** The module runs its cycles only after [configure] has returned
    [true]. *)
Definition entersRunning (wrapper : Wrapper) (p : Params) : bool :=
  match configure wrapper p with
  | (_, Returns (true, _)) => true
  | _ => false
  end.

Definition quit (self : t) : bool * t :=
  (true,
   {| inputClass := inputClass self; processingClass := processingClass self;
      outputClass := outputClass self;
      opWrapper := opWrapper_stop (opWrapper self);
      closing := true |}).

(** [updateModule]: one cycle. The value returned, the module afterwards
    and the lines logged. *)
Definition updateModule (self : t) : Result (bool * t * list LogLine) :=
  let '(datumToProcess, input, log1) :=
    ImageInput.workProducer frames (inputClass self) in
  match datumToProcess with
  | Some datums =>
      let '(successfullyEmplaced, wrapper) := waitAndEmplace (opWrapper self) datums in
      let '(popped, datumProcessed, wrapper) :=
        if successfullyEmplaced then waitAndPop wrapper else (false, None, wrapper) in
      if successfullyEmplaced && popped then
        consumed <-- ImageOutput.workConsumer (outputClass self) datumProcessed ;;
        let '(output, log2) := consumed in
        processing <-- ImageProcessing.work (processingClass self) datumProcessed ;;
        Returns (negb (closing self),
                 {| inputClass := input; processingClass := processing;
                    outputClass := output; opWrapper := wrapper;
                    closing := closing self |},
                 log1 ++ log2)
      else
        Returns (negb (closing self),
                 {| inputClass := input; processingClass := processingClass self;
                    outputClass := outputClass self; opWrapper := wrapper;
                    closing := closing self |},
                 log1 ++ [YError "Processed datum could not be emplaced."])
  | None =>
      Returns (negb (closing self),
               {| inputClass := input; processingClass := processingClass self;
                  outputClass := outputClass self; opWrapper := opWrapper self;
                  closing := closing self |},
               log1)
  end.

End Wrapper.

Arguments inputClass {Wrapper} _.
Arguments processingClass {Wrapper} _.
Arguments outputClass {Wrapper} _.
Arguments opWrapper {Wrapper} _.
Arguments closing {Wrapper} _.

End YarpOpenPose.

(** * Vocabulary of the statements *)

Import YarpOpenPose.

(** [sscanf] converted both integers of a resolution string. *)
Definition parses (resolution : string) : Prop :=
  exists w h : Z, libc.sscanf_dxd resolution 0 0 = (2, w, h)%Z.

(** The default configuration with another [heatmaps_scale_mode]. *)
Definition Params_heatmaps_scale_mode (mode : Z) : Params :=
  {| model_name := model_name Params_default;
     model_folder := model_folder Params_default;
     net_resolution := net_resolution Params_default;
     img_resolution := img_resolution Params_default;
     num_gpu := num_gpu Params_default;
     num_gpu_start := num_gpu_start Params_default;
     num_scales := num_scales Params_default;
     scale_mode := scale_mode Params_default;
     heatmaps_add_parts := heatmaps_add_parts Params_default;
     heatmaps_add_bkg := heatmaps_add_bkg Params_default;
     heatmaps_add_PAFs := heatmaps_add_PAFs Params_default;
     heatmaps_scale_mode := mode;
     no_render_output := no_render_output Params_default;
     part_to_show := part_to_show Params_default |}.

(** The default configuration with another [model_name]. *)
Definition Params_model_name (name : string) : Params :=
  {| model_name := name;
     model_folder := model_folder Params_default;
     net_resolution := net_resolution Params_default;
     img_resolution := img_resolution Params_default;
     num_gpu := num_gpu Params_default;
     num_gpu_start := num_gpu_start Params_default;
     num_scales := num_scales Params_default;
     scale_mode := scale_mode Params_default;
     heatmaps_add_parts := heatmaps_add_parts Params_default;
     heatmaps_add_bkg := heatmaps_add_bkg Params_default;
     heatmaps_add_PAFs := heatmaps_add_PAFs Params_default;
     heatmaps_scale_mode := heatmaps_scale_mode Params_default;
     no_render_output := no_render_output Params_default;
     part_to_show := part_to_show Params_default |}.

(** The default configuration with other resolution strings. *)
Definition Params_resolutions (img net : string) : Params :=
  {| model_name := model_name Params_default;
     model_folder := model_folder Params_default;
     net_resolution := net;
     img_resolution := img;
     num_gpu := num_gpu Params_default;
     num_gpu_start := num_gpu_start Params_default;
     num_scales := num_scales Params_default;
     scale_mode := scale_mode Params_default;
     heatmaps_add_parts := heatmaps_add_parts Params_default;
     heatmaps_add_bkg := heatmaps_add_bkg Params_default;
     heatmaps_add_PAFs := heatmaps_add_PAFs Params_default;
     heatmaps_scale_mode := heatmaps_scale_mode Params_default;
     no_render_output := no_render_output Params_default;
     part_to_show := part_to_show Params_default |}.

(** A one-pixel frame, and a batch of one datum whose rendered frame is
    empty (as when rendering is disabled). *)
Definition one_pixel : yarp.Image :=
  {| yarp.width := 1; yarp.height := 1; yarp.bytes := [0; 0; 0]%Z |}.



(** A wrapper that rejects every submission. *)
Definition rejecting_waitAndEmplace (w : unit) (_ : list op.Datum) : bool * unit :=
  (false, w).

Definition closed_waitAndPop (w : unit) : bool * DatumsPtr * unit :=
  (false, None, w).

(** The text of a resolution: [W] in decimal, the letter x, [H] in
    decimal. *)
Definition resolution_string (W H : N) : string :=
  pretty W +:+ "x" +:+ pretty H.

Fixpoint contains_x (s : string) : bool :=
  match s with
  | EmptyString => false
  | String c r => Ascii.eqb c "x" || contains_x r
  end.

(** The width field of a resolution string: the text before the first x. *)
Fixpoint width_field (s : string) : string :=
  match s with
  | EmptyString => EmptyString
  | String c r => if Ascii.eqb c "x" then EmptyString else String c (width_field r)
  end.

Fixpoint all_digits (s : string) : bool :=
  match s with
  | EmptyString => true
  | String c r => libc.isdigit c && all_digits r
  end.

(** The value of a run of digits read after [acc]. *)
Fixpoint decimal_value (acc : Z) (digits : string) : Z :=
  match digits with
  | EmptyString => acc
  | String c r => decimal_value (acc * 10 + libc.digit_value c) r
  end.

(** A field is numeric when it is a decimal integer the way C reads one:
    white space if any, a sign if any, then one or more digits and
    nothing else. *)
Definition numeric (field : string) : bool :=
  match libc.skip_space field with
  | EmptyString => false
  | String c r =>
      let digits := if Ascii.eqb c "-" || Ascii.eqb c "+" then r else String c r in
      match digits with
      | EmptyString => false
      | String _ _ => all_digits digits
      end
  end.

(** The two malformations: no x separator, or a width that is not
    numeric. *)
Definition malformed (resolution : string) : bool :=
  negb (contains_x resolution) || negb (numeric (width_field resolution)).

(** The detection batch of the data model: the persons in the order the
    engine returned them, each an ordered sequence of key points
    (body-part index, x, y, confidence). *)
Record KeyPoint : Type := {
  bodyPartIndex : nat;
  kp_x : float;
  kp_y : float;
  kp_confidence : float
}.

Abbreviation Person := (list KeyPoint).

(** The element of [pose] at [{person, bodyPart, coordinate}], in the
    row-major layout of [op::Array]. *)
Definition element (pose : op.Array) (person bodyPart coordinate : nat) : float :=
  nth (coordinate + 3 * bodyPart + 3 * op.getSize pose 1 * person)
    (op.mData pose) 0%float.

Definition Person_of (pose : op.Array) (person : nat) : Person :=
  map (fun bodyPart =>
         {| bodyPartIndex := bodyPart;
            kp_x := element pose person bodyPart 0;
            kp_y := element pose person bodyPart 1;
            kp_confidence := element pose person bodyPart 2 |})
      (seq 0 (op.getSize pose 1)).

Definition Persons_of (pose : op.Array) : list Person :=
  map (Person_of pose) (seq 0 (op.getSize pose 0)).

Definition DetectionBatch (datums : list op.Datum) : list Person :=
  flat_map (fun datum => Persons_of (op.poseKeyPoints datum)) datums.

(** The number of persons of a batch. *)
Definition numberOfPersons (datums : list op.Datum) : nat :=
  sum_list (map (fun datum => op.getSize (op.poseKeyPoints datum) 0) datums).

(** The static table of part names, and the name a record carries: the
    name of the table, or the empty string for an index outside it. *)
Definition BodyPartTable (index : nat) : option string :=
  ImageProcessing.mapParts_init !! index.

Definition partName (index : nat) : string := default EmptyString (BodyPartTable index).

(** The message of the data model: one inner list per person, one
    four-field record per key point. *)
Definition record_of (k : KeyPoint) : yarp.Value :=
  yarp.VList [yarp.VString (partName (bodyPartIndex k)); yarp.VDouble (kp_x k);
              yarp.VDouble (kp_y k); yarp.VDouble (kp_confidence k)].

Definition message_of (persons : list Person) : yarp.Bottle :=
  [yarp.VList (map (fun person => yarp.VList (map record_of person)) persons)].

(** A pose array as the engine returns it: empty, or of sizes
    {people, parts, 3} with as many elements, their number fitting
    [int]. *)
Definition pose_well_formed (pose : op.Array) : Prop :=
  (op.mSize pose = [] /\ op.mData pose = [])
  \/ exists numberPeople numberBodyParts : nat,
       op.mSize pose = [numberPeople; numberBodyParts; 3]
       /\ length (op.mData pose) = numberPeople * numberBodyParts * 3
       /\ (Z.of_nat (numberPeople * numberBodyParts * 3) <= INT_MAX)%Z.

(** What [mapParts] can be after any number of calls of [work]: the
    initial table, with empty names under some further keys. *)
Definition mapParts_reachable (m : gmap nat string) : Prop :=
  forall key : nat,
    m !! key = ImageProcessing.mapParts_init !! key
    \/ (ImageProcessing.mapParts_init !! key = None /\ m !! key = Some EmptyString).

(** A person of twenty parts, the last one outside the table. *)
Definition pose_20_parts : op.Array :=
  {| op.mSize := [1; 20; 3]; op.mData := repeat 1%float 60 |}.

(** A person of nineteen parts. *)
Definition pose_19_parts : op.Array :=
  {| op.mSize := [1; 19; 3]; op.mData := repeat 1%float 57 |}.

(** A person of two parts, and an array of two dimensions. *)
Definition pose_2_parts : op.Array :=
  {| op.mSize := [1; 2; 3]; op.mData := [10; 20; 0.5; 30; 40; 0.25]%float |}.

Definition pose_2_dimensions : op.Array :=
  {| op.mSize := [2; 3]; op.mData := [10; 20; 0.5; 30; 40; 0.25]%float |}.

Definition datum_of_pose (pose : op.Array) : op.Datum :=
  {| op.cvInputData := op.Mat_default; op.cvOutputData := op.Mat_default;
     op.poseKeyPoints := pose |}.

(** The text of a resolution string after its first x. *)
Fixpoint after_x (s : string) : string :=
  match s with
  | EmptyString => EmptyString
  | String c r => if Ascii.eqb c "x" then r else after_x r
  end.

(** A text begins with an integer the way C reads one: white space if
    any, a sign if any, then a digit. *)
Definition integer_prefix (s : string) : bool :=
  match libc.skip_space s with
  | EmptyString => false
  | String c r =>
      let body := if Ascii.eqb c "-" || Ascii.eqb c "+" then r else String c r in
      match body with
      | EmptyString => false
      | String d _ => libc.isdigit d
      end
  end.

(** The numbers of a value, in the order they are read. *)
Fixpoint doubles (v : yarp.Value) : list float :=
  match v with
  | yarp.VString _ => []
  | yarp.VDouble d => [d]
  | yarp.VList l => flat_map doubles l
  end.

(** A value is a record of a name and three numbers. *)
Definition four_fields (v : yarp.Value) : Prop :=
  exists (name : string) (x y c : float),
    v = yarp.VList [yarp.VString name; yarp.VDouble x; yarp.VDouble y; yarp.VDouble c].

(** The datum [workProducer] makes of a frame. *)
Definition datum_of_frame (frame : yarp.Image) : op.Datum :=
  {| op.cvInputData := ImageInput.cvarrToMat frame;
     op.cvOutputData := op.Mat_default;
     op.poseKeyPoints := op.Array_default |}.

(** The image [workConsumer] writes for a rendered frame. *)
Definition image_of_Mat (m : op.Mat) : yarp.Image :=
  {| yarp.width := op.cols m; yarp.height := op.rows m; yarp.bytes := op.pixels m |}.

(** [mapParts] after some calls of [operator[]]: the entries it had, and
    further keys mapped to the empty string. *)
Definition mapParts_grown (m m' : gmap nat string) : Prop :=
  m ⊆ m'
  /\ forall (key : nat) (name : string),
       m' !! key = Some name -> m !! key = Some name \/ name = EmptyString.

(** An inner list of the message: a list of [parts] records. *)
Definition inner_list (parts : nat) (v : yarp.Value) : Prop :=
  exists records : yarp.Bottle,
    v = yarp.VList records /\ length records = parts /\ Forall four_fields records.

(** The inner lists a datum contributes: one per person, each of as many
    records as the datum has body parts. *)
Definition datum_group (datum : op.Datum) (group : yarp.Bottle) : Prop :=
  length group = op.getSize (op.poseKeyPoints datum) 0
  /\ Forall (inner_list (op.getSize (op.poseKeyPoints datum) 1)) group.

(** The test of the number of dimensions lets the datum pass. *)
Definition dimensions_accepted (datum : op.Datum) : Prop :=
  op.empty (op.poseKeyPoints datum) = true
  \/ op.getNumberDimensions (op.poseKeyPoints datum) = 3.

(** The elements the loops read for the datum exist, and their indices
    fit [int]. *)
Definition reads_inside (datum : op.Datum) : Prop :=
  0 < op.getSize (op.poseKeyPoints datum) 0 ->
  0 < op.getSize (op.poseKeyPoints datum) 1 ->
  3 * (op.getSize (op.poseKeyPoints datum) 0 * op.getSize (op.poseKeyPoints datum) 1)
    <= length (op.mData (op.poseKeyPoints datum))
  /\ (Z.of_nat (3 * (op.getSize (op.poseKeyPoints datum) 0
                     * op.getSize (op.poseKeyPoints datum) 1)) - 1 <= INT_MAX)%Z.

Section Cycles.

Variable Wrapper : Type.
Variable waitAndEmplace : Wrapper -> list op.Datum -> bool * Wrapper.
Variable waitAndPop : Wrapper -> bool * DatumsPtr * Wrapper.
Variable frames : nat -> yarp.Image.

(** [n] calls of [updateModule] in a row: the values returned in call
    order, the module after the last call and the lines logged. *)
Fixpoint updateModule_n (n : nat) (self : YarpOpenPose.t Wrapper)
  : Result (list bool * YarpOpenPose.t Wrapper * list LogLine) :=
  match n with
  | O => Returns ([], self, [])
  | S k =>
      r <-- updateModule Wrapper waitAndEmplace waitAndPop frames self ;;
      let '(b, self1, log1) := r in
      r' <-- updateModule_n k self1 ;;
      let '(bs, self2, log2) := r' in
      Returns (b :: bs, self2, log1 ++ log2)
  end.

End Cycles.

(** A wrapper that accepts every submission and gives it back as the
    processed batch. *)
Definition echo_waitAndEmplace (w : DatumsPtr) (datums : list op.Datum)
  : bool * DatumsPtr :=
  (true, Some datums).

Definition echo_waitAndPop (w : DatumsPtr) : bool * DatumsPtr * DatumsPtr :=
  (true, w, None).

(** A wrapper that accepts every submission and gives it back with the
    frame of each datum as its rendered frame and a pose array of its
    choice. *)
Definition rendered (pose : op.Array) (datum : op.Datum) : op.Datum :=
  {| op.cvInputData := op.cvInputData datum;
     op.cvOutputData := op.cvInputData datum;
     op.poseKeyPoints := pose |}.

Definition rendering_waitAndEmplace (pose : op.Array) (w : DatumsPtr)
    (datums : list op.Datum) : bool * DatumsPtr :=
  (true, Some (map (rendered pose) datums)).

(** * Properties *)

(** ** Configuration: [gflagsToOpParameters] and [configure] *)

Lemma gflagsToOpParameters_returns (p : Params) (w h w' h' : Z) :
  libc.sscanf_dxd (img_resolution p) 0 0 = (2, w, h)%Z ->
  libc.sscanf_dxd (net_resolution p) 0 0 = (2, w', h')%Z ->
  (0 <= heatmaps_scale_mode p <= 2)%Z ->
  gflagsToOpParameters p =
    (snd (gflagToPoseModel (model_name p)) ++ snd (gflagToScaleMode (scale_mode p)),
     Returns ((w, h), (w', h'),
              fst (gflagToPoseModel (model_name p)),
              fst (gflagToScaleMode (scale_mode p)),
              gflagToHeatMaps (heatmaps_add_parts p) (heatmaps_add_bkg p)
                (heatmaps_add_PAFs p),
              if (heatmaps_scale_mode p =? 0)%Z then op.PlusMinusOne
              else if (heatmaps_scale_mode p =? 1)%Z then op.ZeroToOne
              else op.UnsignedChar)).
Proof.
  intros Himg Hnet Hrange. unfold gflagsToOpParameters.
  rewrite Himg, Hnet. cbn [negb Z.eqb].
  destruct (gflagToPoseModel (model_name p)) as [poseModel log1].
  destruct (gflagToScaleMode (scale_mode p)) as [scaleMode log2].
  replace ((0 <=? heatmaps_scale_mode p)%Z && (heatmaps_scale_mode p <=? 2)%Z)
    with true by (symmetry; apply andb_true_intro; split; apply Z.leb_le; lia).
  reflexivity.
Qed.

Lemma gflagsToOpParameters_img_throws (p : Params) :
  (libc.sscanf_dxd (img_resolution p) 0 0).1.1 <> 2%Z ->
  exists what, gflagsToOpParameters p = ([], Throws what).
Proof.
  intros Hn. unfold gflagsToOpParameters.
  destruct (libc.sscanf_dxd (img_resolution p) 0 0) as [[nRead w] h]; simpl in Hn.
  apply Z.eqb_neq in Hn. rewrite Hn. cbn [negb]. eauto.
Qed.

Lemma gflagsToOpParameters_net_throws (p : Params) :
  parses (img_resolution p) ->
  (libc.sscanf_dxd (net_resolution p) 0 0).1.1 <> 2%Z ->
  exists what, gflagsToOpParameters p = ([], Throws what).
Proof.
  intros (w & h & Himg) Hn. unfold gflagsToOpParameters. rewrite Himg.
  cbn [negb Z.eqb].
  destruct (libc.sscanf_dxd (net_resolution p) 0 0) as [[nRead w'] h']; simpl in Hn.
  apply Z.eqb_neq in Hn. rewrite Hn. cbn [negb]. eauto.
Qed.

Lemma gflagsToOpParameters_heatmaps_throws (p : Params) :
  parses (img_resolution p) ->
  parses (net_resolution p) ->
  ~ (0 <= heatmaps_scale_mode p <= 2)%Z ->
  exists log, gflagsToOpParameters p = (log, Throws "Non valid `heatmaps_scale_mode`.").
Proof.
  intros (w & h & Himg) (w' & h' & Hnet) Hrange. unfold gflagsToOpParameters.
  rewrite Himg, Hnet. cbn [negb Z.eqb].
  destruct (gflagToPoseModel (model_name p)) as [poseModel log1].
  destruct (gflagToScaleMode (scale_mode p)) as [scaleMode log2].
  replace ((0 <=? heatmaps_scale_mode p)%Z && (heatmaps_scale_mode p <=? 2)%Z)
    with false.
  - cbn [negb]. eauto.
  - symmetry. apply andb_false_iff.
    destruct (Z.leb_spec 0 (heatmaps_scale_mode p)); [right | left; reflexivity].
    apply Z.leb_gt. lia.
Qed.

Section Configure.

Context {Wrapper : Type}.
Variable opWrapper_configure : Wrapper -> Params -> OpParameters -> Wrapper.
Variable opWrapper_start : Wrapper -> Wrapper.

Lemma configure_throws (wrapper : Wrapper) (p : Params) (log : list LogLine) (what : string) :
  gflagsToOpParameters p = (log, Throws what) ->
  configure Wrapper opWrapper_configure opWrapper_start wrapper p
    = (YDebug "Starting yarpOpenPose" :: log, Throws what)
  /\ entersRunning Wrapper opWrapper_configure opWrapper_start wrapper p = false.
Proof.
  intros H. unfold entersRunning, configure. rewrite H. split; reflexivity.
Qed.

Lemma configure_returns (wrapper : Wrapper) (p : Params) (log : list LogLine)
    (r : OpParameters) :
  gflagsToOpParameters p = (log, Returns r) ->
  entersRunning Wrapper opWrapper_configure opWrapper_start wrapper p = true.
Proof.
  intros H. unfold entersRunning, configure. rewrite H. reflexivity.
Qed.

End Configure.

(** ** The three conversions of configured values *)

(** C3, as the code has it: with both resolutions well formed,
    [heatmaps_scale_mode] 0 configures [PlusMinusOne], whose values lie in
    [-1,1], 1 configures [ZeroToOne], whose values lie in [0,1], and 2
    configures [UnsignedChar], the integers [0,255]; any other value
    makes [op::check] throw, so [configure] does not return. The help
    text of the option in [configure] documents 0 as [0,1] and 1 as
    [-1,1]: the first two are exchanged in the code. *)
Theorem heatmaps_scale_mode_0_is_PlusMinusOne (p : Params) :
  parses (img_resolution p) ->
  parses (net_resolution p) ->
  (heatmaps_scale_mode p = 0%Z ->
     exists log r, gflagsToOpParameters p = (log, Returns r)
       /\ heatMapsScaleMode_of r = op.PlusMinusOne
       /\ op.value_range (heatMapsScaleMode_of r) = Some (-1, 1)%Z)
  /\ (heatmaps_scale_mode p = 1%Z ->
     exists log r, gflagsToOpParameters p = (log, Returns r)
       /\ heatMapsScaleMode_of r = op.ZeroToOne
       /\ op.value_range (heatMapsScaleMode_of r) = Some (0, 1)%Z)
  /\ (heatmaps_scale_mode p = 2%Z ->
     exists log r, gflagsToOpParameters p = (log, Returns r)
       /\ heatMapsScaleMode_of r = op.UnsignedChar
       /\ op.value_range (heatMapsScaleMode_of r) = Some (0, 255)%Z)
  /\ (~ (0 <= heatmaps_scale_mode p <= 2)%Z ->
     exists log, gflagsToOpParameters p = (log, Throws "Non valid `heatmaps_scale_mode`.")
       /\ forall (Wrapper : Type) configure_ start (wrapper : Wrapper),
            entersRunning Wrapper configure_ start wrapper p = false).
Proof.
  intros Himg Hnet.
  destruct Himg as (w & h & Himg), Hnet as (w' & h' & Hnet).
  repeat split.
  - intros H0. eexists _, _. split.
    + apply (gflagsToOpParameters_returns p w h w' h' Himg Hnet). lia.
    + rewrite H0. split; reflexivity.
  - intros H1. eexists _, _. split.
    + apply (gflagsToOpParameters_returns p w h w' h' Himg Hnet). lia.
    + rewrite H1. split; reflexivity.
  - intros H2. eexists _, _. split.
    + apply (gflagsToOpParameters_returns p w h w' h' Himg Hnet). lia.
    + rewrite H2. split; reflexivity.
  - intros Hout.
    destruct (gflagsToOpParameters_heatmaps_throws p) as [log Hlog];
      [exists w, h; exact Himg | exists w', h'; exact Hnet | exact Hout |].
    exists log. split; [exact Hlog |].
    intros W c s wrapper. apply (configure_throws c s wrapper p log _ Hlog).
Qed.

Lemma heatmaps_scale_mode_0_witness :
  exists log r,
    gflagsToOpParameters (Params_heatmaps_scale_mode 0) = (log, Returns r)
    /\ heatMapsScaleMode_of r = op.PlusMinusOne
    /\ op.value_range (heatMapsScaleMode_of r) = Some (-1, 1)%Z.
Proof.
  apply (heatmaps_scale_mode_0_is_PlusMinusOne (Params_heatmaps_scale_mode 0)).
  - exists 320%Z, 240%Z. reflexivity.
  - exists 656%Z, 368%Z. reflexivity.
  - reflexivity.
Defined.

(** C4: the model names ["COCO"], ["MPI"] and ["MPI_4_layers"] select
    [COCO_18], [MPI_15] and [MPI_15_4] without a diagnostic; every other
    string selects [COCO_18] and logs one [yError] line; and whatever the
    model name is, a configuration whose resolutions and
    [heatmaps_scale_mode] are valid is converted with the selected model
    and [configure] returns [true]. *)
Theorem gflagToPoseModel_selection :
  gflagToPoseModel "COCO" = (op.COCO_18, [])
  /\ gflagToPoseModel "MPI" = (op.MPI_15, [])
  /\ gflagToPoseModel "MPI_4_layers" = (op.MPI_15_4, [])
  /\ (forall name : string,
        name <> "COCO" -> name <> "MPI" -> name <> "MPI_4_layers" ->
        gflagToPoseModel name =
          (op.COCO_18,
           [YError "String does not correspond to any model (COCO, MPI, MPI_4_layers)"]))
  /\ (forall p : Params,
        parses (img_resolution p) ->
        parses (net_resolution p) ->
        (0 <= heatmaps_scale_mode p <= 2)%Z ->
        exists log r,
          gflagsToOpParameters p = (log, Returns r)
          /\ poseModel_of r = fst (gflagToPoseModel (model_name p))
          /\ forall (Wrapper : Type) configure_ start (wrapper : Wrapper),
               entersRunning Wrapper configure_ start wrapper p = true).
Proof.
  split; [reflexivity |]. split; [reflexivity |]. split; [reflexivity |]. split.
  - intros name H1 H2 H3. unfold gflagToPoseModel.
    destruct (String.eqb_spec name "COCO") as [E | _]; [contradiction |].
    destruct (String.eqb_spec name "MPI") as [E | _]; [contradiction |].
    destruct (String.eqb_spec name "MPI_4_layers") as [E | _]; [contradiction |].
    reflexivity.
  - intros p (w & h & Himg) (w' & h' & Hnet) Hrange.
    pose proof (gflagsToOpParameters_returns p w h w' h' Himg Hnet Hrange) as Hret.
    eexists _, _. split; [exact Hret |]. split; [reflexivity |].
    intros W c s wrapper. exact (configure_returns c s wrapper p _ _ Hret).
Qed.

Lemma gflagToPoseModel_selection_witness :
  gflagToPoseModel "BODY_25" =
    (op.COCO_18,
     [YError "String does not correspond to any model (COCO, MPI, MPI_4_layers)"])
  /\ exists log r,
       gflagsToOpParameters (Params_model_name "BODY_25") = (log, Returns r)
       /\ poseModel_of r = op.COCO_18.
Proof.
  destruct gflagToPoseModel_selection as (_ & _ & _ & Hother & Hconf).
  split.
  - apply Hother; discriminate.
  - destruct (Hconf (Params_model_name "BODY_25")) as (log & r & Hr & Hm & _).
    + exists 320%Z, 240%Z. reflexivity.
    + exists 656%Z, 368%Z. reflexivity.
    + simpl. lia.
    + exists log, r. split; [exact Hr | exact Hm].
Defined.

(** C5: [scale_mode] 0, 1, 2, 3 and 4 select [InputResolution],
    [NetOutputResolution], [OutputResolution], [ZeroToOne] and
    [PlusMinusOne] without a diagnostic; on 0..4 the selection is
    one-to-one and reaches each of these five conventions; every other
    integer selects [InputResolution] and logs one [yError] line. *)
Theorem gflagToScaleMode_conventions :
  gflagToScaleMode 0 = (op.InputResolution, [])
  /\ gflagToScaleMode 1 = (op.NetOutputResolution, [])
  /\ gflagToScaleMode 2 = (op.OutputResolution, [])
  /\ gflagToScaleMode 3 = (op.ZeroToOne, [])
  /\ gflagToScaleMode 4 = (op.PlusMinusOne, [])
  /\ (forall a b : Z,
        (0 <= a <= 4)%Z -> (0 <= b <= 4)%Z ->
        fst (gflagToScaleMode a) = fst (gflagToScaleMode b) -> a = b)
  /\ (forall m : op.ScaleMode,
        m <> op.UnsignedChar ->
        exists z : Z, (0 <= z <= 4)%Z /\ gflagToScaleMode z = (m, []))
  /\ (forall z : Z,
        ~ (0 <= z <= 4)%Z ->
        gflagToScaleMode z =
          (op.InputResolution,
           [YError "String does not correspond to any scale mode: (0, 1, 2, 3, 4) for (InputResolution, NetOutputResolution, OutputResolution, ZeroToOne, PlusMinusOne)."])).
Proof.
  do 5 (split; [reflexivity |]). split; [| split].
  - intros a b Ha Hb.
    assert (a = 0 \/ a = 1 \/ a = 2 \/ a = 3 \/ a = 4)%Z as Ea by lia.
    assert (b = 0 \/ b = 1 \/ b = 2 \/ b = 3 \/ b = 4)%Z as Eb by lia.
    destruct Ea as [-> | [-> | [-> | [-> | ->]]]];
      destruct Eb as [-> | [-> | [-> | [-> | ->]]]];
      cbn; intros E; first [reflexivity | discriminate E].
  - intros m Hm. destruct m.
    + exists 0%Z. split; [lia | reflexivity].
    + exists 1%Z. split; [lia | reflexivity].
    + exists 2%Z. split; [lia | reflexivity].
    + exists 3%Z. split; [lia | reflexivity].
    + exists 4%Z. split; [lia | reflexivity].
    + contradiction.
  - intros z Hz. unfold gflagToScaleMode.
    destruct (Z.eqb_spec z 0); [lia |].
    destruct (Z.eqb_spec z 1); [lia |].
    destruct (Z.eqb_spec z 2); [lia |].
    destruct (Z.eqb_spec z 3); [lia |].
    destruct (Z.eqb_spec z 4); [lia |].
    reflexivity.
Qed.

Lemma gflagToScaleMode_conventions_witness :
  gflagToScaleMode 7 =
    (op.InputResolution,
     [YError "String does not correspond to any scale mode: (0, 1, 2, 3, 4) for (InputResolution, NetOutputResolution, OutputResolution, ZeroToOne, PlusMinusOne)."])
  /\ gflagToScaleMode (-1) =
    (op.InputResolution,
     [YError "String does not correspond to any scale mode: (0, 1, 2, 3, 4) for (InputResolution, NetOutputResolution, OutputResolution, ZeroToOne, PlusMinusOne)."]).
Proof.
  destruct gflagToScaleMode_conventions as (_ & _ & _ & _ & _ & _ & _ & Hother).
  split; apply Hother; lia.
Defined.

(** ** [ImageInput]: the end of the stream is permanent *)

Lemma workProducer_closed (frames : nat -> yarp.Image) (self : ImageInput.t) :
  ImageInput.mClosed self = true ->
  ImageInput.workProducer frames self
    = (None,
       {| ImageInput.inPort_reads := ImageInput.inPort_reads self;
          ImageInput.mClosed := true |},
       []).
Proof. intros H. unfold ImageInput.workProducer. rewrite H. reflexivity. Qed.

Lemma workProducer_n_closed (frames : nat -> yarp.Image) (n : nat) (self : ImageInput.t) :
  ImageInput.mClosed self = true ->
  ImageInput.workProducer_n frames n self
    = (repeat None n,
       if n is O then self else
       {| ImageInput.inPort_reads := ImageInput.inPort_reads self;
          ImageInput.mClosed := true |}).
Proof.
  revert self. induction n as [| n IH]; intros self H; [reflexivity |].
  cbn [ImageInput.workProducer_n]. rewrite (workProducer_closed frames self H).
  rewrite IH by reflexivity. cbn [repeat]. destruct n; reflexivity.
Qed.

(** C7: when a call of [workProducer] finds the object closed, or reads an
    empty frame, it returns [nullptr] and leaves the object closed; each
    of the next [n] calls, for every [n], returns [nullptr], and none of
    them reads the inbound port. *)
Theorem workProducer_end_of_stream_permanent
    (frames : nat -> yarp.Image) (self : ImageInput.t) (n : nat) :
  ImageInput.mClosed self = true
  \/ op.Mat_empty (ImageInput.cvarrToMat (frames (ImageInput.inPort_reads self))) = true ->
  let '(result, self', _) := ImageInput.workProducer frames self in
  let '(results, self'') := ImageInput.workProducer_n frames n self' in
  result = None
  /\ ImageInput.mClosed self' = true
  /\ results = repeat None n
  /\ ImageInput.inPort_reads self'' = ImageInput.inPort_reads self'
  /\ ImageInput.mClosed self'' = true.
Proof.
  intros H.
  assert (Hcall : exists reads log,
             ImageInput.workProducer frames self
             = (None, {| ImageInput.inPort_reads := reads; ImageInput.mClosed := true |}, log)).
  { unfold ImageInput.workProducer.
    destruct (ImageInput.mClosed self) eqn:Hclosed; [eauto |].
    destruct H as [H | H]; [discriminate H |].
    cbn [op.cvInputData]. rewrite H. eauto. }
  destruct Hcall as (reads & log & ->).
  rewrite workProducer_n_closed by reflexivity.
  repeat split; destruct n; reflexivity.
Qed.

Lemma workProducer_end_of_stream_witness :
  let frames := fun k : nat =>
    if Nat.ltb k 3 then one_pixel
    else {| yarp.width := 0; yarp.height := 0; yarp.bytes := [] |} in
  let self := {| ImageInput.inPort_reads := 3; ImageInput.mClosed := false |} in
  let '(result, self', _) := ImageInput.workProducer frames self in
  let '(results, self'') := ImageInput.workProducer_n frames 4 self' in
  result = None
  /\ ImageInput.mClosed self' = true
  /\ results = repeat None 4
  /\ ImageInput.inPort_reads self'' = ImageInput.inPort_reads self'
  /\ ImageInput.mClosed self'' = true.
Proof.
  intros frames self.
  apply (workProducer_end_of_stream_permanent frames self 4).
  right. reflexivity.
Defined.

(** ** [ImageOutput]: what is written and what is logged *)




(** ** [Module::updateModule]: a rejected submission *)

Lemma workProducer_acquired (frames : nat -> yarp.Image) (self input : ImageInput.t)
    (datums : list op.Datum) (log : list LogLine) :
  ImageInput.workProducer frames self = (Some datums, input, log) -> log = [].
Proof.
  unfold ImageInput.workProducer.
  destruct (ImageInput.mClosed self); [discriminate |].
  destruct (op.Mat_empty _); [discriminate |].
  intros [= _ _ <-]. reflexivity.
Qed.

(** C9: in a cycle where [workProducer] returns a frame and
    [waitAndEmplace] returns [false], [updateModule] returns [!closing]
    (so [true] while [closing] is [false]) having logged exactly one
    line, the [yError] one; nothing is written to either outbound port,
    [mapParts] is untouched and [waitAndPop] is not called. *)
Theorem updateModule_submission_rejected
    (Wrapper : Type)
    (waitAndEmplace : Wrapper -> list op.Datum -> bool * Wrapper)
    (waitAndPop : Wrapper -> bool * DatumsPtr * Wrapper)
    (frames : nat -> yarp.Image)
    (self : YarpOpenPose.t Wrapper)
    (datums : list op.Datum) (input : ImageInput.t) (log : list LogLine)
    (wrapper : Wrapper) :
  ImageInput.workProducer frames (inputClass self) = (Some datums, input, log) ->
  waitAndEmplace (opWrapper self) datums = (false, wrapper) ->
  exists self',
    updateModule Wrapper waitAndEmplace waitAndPop frames self
      = Returns (negb (closing self), self',
                 [YError "Processed datum could not be emplaced."])
    /\ ImageOutput.outPort (outputClass self') = ImageOutput.outPort (outputClass self)
    /\ ImageProcessing.targetPort (processingClass self')
       = ImageProcessing.targetPort (processingClass self)
    /\ processingClass self' = processingClass self
    /\ inputClass self' = input
    /\ opWrapper self' = wrapper
    /\ closing self' = closing self
    /\ (closing self = false -> negb (closing self) = true).
Proof.
  intros Hproduce Hemplace.
  pose proof (workProducer_acquired _ _ _ _ _ Hproduce) as ->.
  unfold updateModule. rewrite Hproduce, Hemplace. cbn [andb app].
  eexists. split; [reflexivity |]. cbn.
  repeat split. intros ->. reflexivity.
Qed.

Lemma updateModule_submission_rejected_witness :
  let self :=
    {| inputClass := ImageInput.new; processingClass := ImageProcessing.new;
       outputClass := ImageOutput.new; opWrapper := tt; closing := false |} in
  exists self',
    updateModule unit rejecting_waitAndEmplace closed_waitAndPop (fun _ => one_pixel) self
      = Returns (true, self', [YError "Processed datum could not be emplaced."])
    /\ ImageOutput.outPort (outputClass self') = []
    /\ ImageProcessing.targetPort (processingClass self') = [].
Proof.
  intros self.
  destruct (updateModule_submission_rejected unit rejecting_waitAndEmplace
              closed_waitAndPop (fun _ => one_pixel) self
              [ {| op.cvInputData := ImageInput.cvarrToMat one_pixel;
                   op.cvOutputData := op.Mat_default;
                   op.poseKeyPoints := op.Array_default |} ]
              {| ImageInput.inPort_reads := 1; ImageInput.mClosed := false |}
              [] tt eq_refl eq_refl)
    as (self' & Hcycle & Hout & Htarget & _).
  exists self'. split; [exact Hcycle |]. split; [exact Hout | exact Htarget].
Defined.

(** ** [ImageProcessing::work] on a batch without persons *)

Lemma datums_loop_zero_persons (datums : list op.Datum)
    (s : gmap nat string * yarp.Bottle) :
  Forall (fun datum =>
            op.getSize (op.poseKeyPoints datum) 0 = 0
            /\ (op.empty (op.poseKeyPoints datum) = true
                \/ op.getNumberDimensions (op.poseKeyPoints datum) = 3)) datums ->
  ImageProcessing.datums_loop datums s = Returns s.
Proof.
  induction 1 as [| datum rest [Hzero Hdims] _ IH]; [reflexivity |].
  cbn [ImageProcessing.datums_loop]. unfold ImageProcessing.datum_body.
  replace (negb (op.empty (op.poseKeyPoints datum))
           && negb (Nat.eqb (op.getNumberDimensions (op.poseKeyPoints datum)) 3))
    with false.
  - rewrite Hzero. cbn. exact IH.
  - destruct Hdims as [-> | ->]; [reflexivity |].
    rewrite Nat.eqb_refl. symmetry. apply andb_false_r.
Qed.

(** What [work] does with a batch that holds datums but no person: the
    guard reads the size of [peopleBottle], which already holds
    [mainList], so the bottle with one empty list is written. *)
Lemma work_zero_persons (self : ImageProcessing.t) (datums : list op.Datum) :
  datums <> [] ->
  Forall (fun datum =>
            op.getSize (op.poseKeyPoints datum) 0 = 0
            /\ (op.empty (op.poseKeyPoints datum) = true
                \/ op.getNumberDimensions (op.poseKeyPoints datum) = 3)) datums ->
  ImageProcessing.work self (Some datums)
    = Returns {| ImageProcessing.mapParts := ImageProcessing.mapParts self;
                 ImageProcessing.targetPort :=
                   ImageProcessing.targetPort self ++ [[yarp.VList []]] |}.
Proof.
  intros Hne Hzero. destruct datums as [| datum rest]; [contradiction |].
  unfold ImageProcessing.work.
  rewrite (datums_loop_zero_persons _ _ Hzero). reflexivity.
Qed.

(** C1, on the code: for the batch of one datum whose [poseKeyPoints] is
    the empty array (no person), [work] performs one write to the target
    port, of the bottle that holds one empty list. *)
Theorem work_writes_zero_person_batch :
  op.getSize (op.poseKeyPoints op.Datum_default) 0 = 0
  /\ ImageProcessing.work ImageProcessing.new (Some [op.Datum_default])
     = Returns {| ImageProcessing.mapParts := ImageProcessing.mapParts_init;
                  ImageProcessing.targetPort := [[yarp.VList []]] |}.
Proof.
  split; [reflexivity |].
  apply (work_zero_persons ImageProcessing.new [op.Datum_default]).
  - discriminate.
  - repeat constructor.
Qed.

(** ** Resolution strings: [sscanf] with ["%dx%d"] *)

Example resolution_string_656_368 : resolution_string 656 368 = "656x368".
Proof. reflexivity. Qed.

Example sscanf_dxd_both : libc.sscanf_dxd "656x368" 0 0 = (2, 656, 368)%Z.
Proof. reflexivity. Qed.

Example sscanf_dxd_no_separator : libc.sscanf_dxd "656" 0 0 = (1, 656, 0)%Z.
Proof. reflexivity. Qed.

Example sscanf_dxd_no_height : libc.sscanf_dxd "656x" 0 0 = (1, 656, 0)%Z.
Proof. reflexivity. Qed.

Example sscanf_dxd_letters : libc.sscanf_dxd "widex368" 0 0 = (0, 0, 0)%Z.
Proof. reflexivity. Qed.

Example sscanf_dxd_empty : libc.sscanf_dxd EmptyString 0 0 = (-1, 0, 0)%Z.
Proof. reflexivity. Qed.

Example sscanf_dxd_signs_and_spaces :
  libc.sscanf_dxd " -12x +7 pixels" 0 0 = (2, -12, 7)%Z.
Proof. reflexivity. Qed.

Section Characters.

Local Ltac by_cases c :=
  destruct c as [[] [] [] [] [] [] [] []]; try discriminate; try reflexivity.

Lemma isdigit_not_x (c : ascii) : libc.isdigit c = true -> Ascii.eqb c "x" = false.
Proof. by_cases c. Qed.

Lemma isdigit_not_space (c : ascii) : libc.isdigit c = true -> libc.isspace c = false.
Proof. by_cases c. Qed.

Lemma isdigit_not_sign (c : ascii) :
  libc.isdigit c = true -> Ascii.eqb c "-" = false /\ Ascii.eqb c "+" = false.
Proof. by_cases c; intros _; split; reflexivity. Qed.

Lemma isdigit_not_nul (c : ascii) :
  libc.isdigit c = true -> Nat.eqb (nat_of_ascii c) 0 = false.
Proof. by_cases c. Qed.

Lemma isspace_not_x (c : ascii) : libc.isspace c = true -> Ascii.eqb c "x" = false.
Proof. by_cases c. Qed.

Lemma sign_not_x (c : ascii) :
  Ascii.eqb c "-" || Ascii.eqb c "+" = true -> Ascii.eqb c "x" = false.
Proof. by_cases c. Qed.

Lemma x_not_digit (c : ascii) : Ascii.eqb c "x" = true -> libc.isdigit c = false.
Proof. by_cases c. Qed.

Lemma x_not_nul (c : ascii) : Ascii.eqb c "x" = true -> Nat.eqb (nat_of_ascii c) 0 = false.
Proof. by_cases c. Qed.

End Characters.

Lemma pretty_N_char_digit (d : N) :
  (d < 10)%N ->
  libc.isdigit (pretty_N_char d) = true
  /\ libc.digit_value (pretty_N_char d) = Z.of_N d.
Proof.
  intros Hd.
  assert (d = 0 \/ d = 1 \/ d = 2 \/ d = 3 \/ d = 4 \/ d = 5 \/ d = 6
          \/ d = 7 \/ d = 8 \/ d = 9)%N as Hcases by lia.
  repeat (destruct Hcases as [-> | Hcases]; [split; reflexivity |]).
  subst d. split; reflexivity.
Qed.

Lemma append_cons (x : ascii) (a b : string) : String x a +:+ b = String x (a +:+ b).
Proof. reflexivity. Qed.

Lemma append_empty_l (b : string) : EmptyString +:+ b = b.
Proof. reflexivity. Qed.

Lemma append_assoc (a b c : string) : (a +:+ b) +:+ c = a +:+ (b +:+ c).
Proof.
  induction a as [| x a IH]; [reflexivity |].
  rewrite !append_cons, IH. reflexivity.
Qed.

Lemma append_empty_r (a : string) : a +:+ EmptyString = a.
Proof.
  induction a as [| x a IH]; [reflexivity |].
  rewrite append_cons, IH. reflexivity.
Qed.

Lemma all_digits_app (a b : string) :
  all_digits a = true -> all_digits b = true -> all_digits (a +:+ b) = true.
Proof.
  induction a as [| x a IH]; [rewrite append_empty_l; auto |].
  rewrite append_cons. cbn [all_digits].
  intros [Hx Ha]%andb_true_iff Hb. rewrite Hx, IH by assumption. reflexivity.
Qed.

Lemma decimal_value_app (a b : string) (acc : Z) :
  decimal_value acc (a +:+ b) = decimal_value (decimal_value acc a) b.
Proof.
  revert acc. induction a as [| x a IH]; intros acc; [reflexivity |].
  rewrite append_cons. cbn [decimal_value]. apply IH.
Qed.

(** The digits [pretty] writes for a positive number: a non-empty run of
    decimal digits whose value is the number. *)
Lemma pretty_N_go_digits (x : N) :
  (0 < x)%N ->
  exists digits : string,
    digits <> EmptyString
    /\ all_digits digits = true
    /\ (forall acc, decimal_value acc digits
                    = (acc * 10 ^ Z.of_nat (String.length digits) + Z.of_N x)%Z)
    /\ forall s, pretty_N_go x s = digits +:+ s.
Proof.
  induction (N.lt_wf_0 x) as [x _ IH]. intros Hpos.
  destruct (pretty_N_char_digit (x `mod` 10)%N) as [Hdigit Hvalue];
    [apply N.mod_lt; lia |].
  pose proof (N.div_mod x 10 ltac:(lia)) as Hx.
  destruct (N.eq_dec (x `div` 10)%N 0%N) as [Hsmall | Hbig].
  - exists (String (pretty_N_char (x `mod` 10)) EmptyString).
    split; [discriminate |]. split; [cbn; rewrite Hdigit; reflexivity |]. split.
    + intros acc. cbn [decimal_value String.length]. rewrite Hvalue.
      change (10 ^ Z.of_nat 1)%Z with 10%Z.
      rewrite Hsmall, N.mul_0_r, N.add_0_l in Hx. rewrite <- Hx. reflexivity.
    + intros s. rewrite pretty_N_go_step by exact Hpos.
      rewrite Hsmall, pretty_N_go_0. reflexivity.
  - destruct (IH (x `div` 10)%N) as (digits & Hne & Hall & Hval & Hgo).
    { apply N.div_lt; lia. }
    { apply N.neq_0_lt_0, Hbig. }
    assert (HxZ : Z.of_N x = (10 * Z.of_N (x `div` 10) + Z.of_N (x `mod` 10))%Z).
    { rewrite Hx at 1. rewrite N2Z.inj_add, N2Z.inj_mul. reflexivity. }
    exists (digits +:+ String (pretty_N_char (x `mod` 10)) EmptyString).
    split; [destruct digits; [contradiction | discriminate] |].
    split; [apply all_digits_app; [exact Hall | cbn; rewrite Hdigit; reflexivity] |].
    split.
    + intros acc. rewrite decimal_value_app, Hval. cbn [decimal_value].
      rewrite Hvalue.
      replace (String.length (digits +:+ String (pretty_N_char (x `mod` 10)) EmptyString))
        with (S (String.length digits)).
      * rewrite Nat2Z.inj_succ, Z.pow_succ_r by lia. rewrite HxZ. ring.
      * clear. induction digits as [| c digits IHd]; [reflexivity |].
        rewrite append_cons. cbn [String.length]. rewrite <- IHd. reflexivity.
    + intros s. rewrite pretty_N_go_step by exact Hpos.
      rewrite Hgo, append_assoc. reflexivity.
Qed.

Lemma pretty_N_digits (x : N) :
  (0 < x)%N ->
  exists digits : string,
    pretty x = digits /\ digits <> EmptyString /\ all_digits digits = true
    /\ decimal_value 0 digits = Z.of_N x.
Proof.
  intros Hpos. destruct (pretty_N_go_digits x Hpos) as (digits & Hne & Hall & Hval & Hgo).
  exists digits. repeat split; try assumption.
  - unfold pretty, pretty_N. destruct (decide (x = 0%N)) as [-> | _]; [lia |].
    rewrite Hgo. apply append_empty_r.
  - rewrite Hval. lia.
Qed.

Lemma scan_digits_run (digits s : string) (seen : bool) (acc : Z) :
  all_digits digits = true ->
  libc.scan_digits (digits +:+ s) seen acc
    = libc.scan_digits s (if digits is EmptyString then seen else true)
        (decimal_value acc digits).
Proof.
  revert seen acc. induction digits as [| c r IH]; intros seen acc Hall; [reflexivity |].
  cbn [all_digits] in Hall. apply andb_true_iff in Hall as [Hc Hr].
  rewrite append_cons. cbn [libc.scan_digits decimal_value]. rewrite Hc.
  rewrite IH by exact Hr. destruct r; reflexivity.
Qed.

Lemma c_str_digits (digits s : string) :
  all_digits digits = true -> libc.c_str (digits +:+ s) = digits +:+ libc.c_str s.
Proof.
  induction digits as [| c r IH]; intros Hall; [reflexivity |].
  cbn [all_digits] in Hall. apply andb_true_iff in Hall as [Hc Hr].
  rewrite !append_cons. cbn [libc.c_str].
  rewrite (isdigit_not_nul c Hc), IH by exact Hr. reflexivity.
Qed.

Lemma store_int_id (v : Z) : (INT_MIN <= v <= INT_MAX)%Z -> libc.store_int v = v.
Proof.
  unfold INT_MIN, INT_MAX, libc.store_int, libc.clamp_long, libc.wrap_int,
    LONG_MIN, LONG_MAX.
  intros Hv. rewrite Z.min_r, Z.max_r by lia.
  rewrite Z.mod_small by lia. lia.
Qed.

(** [%d] on a run of digits followed by a character that is not a digit,
    or by the end of the string. *)
Lemma scan_d_digits (digits rest : string) :
  digits <> EmptyString ->
  all_digits digits = true ->
  (if rest is String c _ then libc.isdigit c else false) = false ->
  libc.scan_d (digits +:+ rest)
    = libc.Converted (libc.store_int (decimal_value 0 digits)) rest.
Proof.
  intros Hne Hall Hstop. destruct digits as [| c r]; [contradiction |].
  pose proof Hall as Hall'. cbn [all_digits] in Hall'.
  apply andb_true_iff in Hall' as [Hc _].
  unfold libc.scan_d. rewrite append_cons. cbn [libc.skip_space].
  rewrite (isdigit_not_space c Hc).
  destruct (isdigit_not_sign c Hc) as [-> ->].
  rewrite <- append_cons, (scan_digits_run (String c r) rest false 0 Hall).
  destruct rest as [| c' rest']; [reflexivity |].
  cbn [libc.scan_digits]. rewrite Hstop. reflexivity.
Qed.

Lemma sscanf_dxd_digits (wdigits hdigits : string) (w h : Z) :
  wdigits <> EmptyString -> all_digits wdigits = true ->
  hdigits <> EmptyString -> all_digits hdigits = true ->
  libc.sscanf_dxd (wdigits +:+ "x" +:+ hdigits) w h
    = (2%Z, libc.store_int (decimal_value 0 wdigits),
       libc.store_int (decimal_value 0 hdigits)).
Proof.
  intros Hw Hwd Hh Hhd. unfold libc.sscanf_dxd.
  rewrite (c_str_digits wdigits _ Hwd), append_cons, append_empty_l.
  cbn [libc.c_str]. change (Nat.eqb (nat_of_ascii "x") 0) with false. cbn iota.
  rewrite <- (append_empty_r hdigits) at 1.
  rewrite (c_str_digits hdigits EmptyString Hhd). cbn [libc.c_str]. rewrite append_empty_r.
  rewrite (scan_d_digits wdigits (String "x" hdigits) Hw Hwd eq_refl).
  change (Ascii.eqb "x" "x") with true. cbn iota.
  rewrite <- (append_empty_r hdigits) at 1.
  rewrite (scan_d_digits hdigits EmptyString Hh Hhd eq_refl). reflexivity.
Qed.

(** A resolution string written from two positive integers that fit
    [int] is read back as these integers. *)
Lemma sscanf_dxd_resolution_string (W H : N) (w h : Z) :
  (0 < Z.of_N W <= INT_MAX)%Z ->
  (0 < Z.of_N H <= INT_MAX)%Z ->
  libc.sscanf_dxd (resolution_string W H) w h = (2%Z, Z.of_N W, Z.of_N H).
Proof.
  intros HW HH. unfold resolution_string.
  destruct (pretty_N_digits W) as (wdigits & -> & Hw & Hwd & Hwv); [lia |].
  destruct (pretty_N_digits H) as (hdigits & -> & Hh & Hhd & Hhv); [lia |].
  rewrite (sscanf_dxd_digits wdigits hdigits w h Hw Hwd Hh Hhd), Hwv, Hhv.
  rewrite !store_int_id by (unfold INT_MIN, INT_MAX in *; lia). reflexivity.
Qed.

(** When [sscanf] returns 2, the first [%d] stopped in front of an x. *)
Lemma sscanf_dxd_two (s : string) (w h : Z) :
  (libc.sscanf_dxd s w h).1.1 = 2%Z ->
  exists v rest, libc.scan_d (libc.c_str s) = libc.Converted v (String "x" rest).
Proof.
  unfold libc.sscanf_dxd.
  destruct (libc.scan_d (libc.c_str s)) as [| | v rest]; cbn; try discriminate.
  destruct rest as [| c rest]; cbn; [discriminate |].
  destruct (Ascii.eqb_spec c "x") as [-> | _]; cbn; [eauto | discriminate].
Qed.

Lemma contains_x_scan_digits (s : string) (seen : bool) (acc : Z) :
  contains_x (libc.scan_digits s seen acc).2 = true -> contains_x s = true.
Proof.
  revert seen acc. induction s as [| c r IH]; intros seen acc; cbn; [auto |].
  destruct (libc.isdigit c).
  - intros H%IH. rewrite H. apply orb_true_r.
  - auto.
Qed.

Lemma contains_x_skip_space (s : string) :
  contains_x (libc.skip_space s) = true -> contains_x s = true.
Proof.
  induction s as [| c r IH]; cbn; [auto |].
  destruct (libc.isspace c); [| auto].
  intros H%IH. rewrite H. apply orb_true_r.
Qed.

Lemma contains_x_c_str (s : string) :
  contains_x (libc.c_str s) = true -> contains_x s = true.
Proof.
  induction s as [| c r IH]; cbn; [auto |].
  destruct (Nat.eqb (nat_of_ascii c) 0); cbn; [discriminate |].
  destruct (Ascii.eqb c "x"); [reflexivity |]. exact IH.
Qed.

Lemma contains_x_scan_d (s : string) (v : Z) (rest : string) :
  libc.scan_d s = libc.Converted v rest ->
  contains_x rest = true -> contains_x s = true.
Proof.
  unfold libc.scan_d. intros Hscan Hrest. apply contains_x_skip_space.
  destruct (libc.skip_space s) as [| c r]; [discriminate |].
  assert (Hbody : forall body, (libc.scan_digits body false 0).2 = rest ->
                    contains_x body = true).
  { intros body <-. revert Hrest. apply contains_x_scan_digits. }
  destruct (Ascii.eqb c "-"); [| destruct (Ascii.eqb c "+")].
  - destruct (libc.scan_digits r false 0) as [[[] v'] rest'] eqn:E; [| discriminate].
    injection Hscan as _ <-. cbn. rewrite (Hbody r) by (rewrite E; reflexivity).
    apply orb_true_r.
  - destruct (libc.scan_digits r false 0) as [[[] v'] rest'] eqn:E; [| discriminate].
    injection Hscan as _ <-. cbn. rewrite (Hbody r) by (rewrite E; reflexivity).
    apply orb_true_r.
  - destruct (libc.scan_digits (String c r) false 0) as [[[] v'] rest'] eqn:E;
      [| discriminate].
    injection Hscan as _ <-. apply Hbody. rewrite E. reflexivity.
Qed.

(** Without an x in the string, [sscanf] does not return 2. *)
Lemma sscanf_dxd_without_x (s : string) (w h : Z) :
  contains_x s = false -> (libc.sscanf_dxd s w h).1.1 <> 2%Z.
Proof.
  intros Hno Htwo. destruct (sscanf_dxd_two s w h Htwo) as (v & rest & Hscan).
  apply contains_x_scan_d in Hscan; [| reflexivity].
  apply contains_x_c_str in Hscan. congruence.
Qed.

Lemma scan_digits_width (s : string) (seen : bool) (acc : Z)
    (seen' : bool) (v : Z) (rest : string) :
  libc.scan_digits s seen acc = (seen', v, String "x" rest) ->
  all_digits (width_field s) = true
  /\ (seen' = true -> seen = true \/ width_field s <> EmptyString).
Proof.
  revert seen acc. induction s as [| c r IH]; intros seen acc; cbn [libc.scan_digits].
  - discriminate.
  - destruct (libc.isdigit c) eqn:Hc.
    + intros [Hall _]%IH. cbn [width_field]. rewrite (isdigit_not_x c Hc).
      cbn [all_digits]. rewrite Hc, Hall. split; [reflexivity |].
      intros _. right. discriminate.
    + intros [= -> _ -> _]. split; [reflexivity |]. intros ->. left. reflexivity.
Qed.

Lemma numeric_space (c : ascii) (field : string) :
  libc.isspace c = true -> numeric (String c field) = numeric field.
Proof. intros Hs. unfold numeric. cbn [libc.skip_space]. rewrite Hs. reflexivity. Qed.

(** When [%d] stops in front of an x, the text before that x is
    numeric. *)
Lemma scan_d_width_numeric (s : string) (v : Z) (rest : string) :
  libc.scan_d s = libc.Converted v (String "x" rest) ->
  numeric (width_field s) = true.
Proof.
  induction s as [| c r IH]; [discriminate |].
  destruct (libc.isspace c) eqn:Hs.
  - unfold libc.scan_d. cbn [libc.skip_space]. rewrite Hs.
    intros H. cbn [width_field]. rewrite (isspace_not_x c Hs), (numeric_space c _ Hs).
    apply IH. exact H.
  - unfold libc.scan_d. cbn [libc.skip_space]. rewrite Hs.
    destruct (Ascii.eqb c "-" || Ascii.eqb c "+") eqn:Hsign.
    + assert (Hbody : (if Ascii.eqb c "-" then (true, r)
                       else if Ascii.eqb c "+" then (false, r)
                       else (false, String c r)).2 = r).
      { destruct (Ascii.eqb c "-"); [reflexivity |].
        destruct (Ascii.eqb c "+"); [reflexivity | discriminate Hsign]. }
      destruct (if Ascii.eqb c "-" then (true, r)
                else if Ascii.eqb c "+" then (false, r)
                else (false, String c r)) as [negative body].
      cbn in Hbody. subst body.
      destruct (libc.scan_digits r false 0) as [[[] v'] rest'] eqn:E; [| discriminate].
      intros [= _ ->]. destruct (scan_digits_width _ _ _ _ _ _ E) as [Hall Hseen].
      cbn [width_field]. rewrite (sign_not_x c Hsign).
      unfold numeric. cbn [libc.skip_space]. rewrite Hs, Hsign.
      destruct (width_field r); [| exact Hall].
      destruct (Hseen eq_refl) as [? | ?]; [discriminate | contradiction].
    + apply orb_false_iff in Hsign as [Hminus Hplus]. rewrite Hminus, Hplus.
      destruct (libc.scan_digits (String c r) false 0) as [[[] v'] rest'] eqn:E;
        [| discriminate].
      intros [= _ ->]. destruct (scan_digits_width _ _ _ _ _ _ E) as [Hall Hseen].
      destruct (Hseen eq_refl) as [? | Hne]; [discriminate |].
      cbn [width_field] in *. destruct (Ascii.eqb c "x"); [contradiction |].
      unfold numeric. cbn [libc.skip_space]. rewrite Hs, Hminus, Hplus. exact Hall.
Qed.

Lemma width_field_c_str (s : string) :
  contains_x (libc.c_str s) = true -> width_field (libc.c_str s) = width_field s.
Proof.
  induction s as [| c r IH]; [reflexivity |]. cbn [libc.c_str].
  destruct (Nat.eqb (nat_of_ascii c) 0); [discriminate |].
  cbn [contains_x width_field].
  destruct (Ascii.eqb c "x"); [reflexivity |].
  intros H. rewrite (IH H). reflexivity.
Qed.

(** With a width field that is not numeric, [sscanf] does not return 2. *)
Lemma sscanf_dxd_width_not_numeric (s : string) (w h : Z) :
  numeric (width_field s) = false -> (libc.sscanf_dxd s w h).1.1 <> 2%Z.
Proof.
  intros Hno Htwo. destruct (sscanf_dxd_two s w h Htwo) as (v & rest & Hscan).
  pose proof (scan_d_width_numeric _ _ _ Hscan) as Hnum.
  rewrite width_field_c_str in Hnum; [congruence |].
  apply (contains_x_scan_d _ _ _ Hscan). reflexivity.
Qed.

Lemma sscanf_dxd_malformed (s : string) (w h : Z) :
  malformed s = true -> (libc.sscanf_dxd s w h).1.1 <> 2%Z.
Proof.
  unfold malformed. intros [H | H]%orb_true_iff; apply negb_true_iff in H.
  - apply sscanf_dxd_without_x, H.
  - apply sscanf_dxd_width_not_numeric, H.
Qed.

Lemma gflagsToOpParameters_resolution_throws (p : Params) :
  (libc.sscanf_dxd (img_resolution p) 0 0).1.1 <> 2%Z
  \/ (libc.sscanf_dxd (net_resolution p) 0 0).1.1 <> 2%Z ->
  exists what, gflagsToOpParameters p = ([], Throws what).
Proof.
  intros H.
  destruct (Z.eq_dec (libc.sscanf_dxd (img_resolution p) 0 0).1.1 2%Z) as [Himg | Himg];
    [| apply gflagsToOpParameters_img_throws, Himg].
  destruct H as [H | H]; [contradiction |].
  apply gflagsToOpParameters_net_throws; [| exact H].
  destruct (libc.sscanf_dxd (img_resolution p) 0 0) as [[n w] h] eqn:E. cbn in Himg.
  subst n. exists w, h. exact E.
Qed.

(** C6, as stated, fails on a width that does not fit [int]: the string
    of the positive integers 2147483648 and 240 separated by x is not
    malformed and [sscanf] converts both fields, but what it stores for
    the width is the value wrapped to [int], a negative number;
    [gflagsToOpParameters] returns with that width as [outputSize]. *)
Lemma resolution_overflow_accepted :
  resolution_string 2147483648 240 = "2147483648x240"
  /\ malformed "2147483648x240" = false
  /\ libc.sscanf_dxd "2147483648x240" 0 0 = (2, -2147483648, 240)%Z
  /\ exists log r,
       gflagsToOpParameters (Params_resolutions "2147483648x240" "656x368")
       = (log, Returns r)
       /\ outputSize_of r = (-2147483648, 240)%Z
       /\ outputSize_of r <> (2147483648, 240)%Z.
Proof.
  split; [vm_compute; reflexivity |]. split; [vm_compute; reflexivity |].
  assert (Himg : libc.sscanf_dxd "2147483648x240" 0 0 = (2, -2147483648, 240)%Z)
    by (vm_compute; reflexivity).
  split; [exact Himg |].
  assert (Hnet : libc.sscanf_dxd "656x368" 0 0 = (2, 656, 368)%Z)
    by (vm_compute; reflexivity).
  eexists _, _. split.
  - apply (gflagsToOpParameters_returns
             (Params_resolutions "2147483648x240" "656x368") _ _ _ _ Himg Hnet).
    cbn. lia.
  - split; [reflexivity | discriminate].
Qed.

(** C6, amended: a resolution string written as two positive integers
    that are at most [INT_MAX], in decimal and separated by x, is read
    by [sscanf] as exactly these two integers, for [img_resolution] and
    for [net_resolution], and they become [outputSize] and
    [netInputSize]; a resolution string without an x, or whose text
    before the first x is not numeric, makes [op::checkE] throw, so that
    [configure] does not return and the module never runs. *)
Theorem resolution_strings_parse_or_abort :
  (forall (p : Params) (W H W' H' : N),
      img_resolution p = resolution_string W H ->
      net_resolution p = resolution_string W' H' ->
      (0 < Z.of_N W <= INT_MAX)%Z -> (0 < Z.of_N H <= INT_MAX)%Z ->
      (0 < Z.of_N W' <= INT_MAX)%Z -> (0 < Z.of_N H' <= INT_MAX)%Z ->
      libc.sscanf_dxd (img_resolution p) 0 0 = (2%Z, Z.of_N W, Z.of_N H)
      /\ libc.sscanf_dxd (net_resolution p) 0 0 = (2%Z, Z.of_N W', Z.of_N H')
      /\ ((0 <= heatmaps_scale_mode p <= 2)%Z ->
          exists log r,
            gflagsToOpParameters p = (log, Returns r)
            /\ outputSize_of r = (Z.of_N W, Z.of_N H)
            /\ netInputSize_of r = (Z.of_N W', Z.of_N H')))
  /\ (forall p : Params,
        malformed (img_resolution p) = true \/ malformed (net_resolution p) = true ->
        (exists what, gflagsToOpParameters p = ([], Throws what))
        /\ forall (Wrapper : Type) configure_ start (wrapper : Wrapper),
             entersRunning Wrapper configure_ start wrapper p = false).
Proof.
  split.
  - intros p W H W' H' Eimg Enet HW HH HW' HH'.
    pose proof (sscanf_dxd_resolution_string W H 0 0 HW HH) as Himg.
    pose proof (sscanf_dxd_resolution_string W' H' 0 0 HW' HH') as Hnet.
    rewrite <- Eimg in Himg. rewrite <- Enet in Hnet.
    split; [exact Himg |]. split; [exact Hnet |].
    intros Hrange. eexists _, _. split.
    + apply (gflagsToOpParameters_returns p _ _ _ _ Himg Hnet Hrange).
    + split; reflexivity.
  - intros p Hmal.
    destruct (gflagsToOpParameters_resolution_throws p) as [what Hthrows].
    { destruct Hmal as [Hmal | Hmal]; [left | right];
        apply sscanf_dxd_malformed, Hmal. }
    split; [exists what; exact Hthrows |].
    intros Wrapper c s wrapper. apply (configure_throws c s wrapper p [] what Hthrows).
Qed.

Lemma resolution_strings_witness :
  (libc.sscanf_dxd "320x240" 0 0 = (2, 320, 240)%Z
   /\ libc.sscanf_dxd "656x368" 0 0 = (2, 656, 368)%Z)
  /\ (exists what, gflagsToOpParameters (Params_resolutions "320" "656x368")
                   = ([], Throws what))
  /\ (exists what, gflagsToOpParameters (Params_resolutions "320x240" "widex368")
                   = ([], Throws what)).
Proof.
  destruct resolution_strings_parse_or_abort as [Hvalid Hmalformed].
  split; [| split].
  - destruct (Hvalid Params_default 320%N 240%N 656%N 368%N) as (Himg & Hnet & _);
      try reflexivity; try (unfold INT_MAX; lia).
    split; [exact Himg | exact Hnet].
  - apply (Hmalformed (Params_resolutions "320" "656x368")). left. reflexivity.
  - apply (Hmalformed (Params_resolutions "320x240" "widex368")). right. reflexivity.
Defined.

(** ** [ImageProcessing::work]: the message written *)

Example work_one_person_two_parts :
  match ImageProcessing.work ImageProcessing.new
          (Some [datum_of_pose {| op.mSize := [1; 2; 3];
                                  op.mData := [10; 20; 0.5; 30; 40; 0.25]%float |}]) with
  | Returns self' =>
      ImageProcessing.targetPort self'
      = [[yarp.VList
            [yarp.VList
               [yarp.VList [yarp.VString "Nose"; yarp.VDouble 10; yarp.VDouble 20;
                            yarp.VDouble 0.5];
                yarp.VList [yarp.VString "Neck"; yarp.VDouble 30; yarp.VDouble 40;
                            yarp.VDouble 0.25]]]]]
  | _ => False
  end.
Proof. vm_compute. reflexivity. Qed.

Example work_null_batch :
  ImageProcessing.work ImageProcessing.new None = Returns ImageProcessing.new.
Proof. reflexivity. Qed.

(** A [for] loop that keeps an invariant returns in a state where the
    invariant holds for the final counter. *)
Lemma for_from_invariant {S : Type} (Inv : nat -> S -> Prop)
    (body : nat -> S -> Result S) (todo i : nat) (s : S) :
  Inv i s ->
  (forall j t, i <= j < i + todo -> Inv j t ->
     exists t', body j t = Returns t' /\ Inv (Datatypes.S j) t') ->
  exists s', ImageProcessing.for_from todo i body s = Returns s' /\ Inv (i + todo) s'.
Proof.
  revert i s. induction todo as [| todo IH]; intros i s Hinv Hstep.
  - exists s. rewrite Nat.add_0_r. split; [reflexivity | exact Hinv].
  - destruct (Hstep i s ltac:(lia) Hinv) as (t & Hbody & Ht).
    destruct (IH (Datatypes.S i) t Ht) as (s' & Hloop & Hs').
    { intros j u Hj. apply Hstep. lia. }
    exists s'. cbn [ImageProcessing.for_from]. rewrite Hbody. cbn [bind].
    split; [exact Hloop |]. replace (i + Datatypes.S todo) with (Datatypes.S i + todo) by lia.
    exact Hs'.
Qed.

Lemma mapParts_init_reachable : mapParts_reachable ImageProcessing.mapParts_init.
Proof. intros key. left. reflexivity. Qed.

Lemma mapParts_init_outside (key : nat) :
  19 <= key -> ImageProcessing.mapParts_init !! key = None.
Proof.
  intros Hkey. unfold ImageProcessing.mapParts_init.
  apply not_elem_of_list_to_map_1. cbn [fmap list_fmap fst].
  intros Hin. repeat (apply elem_of_cons in Hin as [-> | Hin]; [lia |]).
  inversion Hin.
Qed.

Lemma partName_reachable (m : gmap nat string) (key : nat) :
  mapParts_reachable m -> default EmptyString (m !! key) = partName key.
Proof.
  intros Hm. unfold partName, BodyPartTable.
  destruct (Hm key) as [-> | [-> ->]]; reflexivity.
Qed.

(** [operator[]] of [mapParts] on a reachable map: the name the record
    carries, and the map afterwards, which holds the key. *)
Lemma subscript_reachable (m : gmap nat string) (key : nat) :
  mapParts_reachable m ->
  (ImageProcessing.subscript m key).1 = partName key
  /\ mapParts_reachable (ImageProcessing.subscript m key).2
  /\ m ⊆ (ImageProcessing.subscript m key).2
  /\ is_Some ((ImageProcessing.subscript m key).2 !! key).
Proof.
  intros Hm. pose proof (partName_reachable m key Hm) as Hname.
  unfold ImageProcessing.subscript. destruct (m !! key) as [name |] eqn:Hkey; cbn.
  - split; [exact Hname |]. split; [exact Hm |]. split; [reflexivity |].
    rewrite Hkey. eauto.
  - split; [exact Hname |]. split; [| split].
    + intros k. destruct (decide (key = k)) as [<- | Hne].
      * right. rewrite lookup_insert_eq. split; [| reflexivity].
        destruct (Hm key) as [E | [E _]]; congruence.
      * rewrite lookup_insert_ne by exact Hne. apply Hm.
    + apply insert_subseteq, Hkey.
    + rewrite lookup_insert_eq. eauto.
Qed.

Lemma at_in_range (pose : op.Array) (index : nat) :
  index < length (op.mData pose) ->
  op.at_ pose index = Returns (nth index (op.mData pose) 0%float).
Proof.
  intros Hlt. unfold op.at_.
  destruct (lookup_lt_is_Some_2 _ _ Hlt) as [v Hv]. rewrite Hv.
  rewrite (nth_lookup_Some _ _ _ _ Hv). reflexivity.
Qed.

Lemma element_flat (pose : op.Array) (person bodyPart coordinate : nat) :
  element pose person bodyPart coordinate
  = nth (3 * (person * op.getSize pose 1 + bodyPart) + coordinate)
      (op.mData pose) 0%float.
Proof. unfold element. f_equal. lia. Qed.

(** The [bodyPart] loop for one person: the records of that person, in
    index order, and every index of the loop now a key of [mapParts]. *)
Lemma bodyPart_loop (pose : op.Array) (person : nat) (m : gmap nat string) :
  mapParts_reachable m ->
  3 * (person * op.getSize pose 1 + op.getSize pose 1) <= length (op.mData pose) ->
  (Z.of_nat (length (op.mData pose)) <= INT_MAX)%Z ->
  exists m',
    ImageProcessing.for_range (op.getSize pose 1)
      (ImageProcessing.bodyPart_body pose person (op.getSize pose 1)) (m, [])
    = Returns (m', map record_of (Person_of pose person))
    /\ mapParts_reachable m'
    /\ m ⊆ m'
    /\ forall bodyPart, bodyPart < op.getSize pose 1 -> is_Some (m' !! bodyPart).
Proof.
  intros Hm Hlen Hint.
  set (P := op.getSize pose 1) in *.
  set (kp := fun bodyPart =>
         {| bodyPartIndex := bodyPart;
            kp_x := element pose person bodyPart 0;
            kp_y := element pose person bodyPart 1;
            kp_confidence := element pose person bodyPart 2 |}).
  destruct (for_from_invariant
              (fun j (s : gmap nat string * yarp.Bottle) =>
                 mapParts_reachable s.1 /\ m ⊆ s.1
                 /\ (forall b, b < j -> is_Some (s.1 !! b))
                 /\ s.2 = map record_of (map kp (seq 0 j)))
              (ImageProcessing.bodyPart_body pose person P) P 0 (m, []))
    as ([m' l] & Hloop & Hr & Hsub & Hsome & Hl).
  - cbn. split; [exact Hm |]. split; [reflexivity |]. split; [lia | reflexivity].
  - intros j [mj lj] Hj (Hr & Hsub & Hsome & Hl). cbn in Hr, Hsub, Hsome, Hl. subst lj.
    unfold ImageProcessing.bodyPart_body, ImageProcessing.finalIndex.
    replace (Z.of_nat (3 * (person * P + j)) + 2 <=? INT_MAX)%Z with true
      by (symmetry; apply Z.leb_le; lia).
    cbn [bind].
    destruct (subscript_reachable mj j Hr) as (Hname & Hr' & Hsub' & Hsome').
    destruct (ImageProcessing.subscript mj j) as [name mj']. cbn in Hname, Hr', Hsub', Hsome'.
    rewrite !at_in_range by lia. cbn [bind].
    eexists. split; [reflexivity |]. cbn [fst snd].
    split; [exact Hr' |]. split; [etrans; eassumption |]. split.
    + intros b Hb. destruct (decide (b = j)) as [-> | Hne]; [exact Hsome' |].
      apply (lookup_weaken_is_Some mj); [| exact Hsub']. apply Hsome. lia.
    + rewrite seq_S, !map_app. cbn [map]. f_equal. unfold record_of, kp.
      cbn [bodyPartIndex kp_x kp_y kp_confidence].
      rewrite !element_flat, Nat.add_0_r. subst name. reflexivity.
  - exists m'. cbn in Hr, Hsub, Hsome, Hl. subst l.
    split; [exact Hloop |]. split; [exact Hr |]. split; [exact Hsub | exact Hsome].
Qed.

(** The [person] loop for one pose array: one inner list per person,
    appended to [mainList] in person order. *)
Lemma person_loop (pose : op.Array) (m : gmap nat string) (mainList : yarp.Bottle) :
  mapParts_reachable m ->
  3 * (op.getSize pose 0 * op.getSize pose 1) <= length (op.mData pose) ->
  (Z.of_nat (length (op.mData pose)) <= INT_MAX)%Z ->
  exists m',
    ImageProcessing.for_range (op.getSize pose 0)
      (ImageProcessing.person_body pose (op.getSize pose 1)) (m, mainList)
    = Returns (m', mainList
                   ++ map (fun person => yarp.VList (map record_of person))
                        (Persons_of pose))
    /\ mapParts_reachable m'
    /\ m ⊆ m'
    /\ (0 < op.getSize pose 0 ->
        forall bodyPart, bodyPart < op.getSize pose 1 -> is_Some (m' !! bodyPart)).
Proof.
  intros Hm Hlen Hint.
  set (N := op.getSize pose 0) in *. set (P := op.getSize pose 1) in *.
  destruct (for_from_invariant
              (fun j (s : gmap nat string * yarp.Bottle) =>
                 mapParts_reachable s.1 /\ m ⊆ s.1
                 /\ (0 < j -> forall b, b < P -> is_Some (s.1 !! b))
                 /\ s.2 = mainList
                          ++ map (fun person => yarp.VList (map record_of person))
                               (map (Person_of pose) (seq 0 j)))
              (ImageProcessing.person_body pose P) N 0 (m, mainList))
    as ([m' l] & Hloop & Hr & Hsub & Hsome & Hl).
  - cbn [fst snd seq map]. split; [exact Hm |]. split; [reflexivity |].
    split; [lia |]. rewrite app_nil_r. reflexivity.
  - intros j [mj lj] Hj (Hr & Hsub & Hsome & Hl). cbn [fst snd] in Hr, Hsub, Hsome, Hl.
    subst lj. unfold ImageProcessing.person_body.
    destruct (bodyPart_loop pose j mj Hr) as (mj' & Hbody & Hr' & Hsub' & Hsome').
    { fold P. assert ((j + 1) * P <= N * P) by (apply Nat.mul_le_mono_r; lia). lia. }
    { exact Hint. }
    fold P in Hbody, Hsome'. rewrite Hbody. cbn [bind].
    eexists. split; [reflexivity |]. cbn [fst snd].
    split; [exact Hr' |]. split; [etrans; eassumption |]. split.
    + intros _. exact Hsome'.
    + rewrite seq_S, !map_app, app_assoc. reflexivity.
  - exists m'. cbn [fst snd] in Hr, Hsub, Hsome, Hl. subst l.
    split; [exact Hloop |]. split; [exact Hr |]. split; [exact Hsub |].
    rewrite Nat.add_0_l in Hsome. exact Hsome.
Qed.

Lemma pose_well_formed_bounds (pose : op.Array) :
  pose_well_formed pose ->
  (negb (op.empty pose) && negb (Nat.eqb (op.getNumberDimensions pose) 3)) = false
  /\ 3 * (op.getSize pose 0 * op.getSize pose 1) <= length (op.mData pose)
  /\ (Z.of_nat (length (op.mData pose)) <= INT_MAX)%Z.
Proof.
  unfold op.empty, op.getVolume, op.getNumberDimensions, op.getSize.
  intros [[-> ->] | (n & P & -> & Hlen & Hint)].
  - cbn. split; [reflexivity |]. split; [lia |]. unfold INT_MAX. lia.
  - cbn [length nth Nat.eqb]. split; [apply andb_false_r |].
    rewrite Hlen. split; [lia | exact Hint].
Qed.

(** The body of the loop over the datums, for a well-formed pose array. *)
Lemma datum_body_well_formed (datum : op.Datum) (m : gmap nat string)
    (mainList : yarp.Bottle) :
  mapParts_reachable m ->
  pose_well_formed (op.poseKeyPoints datum) ->
  exists m',
    ImageProcessing.datum_body datum (m, mainList)
    = Returns (m', mainList
                   ++ map (fun person => yarp.VList (map record_of person))
                        (Persons_of (op.poseKeyPoints datum)))
    /\ mapParts_reachable m'
    /\ m ⊆ m'
    /\ (0 < op.getSize (op.poseKeyPoints datum) 0 ->
        forall bodyPart, bodyPart < op.getSize (op.poseKeyPoints datum) 1 ->
                         is_Some (m' !! bodyPart)).
Proof.
  intros Hm Hwf. destruct (pose_well_formed_bounds _ Hwf) as (Hcheck & Hlen & Hint).
  unfold ImageProcessing.datum_body. rewrite Hcheck.
  apply person_loop; assumption.
Qed.

(** The loop over the datums of a batch of well-formed pose arrays. *)
Lemma datums_loop_well_formed (datums : list op.Datum) (m : gmap nat string)
    (mainList : yarp.Bottle) :
  mapParts_reachable m ->
  Forall (fun datum => pose_well_formed (op.poseKeyPoints datum)) datums ->
  exists m',
    ImageProcessing.datums_loop datums (m, mainList)
    = Returns (m', mainList
                   ++ map (fun person => yarp.VList (map record_of person))
                        (DetectionBatch datums))
    /\ mapParts_reachable m'
    /\ m ⊆ m'
    /\ Forall (fun datum =>
                 0 < op.getSize (op.poseKeyPoints datum) 0 ->
                 forall bodyPart, bodyPart < op.getSize (op.poseKeyPoints datum) 1 ->
                                  is_Some (m' !! bodyPart)) datums.
Proof.
  intros Hm Hwf. revert m mainList Hm.
  induction Hwf as [| datum rest Hdatum _ IH]; intros m mainList Hm.
  - exists m. cbn [ImageProcessing.datums_loop DetectionBatch flat_map map].
    rewrite app_nil_r. split; [reflexivity |]. split; [exact Hm |].
    split; [reflexivity | constructor].
  - destruct (datum_body_well_formed datum m mainList Hm Hdatum)
      as (m1 & Hbody & Hr1 & Hsub1 & Hsome1).
    destruct (IH m1 (mainList
                     ++ map (fun person => yarp.VList (map record_of person))
                          (Persons_of (op.poseKeyPoints datum))) Hr1)
      as (m' & Hloop & Hr' & Hsub' & Hsome').
    exists m'. cbn [ImageProcessing.datums_loop]. rewrite Hbody. cbn [bind].
    rewrite Hloop. split.
    { cbn [DetectionBatch flat_map]. rewrite map_app, app_assoc. reflexivity. }
    split; [exact Hr' |]. split; [etrans; eassumption |].
    constructor; [| exact Hsome'].
    intros Hpos b Hb. apply (lookup_weaken_is_Some m1); [| exact Hsub'].
    apply Hsome1; assumption.
Qed.

(** [work] on a non-empty batch of well-formed pose arrays: it returns,
    having written the message of the batch. *)
Lemma work_well_formed (self : ImageProcessing.t) (datums : list op.Datum) :
  datums <> [] ->
  mapParts_reachable (ImageProcessing.mapParts self) ->
  Forall (fun datum => pose_well_formed (op.poseKeyPoints datum)) datums ->
  exists self',
    ImageProcessing.work self (Some datums) = Returns self'
    /\ ImageProcessing.targetPort self'
       = ImageProcessing.targetPort self ++ [message_of (DetectionBatch datums)]
    /\ mapParts_reachable (ImageProcessing.mapParts self')
    /\ Forall (fun datum =>
                 0 < op.getSize (op.poseKeyPoints datum) 0 ->
                 forall bodyPart, bodyPart < op.getSize (op.poseKeyPoints datum) 1 ->
                                  is_Some (ImageProcessing.mapParts self' !! bodyPart))
              datums.
Proof.
  intros Hne Hm Hwf.
  destruct (datums_loop_well_formed datums _ [] Hm Hwf) as (m' & Hloop & Hr & _ & Hsome).
  destruct datums as [| datum rest]; [contradiction |].
  unfold ImageProcessing.work. rewrite Hloop. cbn [bind app length Nat.eqb negb].
  eexists. split; [reflexivity |]. cbn [ImageProcessing.targetPort ImageProcessing.mapParts].
  split; [reflexivity |]. split; [exact Hr | exact Hsome].
Qed.

(** ** The shape of the message *)

Lemma lookup_map {A B : Type} (f : A -> B) (l : list A) (i : nat) :
  map f l !! i = f <$> (l !! i).
Proof. apply (list_lookup_fmap f l i). Qed.

Lemma Persons_of_length (pose : op.Array) :
  length (Persons_of pose) = op.getSize pose 0.
Proof. unfold Persons_of. rewrite length_map, length_seq. reflexivity. Qed.

Lemma DetectionBatch_length (datums : list op.Datum) :
  length (DetectionBatch datums) = numberOfPersons datums.
Proof.
  induction datums as [| datum rest IH]; [reflexivity |].
  cbn [DetectionBatch flat_map numberOfPersons map sum_list].
  rewrite length_app, Persons_of_length. f_equal. exact IH.
Qed.

Lemma Person_of_indices (pose : op.Array) (person : nat) :
  map bodyPartIndex (Person_of pose person) = seq 0 (op.getSize pose 1).
Proof. unfold Person_of. rewrite map_map. cbn [bodyPartIndex]. apply map_id. Qed.

(** In a batch whose persons have [parts] body parts each, the key points
    of every person carry the indices 0, 1, ..., [parts - 1] in this
    order. *)
Lemma DetectionBatch_indices (parts : nat) (datums : list op.Datum) :
  Forall (fun datum =>
            0 < op.getSize (op.poseKeyPoints datum) 0 ->
            op.getSize (op.poseKeyPoints datum) 1 = parts) datums ->
  Forall (fun person => map bodyPartIndex person = seq 0 parts) (DetectionBatch datums).
Proof.
  induction 1 as [| datum rest Hdatum _ IH]; [constructor |].
  cbn [DetectionBatch flat_map]. apply Forall_app. split; [| exact IH].
  unfold Persons_of. apply List.Forall_map, List.Forall_forall.
  intros person Hin%in_seq. rewrite Person_of_indices, Hdatum by lia. reflexivity.
Qed.

Lemma BodyPartTable_inside (index : nat) :
  index < 19 -> is_Some (BodyPartTable index).
Proof.
  intros Hlt. unfold BodyPartTable.
  do 19 (destruct index as [| index]; [eexists; reflexivity |]). lia.
Qed.

(** The records of a person whose key points carry the indices 0 to
    [parts - 1]: as many as the key points, each of four fields, the
    record at [index] being the one of the key point of that index. *)
Lemma records_of_person (parts : nat) (person : Person) (index : nat) :
  map bodyPartIndex person = seq 0 parts ->
  index < parts ->
  length (map record_of person) = parts
  /\ exists k,
       person !! index = Some k
       /\ bodyPartIndex k = index
       /\ map record_of person !! index
          = Some (yarp.VList [yarp.VString (partName index); yarp.VDouble (kp_x k);
                              yarp.VDouble (kp_y k); yarp.VDouble (kp_confidence k)]).
Proof.
  intros Hidx Hlt.
  assert (Hlen : length person = parts).
  { rewrite <- (length_map bodyPartIndex), Hidx. apply length_seq. }
  split; [rewrite length_map; exact Hlen |].
  destruct (lookup_lt_is_Some_2 person index ltac:(lia)) as [k Hk].
  assert (Hk' : bodyPartIndex k = index).
  { pose proof (lookup_map bodyPartIndex person index) as E.
    rewrite Hidx, Hk, lookup_seq_lt in E by exact Hlt. cbn in E. congruence. }
  exists k. split; [exact Hk |]. split; [exact Hk' |].
  rewrite lookup_map, Hk. cbn [fmap option_fmap option_map].
  unfold record_of. rewrite Hk'. reflexivity.
Qed.

(** C2: for a non-empty batch of well-formed pose arrays whose persons
    have 19 body parts each, [work] returns having written one bottle,
    whose single element is a list of exactly as many inner lists as the
    batch has persons; the inner list at position [p] belongs to the
    [p]-th person in the order of the engine, and holds exactly 19
    records; the record at position [index] is made of the name of
    [BodyPartTable] at [index] and of the x, y and confidence of the key
    point of that index. *)
Theorem work_emits_persons_and_parts
    (self : ImageProcessing.t) (datums : list op.Datum) :
  datums <> [] ->
  mapParts_reachable (ImageProcessing.mapParts self) ->
  Forall (fun datum =>
            pose_well_formed (op.poseKeyPoints datum)
            /\ (0 < op.getSize (op.poseKeyPoints datum) 0 ->
                op.getSize (op.poseKeyPoints datum) 1 = 19)) datums ->
  exists (self' : ImageProcessing.t) (inner : yarp.Bottle),
    ImageProcessing.work self (Some datums) = Returns self'
    /\ ImageProcessing.targetPort self'
       = ImageProcessing.targetPort self ++ [[yarp.VList inner]]
    /\ length inner = numberOfPersons datums
    /\ (forall p : nat, p < numberOfPersons datums ->
        exists (person : Person) (records : yarp.Bottle),
          DetectionBatch datums !! p = Some person
          /\ inner !! p = Some (yarp.VList records)
          /\ length records = 19
          /\ forall index : nat, index < 19 ->
             exists (k : KeyPoint) (name : string),
               person !! index = Some k
               /\ bodyPartIndex k = index
               /\ BodyPartTable index = Some name
               /\ records !! index
                  = Some (yarp.VList [yarp.VString name; yarp.VDouble (kp_x k);
                                      yarp.VDouble (kp_y k);
                                      yarp.VDouble (kp_confidence k)]))
    /\ mapParts_reachable (ImageProcessing.mapParts self').
Proof.
  intros Hne Hm Hbatch.
  apply Forall_and in Hbatch as [Hwf Hparts].
  destruct (work_well_formed self datums Hne Hm Hwf) as (self' & Hwork & Hport & Hr & _).
  pose proof (DetectionBatch_length datums) as Hlen.
  pose proof (DetectionBatch_indices 19 datums Hparts) as Hidx.
  exists self', (map (fun person => yarp.VList (map record_of person))
                   (DetectionBatch datums)).
  split; [exact Hwork |]. split; [exact Hport |].
  split; [rewrite length_map; exact Hlen |]. split; [| exact Hr].
  intros p Hp.
  destruct (lookup_lt_is_Some_2 (DetectionBatch datums) p ltac:(lia)) as [person Hperson].
  exists person, (map record_of person).
  split; [exact Hperson |]. split; [rewrite lookup_map, Hperson; reflexivity |].
  assert (Hperson_idx : map bodyPartIndex person = seq 0 19).
  { rewrite Forall_lookup in Hidx. exact (Hidx p person Hperson). }
  split; [exact (proj1 (records_of_person 19 person 0 Hperson_idx ltac:(lia))) |].
  intros index Hindex.
  destruct (records_of_person 19 person index Hperson_idx Hindex)
    as (_ & k & Hk & Hki & Hrecord).
  destruct (BodyPartTable_inside index Hindex) as [name Hname].
  exists k, name. split; [exact Hk |]. split; [exact Hki |]. split; [exact Hname |].
  rewrite Hrecord. unfold partName. rewrite Hname. reflexivity.
Qed.

Lemma work_emits_persons_and_parts_witness :
  exists (self' : ImageProcessing.t) (inner : yarp.Bottle),
    ImageProcessing.work ImageProcessing.new (Some [datum_of_pose pose_19_parts])
    = Returns self'
    /\ ImageProcessing.targetPort self' = [[yarp.VList inner]]
    /\ length inner = 1.
Proof.
  destruct (work_emits_persons_and_parts ImageProcessing.new
              [datum_of_pose pose_19_parts])
    as (self' & inner & Hwork & Hport & Hlen & _).
  - discriminate.
  - exact mapParts_init_reachable.
  - constructor; [| constructor]. split.
    + right. exists 1, 19. split; [reflexivity |]. split; [reflexivity |].
      unfold INT_MAX. cbn. lia.
    + intros _. reflexivity.
  - exists self', inner. split; [exact Hwork |]. split; [exact Hport | exact Hlen].
Defined.

(** ** Body parts outside the table *)

(** Every key point of a batch comes from a datum that has a person, and
    its index is below the number of body parts of that datum. *)
Lemma keypoint_origin (datums : list op.Datum) (person : Person) (k : KeyPoint) :
  In person (DetectionBatch datums) -> In k person ->
  exists datum,
    In datum datums
    /\ 0 < op.getSize (op.poseKeyPoints datum) 0
    /\ bodyPartIndex k < op.getSize (op.poseKeyPoints datum) 1.
Proof.
  unfold DetectionBatch. intros (datum & Hdatum & Hperson)%in_flat_map Hk.
  unfold Persons_of in Hperson. apply in_map_iff in Hperson as (p & <- & Hp%in_seq).
  unfold Person_of in Hk. apply in_map_iff in Hk as (b & <- & Hb%in_seq).
  exists datum. cbn [bodyPartIndex]. split; [exact Hdatum |]. lia.
Qed.

(** C10: for a non-empty batch of well-formed pose arrays, whatever the
    number of body parts, [work] returns having written the message of
    the batch, which holds a record for every key point of every person;
    for a key point whose index is outside the table (19 or more), the
    record carries the empty string as its name, and [mapParts] holds
    the index afterwards, mapped to the empty string. *)
Theorem work_part_outside_table
    (self : ImageProcessing.t) (datums : list op.Datum) :
  datums <> [] ->
  mapParts_reachable (ImageProcessing.mapParts self) ->
  Forall (fun datum => pose_well_formed (op.poseKeyPoints datum)) datums ->
  exists self' : ImageProcessing.t,
    ImageProcessing.work self (Some datums) = Returns self'
    /\ ImageProcessing.targetPort self'
       = ImageProcessing.targetPort self
         ++ [[yarp.VList (map (fun person => yarp.VList (map record_of person))
                            (DetectionBatch datums))]]
    /\ (forall (person : Person) (k : KeyPoint),
          In person (DetectionBatch datums) -> In k person ->
          19 <= bodyPartIndex k ->
          BodyPartTable (bodyPartIndex k) = None
          /\ record_of k
             = yarp.VList [yarp.VString EmptyString; yarp.VDouble (kp_x k);
                           yarp.VDouble (kp_y k); yarp.VDouble (kp_confidence k)]
          /\ ImageProcessing.mapParts self' !! bodyPartIndex k = Some EmptyString)
    /\ mapParts_reachable (ImageProcessing.mapParts self').
Proof.
  intros Hne Hm Hwf.
  destruct (work_well_formed self datums Hne Hm Hwf)
    as (self' & Hwork & Hport & Hr & Hsome).
  exists self'. split; [exact Hwork |]. split; [exact Hport |]. split; [| exact Hr].
  intros person k Hperson Hk Hout.
  pose proof (mapParts_init_outside _ Hout) as Hnone.
  split; [exact Hnone |]. split.
  - unfold record_of, partName, BodyPartTable. rewrite Hnone. reflexivity.
  - destruct (keypoint_origin datums person k Hperson Hk) as (datum & Hdatum & Hpos & Hlt).
    rewrite List.Forall_forall in Hsome.
    destruct (Hsome datum Hdatum Hpos _ Hlt) as [name Hname].
    destruct (Hr (bodyPartIndex k)) as [E | [_ E]]; [congruence | exact E].
Qed.

Lemma work_part_outside_table_witness :
  exists self' : ImageProcessing.t,
    ImageProcessing.work ImageProcessing.new (Some [datum_of_pose pose_20_parts])
    = Returns self'
    /\ record_of {| bodyPartIndex := 19; kp_x := 1; kp_y := 1; kp_confidence := 1 |}
       = yarp.VList [yarp.VString EmptyString; yarp.VDouble 1; yarp.VDouble 1;
                     yarp.VDouble 1]
    /\ ImageProcessing.mapParts self' !! 19 = Some EmptyString.
Proof.
  destruct (work_part_outside_table ImageProcessing.new [datum_of_pose pose_20_parts])
    as (self' & Hwork & _ & Hout & _).
  - discriminate.
  - exact mapParts_init_reachable.
  - constructor; [| constructor].
    right. exists 1, 20. split; [reflexivity |]. split; [reflexivity |].
    unfold INT_MAX. cbn. lia.
  - exists self'. split; [exact Hwork |].
    destruct (Hout (Person_of pose_20_parts 0)
                {| bodyPartIndex := 19; kp_x := 1; kp_y := 1; kp_confidence := 1 |})
      as (_ & Hrecord & Hmap).
    + left. reflexivity.
    + do 19 right. left. reflexivity.
    + cbn. lia.
    + split; [exact Hrecord | exact Hmap].
Defined.

(** * Further properties of the code *)

(** ** [ImageInput::workProducer] over a stream of frames *)

Lemma workProducer_frame (frames : nat -> yarp.Image) (reads : nat) :
  op.Mat_empty (ImageInput.cvarrToMat (frames reads)) = false ->
  ImageInput.workProducer frames
    {| ImageInput.inPort_reads := reads; ImageInput.mClosed := false |}
  = (Some [datum_of_frame (frames reads)],
     {| ImageInput.inPort_reads := S reads; ImageInput.mClosed := false |}, []).
Proof.
  intros H. unfold ImageInput.workProducer.
  cbn [ImageInput.mClosed ImageInput.inPort_reads op.cvInputData].
  rewrite H. reflexivity.
Qed.

Lemma workProducer_empty_frame (frames : nat -> yarp.Image) (reads : nat) :
  op.Mat_empty (ImageInput.cvarrToMat (frames reads)) = true ->
  ImageInput.workProducer frames
    {| ImageInput.inPort_reads := reads; ImageInput.mClosed := false |}
  = (None,
     {| ImageInput.inPort_reads := S reads; ImageInput.mClosed := true |},
     [OpLog "Empty frame detected. Closing program."]).
Proof.
  intros H. unfold ImageInput.workProducer.
  cbn [ImageInput.mClosed ImageInput.inPort_reads op.cvInputData].
  rewrite H. reflexivity.
Qed.

(** X1: when the first empty frame of the stream is the one read by call
    [k] (counting from 0), [n] calls on an open source return, in call
    order, one datum per frame for the calls before [k], each carrying
    the frame it read, and [nullptr] from call [k] on; the port is read
    once per call up to and including call [k] and never after, and the
    source is closed exactly when call [k] has been made. *)
Theorem workProducer_n_stream (frames : nat -> yarp.Image) (k n reads : nat) :
  (forall i, i < k ->
     op.Mat_empty (ImageInput.cvarrToMat (frames (reads + i))) = false) ->
  op.Mat_empty (ImageInput.cvarrToMat (frames (reads + k))) = true ->
  ImageInput.workProducer_n frames n
    {| ImageInput.inPort_reads := reads; ImageInput.mClosed := false |}
  = (map (fun i => if Nat.ltb i k then Some [datum_of_frame (frames (reads + i))]
                   else None) (seq 0 n),
     {| ImageInput.inPort_reads := reads + Nat.min n (S k);
        ImageInput.mClosed := Nat.ltb k n |}).
Proof.
  revert k reads. induction n as [| n IH]; intros k reads Hfull Hempty.
  - cbn. rewrite Nat.add_0_r. reflexivity.
  - cbn [ImageInput.workProducer_n]. destruct k as [| k].
    + rewrite Nat.add_0_r in Hempty.
      rewrite (workProducer_empty_frame frames reads Hempty).
      rewrite workProducer_n_closed by reflexivity.
      cbn [seq map Nat.ltb Nat.leb]. f_equal.
      * f_equal. clear. generalize 1. induction n as [| n IHn]; intros a; [reflexivity |].
        cbn [repeat seq map]. rewrite <- IHn. reflexivity.
      * replace (reads + Nat.min (S n) 1) with (S reads) by lia.
        destruct n; reflexivity.
    + pose proof (Hfull 0 ltac:(lia)) as H0. rewrite Nat.add_0_r in H0.
      rewrite (workProducer_frame frames reads H0).
      rewrite (IH k (S reads)).
      * cbn [seq map]. rewrite Nat.add_0_r. f_equal.
        -- change (Nat.ltb 0 (S k)) with true. cbn iota. f_equal.
           rewrite <- seq_shift, map_map. apply map_ext. intros i.
           change (Nat.ltb (S i) (S k)) with (Nat.ltb i k).
           replace (S reads + i) with (reads + S i) by lia. reflexivity.
        -- f_equal. lia.
      * intros i Hi. replace (S reads + i) with (reads + S i) by lia.
        apply Hfull. lia.
      * replace (S reads + k) with (reads + S k) by lia. exact Hempty.
Qed.

Lemma workProducer_n_stream_witness :
  ImageInput.workProducer_n
    (fun k : nat => if Nat.ltb k 2 then one_pixel
                    else {| yarp.width := 0; yarp.height := 0; yarp.bytes := [] |})
    4 ImageInput.new
  = ([Some [datum_of_frame one_pixel]; Some [datum_of_frame one_pixel]; None; None],
     {| ImageInput.inPort_reads := 3; ImageInput.mClosed := true |}).
Proof.
  apply (workProducer_n_stream
           (fun k : nat => if Nat.ltb k 2 then one_pixel
                           else {| yarp.width := 0; yarp.height := 0; yarp.bytes := [] |})
           2 4 0).
  - intros i Hi. destruct i as [| [| i]]; [reflexivity | reflexivity | lia].
  - reflexivity.
Defined.

(** ** [ImageProcessing::work] on arbitrary batches *)

(** What holds before a [for] loop and is kept by every iteration that
    returns holds after a loop that returns. *)
Lemma for_from_returns {S : Type} (Inv : nat -> S -> Prop)
    (body : nat -> S -> Result S) (todo i : nat) (s s' : S) :
  ImageProcessing.for_from todo i body s = Returns s' ->
  Inv i s ->
  (forall j t t', i <= j < i + todo -> Inv j t -> body j t = Returns t' ->
                  Inv (Datatypes.S j) t') ->
  Inv (i + todo) s'.
Proof.
  revert i s. induction todo as [| todo IH]; intros i s Hloop Hinv Hstep.
  - cbn in Hloop. injection Hloop as <-. rewrite Nat.add_0_r. exact Hinv.
  - cbn [ImageProcessing.for_from] in Hloop.
    destruct (body i s) as [t | |] eqn:Hbody; cbn [bind] in Hloop; try discriminate.
    replace (i + Datatypes.S todo) with (Datatypes.S i + todo) by lia.
    apply (IH (Datatypes.S i) t Hloop).
    + apply (Hstep i s t); [lia | exact Hinv | exact Hbody].
    + intros j u u' Hj. apply Hstep. lia.
Qed.

Lemma mapParts_grown_refl (m : gmap nat string) : mapParts_grown m m.
Proof. split; [reflexivity | auto]. Qed.

Lemma mapParts_grown_trans (m1 m2 m3 : gmap nat string) :
  mapParts_grown m1 m2 -> mapParts_grown m2 m3 -> mapParts_grown m1 m3.
Proof.
  intros [Hsub12 Hnew12] [Hsub23 Hnew23]. split; [etrans; eassumption |].
  intros key name H3. destruct (Hnew23 key name H3) as [H2 | ->]; [| right; reflexivity].
  apply Hnew12, H2.
Qed.

Lemma subscript_grown (m : gmap nat string) (key : nat) :
  mapParts_grown m (ImageProcessing.subscript m key).2.
Proof.
  unfold ImageProcessing.subscript. destruct (m !! key) eqn:Hkey; cbn [snd].
  - apply mapParts_grown_refl.
  - split; [apply insert_subseteq, Hkey |].
    intros k name. destruct (decide (key = k)) as [<- | Hne].
    + rewrite lookup_insert_eq. intros [= <-]. right. reflexivity.
    + rewrite lookup_insert_ne by exact Hne. auto.
Qed.

Lemma at_returns (pose : op.Array) (index : nat) (v : float) :
  op.at_ pose index = Returns v -> index < length (op.mData pose).
Proof.
  unfold op.at_. destruct (op.mData pose !! index) eqn:H; [| discriminate].
  intros _. apply lookup_lt_Some in H. exact H.
Qed.

(** An iteration of the [bodyPart] loop that returns has appended one
    record of four fields, has only added empty names to [mapParts], and
    has read inside the array. *)
Lemma bodyPart_body_returns (pose : op.Array) (person numberBodyParts bodyPart : nat)
    (m m' : gmap nat string) (l l' : yarp.Bottle) :
  ImageProcessing.bodyPart_body pose person numberBodyParts bodyPart (m, l)
    = Returns (m', l') ->
  mapParts_grown m m'
  /\ (exists v, l' = l ++ [v] /\ four_fields v)
  /\ 3 * (person * numberBodyParts + bodyPart) + 2 < length (op.mData pose)
  /\ (Z.of_nat (3 * (person * numberBodyParts + bodyPart)) + 2 <= INT_MAX)%Z.
Proof.
  unfold ImageProcessing.bodyPart_body, ImageProcessing.finalIndex.
  destruct (Z.leb_spec (Z.of_nat (3 * (person * numberBodyParts + bodyPart)) + 2) INT_MAX)
    as [Hint | _]; cbn [bind]; [| discriminate].
  pose proof (subscript_grown m bodyPart) as Hsub.
  destruct (ImageProcessing.subscript m bodyPart) as [name m1]. cbn [snd] in Hsub.
  destruct (op.at_ pose (3 * (person * numberBodyParts + bodyPart))) as [x | |];
    cbn [bind]; try discriminate.
  destruct (op.at_ pose (3 * (person * numberBodyParts + bodyPart) + 1)) as [y | |];
    cbn [bind]; try discriminate.
  destruct (op.at_ pose (3 * (person * numberBodyParts + bodyPart) + 2)) as [c | |] eqn:Hc;
    cbn [bind]; try discriminate.
  intros [= <- <-]. split; [exact Hsub |]. split.
  - eexists. split; [reflexivity |]. exists name, x, y, c. reflexivity.
  - split; [exact (at_returns _ _ _ Hc) | exact Hint].
Qed.

(** A [person] iteration that returns has appended one inner list of
    [numberBodyParts] records, and with at least one part its reads
    ended inside the array. *)
Lemma person_body_returns (pose : op.Array) (numberBodyParts person : nat)
    (m m' : gmap nat string) (l l' : yarp.Bottle) :
  ImageProcessing.person_body pose numberBodyParts person (m, l) = Returns (m', l') ->
  mapParts_grown m m'
  /\ (exists v, l' = l ++ [v] /\ inner_list numberBodyParts v)
  /\ (0 < numberBodyParts ->
      3 * (person * numberBodyParts + numberBodyParts) <= length (op.mData pose)
      /\ (Z.of_nat (3 * (person * numberBodyParts + numberBodyParts)) - 1 <= INT_MAX)%Z).
Proof.
  unfold ImageProcessing.person_body, ImageProcessing.for_range.
  destruct (ImageProcessing.for_from numberBodyParts 0
              (ImageProcessing.bodyPart_body pose person numberBodyParts) (m, []))
    as [[m1 records] | |] eqn:Hloop; cbn [bind]; try discriminate.
  intros [= <- <-].
  pose proof (for_from_returns
                (fun j (s : gmap nat string * yarp.Bottle) =>
                   mapParts_grown m s.1 /\ length s.2 = j /\ Forall four_fields s.2
                   /\ (0 < j ->
                       3 * (person * numberBodyParts + j) <= length (op.mData pose)
                       /\ (Z.of_nat (3 * (person * numberBodyParts + j)) - 1
                           <= INT_MAX)%Z))
                _ _ _ _ _ Hloop) as Hinv.
  cbn [fst snd] in Hinv. destruct Hinv as (Hsub & Hlen & Hfour & Hread).
  - split; [apply mapParts_grown_refl |]. split; [reflexivity |].
    split; [constructor | lia].
  - intros j [mj lj] [mj' lj'] Hj (Hsub & Hlen & Hfour & _) Hbody. cbn [fst snd] in *.
    destruct (bodyPart_body_returns _ _ _ _ _ _ _ _ Hbody)
      as (Hsub' & (v & -> & Hv) & Hin & Hint).
    split; [eapply mapParts_grown_trans; eassumption |].
    split; [rewrite length_app; cbn; lia |].
    split; [apply Forall_app; split; [exact Hfour | constructor; [exact Hv | constructor]] |].
    intros _. lia.
  - split; [exact Hsub |]. split.
    + eexists. split; [reflexivity |]. exists records.
      split; [reflexivity |]. split; [exact Hlen | exact Hfour].
    + exact Hread.
Qed.

(** The loop body for a datum, when it returns. *)
Lemma datum_body_returns (datum : op.Datum) (m m' : gmap nat string)
    (l l' : yarp.Bottle) :
  ImageProcessing.datum_body datum (m, l) = Returns (m', l') ->
  mapParts_grown m m'
  /\ (exists group, l' = l ++ group /\ datum_group datum group)
  /\ dimensions_accepted datum
  /\ reads_inside datum.
Proof.
  unfold ImageProcessing.datum_body, ImageProcessing.for_range, datum_group,
    dimensions_accepted, reads_inside.
  set (pose := op.poseKeyPoints datum).
  set (N := op.getSize pose 0). set (P := op.getSize pose 1).
  destruct (negb (op.empty pose) && negb (Nat.eqb (op.getNumberDimensions pose) 3))
    eqn:Hcheck; [discriminate |].
  intros Hloop.
  pose proof (for_from_returns
                (fun j (s : gmap nat string * yarp.Bottle) =>
                   mapParts_grown m s.1
                   /\ (exists group, s.2 = l ++ group /\ length group = j
                                     /\ Forall (inner_list P) group)
                   /\ (0 < j -> 0 < P ->
                       3 * (j * P) <= length (op.mData pose)
                       /\ (Z.of_nat (3 * (j * P)) - 1 <= INT_MAX)%Z))
                _ _ _ _ _ Hloop) as Hinv.
  cbn [fst snd] in Hinv. destruct Hinv as (Hsub & (group & -> & Hlen & Hgroup) & Hread).
  - split; [apply mapParts_grown_refl |]. split; [| lia].
    exists []. rewrite app_nil_r. split; [reflexivity |]. split; [reflexivity | constructor].
  - intros j [mj lj] [mj' lj'] Hj Hinv Hbody. cbn [fst snd] in *.
    destruct Hinv as (Hsub & (group & -> & Hlen & Hgroup) & _).
    destruct (person_body_returns _ _ _ _ _ _ _ Hbody) as (Hsub' & (v & -> & Hv) & Hin).
    split; [eapply mapParts_grown_trans; eassumption |]. split.
    + exists (group ++ [v]). rewrite app_assoc. split; [reflexivity |].
      split; [rewrite length_app; cbn; lia |].
      apply Forall_app. split; [exact Hgroup | constructor; [exact Hv | constructor]].
    + intros _ HP. specialize (Hin HP). lia.
  - split; [exact Hsub |]. split; [exists group; split; [reflexivity | split; assumption] |].
    split; [| exact Hread].
    apply andb_false_iff in Hcheck as [H | H]; apply negb_false_iff in H.
    + left. exact H.
    + right. apply Nat.eqb_eq, H.
Qed.

(** The loop over the datums, when it returns. *)
Lemma datums_loop_returns (datums : list op.Datum) (m m' : gmap nat string)
    (l l' : yarp.Bottle) :
  ImageProcessing.datums_loop datums (m, l) = Returns (m', l') ->
  mapParts_grown m m'
  /\ (exists groups, l' = l ++ concat groups /\ Forall2 datum_group datums groups)
  /\ Forall (fun datum => dimensions_accepted datum /\ reads_inside datum) datums.
Proof.
  revert m l. induction datums as [| datum rest IH]; intros m l.
  - cbn. intros [= <- <-]. split; [apply mapParts_grown_refl |]. split; [| constructor].
    exists []. cbn. rewrite app_nil_r. split; [reflexivity | constructor].
  - cbn [ImageProcessing.datums_loop].
    destruct (ImageProcessing.datum_body datum (m, l)) as [[m1 l1] | |] eqn:Hbody;
      cbn [bind]; try discriminate.
    intros Hloop.
    destruct (datum_body_returns _ _ _ _ _ Hbody)
      as (Hsub1 & (group & -> & Hgroup) & Hdims & Hread).
    destruct (IH _ _ Hloop) as (Hsub & (groups & -> & Hgroups) & Hrest).
    split; [eapply mapParts_grown_trans; eassumption |]. split.
    + exists (group :: groups). cbn [concat]. rewrite app_assoc.
      split; [reflexivity | constructor; assumption].
    + constructor; [split; assumption | exact Hrest].
Qed.

Lemma datum_groups_length (datums : list op.Datum) (groups : list yarp.Bottle) :
  Forall2 datum_group datums groups ->
  length (concat groups) = numberOfPersons datums.
Proof.
  induction 1 as [| datum group rest groups [Hlen _] _ IH]; [reflexivity |].
  cbn [concat numberOfPersons map sum_list]. rewrite length_app, Hlen. f_equal. exact IH.
Qed.

(** X2: whenever [work] returns on a vector that holds at least one
    datum, it has written exactly one bottle, whose single element is the
    concatenation, in datum order, of one group per datum: as many inner
    lists as the datum has persons, each of as many four-field records
    as the datum has body parts. The number of inner lists is the number
    of persons of the batch. *)
Theorem work_returns_one_message
    (self self' : ImageProcessing.t) (datums : list op.Datum) :
  datums <> [] ->
  ImageProcessing.work self (Some datums) = Returns self' ->
  exists groups : list yarp.Bottle,
    ImageProcessing.targetPort self'
    = ImageProcessing.targetPort self ++ [[yarp.VList (concat groups)]]
    /\ Forall2 datum_group datums groups
    /\ length (concat groups) = numberOfPersons datums.
Proof.
  intros Hne. destruct datums as [| datum rest]; [contradiction |].
  unfold ImageProcessing.work.
  destruct (ImageProcessing.datums_loop (datum :: rest) (ImageProcessing.mapParts self, []))
    as [[m' mainList] | |] eqn:Hloop; cbn [bind]; try discriminate.
  cbn [app length Nat.eqb negb]. intros [= <-]. cbn [ImageProcessing.targetPort].
  destruct (datums_loop_returns _ _ _ _ _ Hloop) as (_ & (groups & -> & Hgroups) & _).
  exists groups. split; [reflexivity |]. split; [exact Hgroups |].
  apply datum_groups_length, Hgroups.
Qed.

Lemma work_returns_one_message_witness :
  exists groups : list yarp.Bottle,
    [[yarp.VList
        [yarp.VList
           [yarp.VList [yarp.VString "Nose"; yarp.VDouble 10; yarp.VDouble 20;
                        yarp.VDouble 0.5];
            yarp.VList [yarp.VString "Neck"; yarp.VDouble 30; yarp.VDouble 40;
                        yarp.VDouble 0.25]]]]]
    = [] ++ [[yarp.VList (concat groups)]]
    /\ Forall2 datum_group [datum_of_pose pose_2_parts] groups
    /\ length (concat groups) = numberOfPersons [datum_of_pose pose_2_parts].
Proof.
  apply (work_returns_one_message ImageProcessing.new
           {| ImageProcessing.mapParts := ImageProcessing.mapParts_init;
              ImageProcessing.targetPort :=
                [[yarp.VList
                    [yarp.VList
                       [yarp.VList [yarp.VString "Nose"; yarp.VDouble 10;
                                    yarp.VDouble 20; yarp.VDouble 0.5];
                        yarp.VList [yarp.VString "Neck"; yarp.VDouble 30;
                                    yarp.VDouble 40; yarp.VDouble 0.25]]]]] |}
           [datum_of_pose pose_2_parts]).
  - discriminate.
  - reflexivity.
Defined.

(** X4: whatever the pointer it is given, a call of [work] that returns
    has kept every entry [mapParts] had, has added only keys mapped to
    the empty string, has left the messages written before as they were
    and has written at most one more. *)
Theorem work_returns_keeps_history
    (self self' : ImageProcessing.t) (datumsPtr : DatumsPtr) :
  ImageProcessing.work self datumsPtr = Returns self' ->
  mapParts_grown (ImageProcessing.mapParts self) (ImageProcessing.mapParts self')
  /\ exists written : list yarp.Bottle,
       ImageProcessing.targetPort self' = ImageProcessing.targetPort self ++ written
       /\ length written <= 1.
Proof.
  destruct datumsPtr as [[| datum rest] |]; cbn [ImageProcessing.work].
  - intros [= <-]. split; [apply mapParts_grown_refl |].
    exists []. rewrite app_nil_r. split; [reflexivity | cbn; lia].
  - destruct (ImageProcessing.datums_loop (datum :: rest)
                (ImageProcessing.mapParts self, []))
      as [[m' mainList] | |] eqn:Hloop; cbn [bind]; try discriminate.
    cbn [app length Nat.eqb negb]. intros [= <-].
    cbn [ImageProcessing.targetPort ImageProcessing.mapParts].
    split; [exact (proj1 (datums_loop_returns _ _ _ _ _ Hloop)) |].
    eexists. split; [reflexivity | cbn; lia].
  - intros [= <-]. split; [apply mapParts_grown_refl |].
    exists []. rewrite app_nil_r. split; [reflexivity | cbn; lia].
Qed.

Lemma work_returns_keeps_history_witness :
  mapParts_grown ImageProcessing.mapParts_init ImageProcessing.mapParts_init
  /\ exists written : list yarp.Bottle,
       [[yarp.VList []]] = [] ++ written /\ length written <= 1.
Proof.
  apply (work_returns_keeps_history ImageProcessing.new
           {| ImageProcessing.mapParts := ImageProcessing.mapParts_init;
              ImageProcessing.targetPort := [[yarp.VList []]] |}
           (Some [op.Datum_default])).
  reflexivity.
Defined.

Lemma datums_loop_app (a b : list op.Datum) (s : gmap nat string * yarp.Bottle) :
  ImageProcessing.datums_loop (a ++ b) s
  = (s' <-- ImageProcessing.datums_loop a s ;; ImageProcessing.datums_loop b s').
Proof.
  revert s. induction a as [| datum a IH]; intros s; [reflexivity |].
  cbn [app ImageProcessing.datums_loop].
  destruct (ImageProcessing.datum_body datum s); cbn [bind]; [apply IH | reflexivity ..].
Qed.

(** X5: when the datums before it are well formed and a datum carries a
    pose array that is not empty and has not three dimensions, the loop
    over the datums raises the exception of [op::error], with the
    message of line 184, and [work] leaves through it: the call ends
    inside the loop, which works on [mapParts] and [mainList] only,
    before the statement that writes to [targetPort]. *)
Theorem work_throws_on_dimensions
    (self : ImageProcessing.t) (good rest : list op.Datum) (bad : op.Datum) :
  mapParts_reachable (ImageProcessing.mapParts self) ->
  Forall (fun datum => pose_well_formed (op.poseKeyPoints datum)) good ->
  op.empty (op.poseKeyPoints bad) = false ->
  op.getNumberDimensions (op.poseKeyPoints bad) <> 3 ->
  (exists (parts : gmap nat string) (mainList : yarp.Bottle),
     ImageProcessing.datums_loop good (ImageProcessing.mapParts self, [])
     = Returns (parts, mainList)
     /\ ImageProcessing.datum_body bad (parts, mainList)
        = Throws "pose.getNumberDimensions() != 3.")
  /\ ImageProcessing.datums_loop (good ++ bad :: rest) (ImageProcessing.mapParts self, [])
     = Throws "pose.getNumberDimensions() != 3."
  /\ ImageProcessing.work self (Some (good ++ bad :: rest))
     = Throws "pose.getNumberDimensions() != 3.".
Proof.
  intros Hm Hgood Hnonempty Hdims.
  destruct (datums_loop_well_formed good _ [] Hm Hgood) as (m' & Hloop & _).
  assert (Hbad : forall s, ImageProcessing.datum_body bad s
                           = Throws "pose.getNumberDimensions() != 3.").
  { intros s. unfold ImageProcessing.datum_body. rewrite Hnonempty.
    apply Nat.eqb_neq in Hdims. rewrite Hdims. reflexivity. }
  assert (Hthrow : ImageProcessing.datums_loop (good ++ bad :: rest)
                     (ImageProcessing.mapParts self, [])
                   = Throws "pose.getNumberDimensions() != 3.").
  { rewrite datums_loop_app, Hloop. cbn [bind ImageProcessing.datums_loop].
    rewrite Hbad. reflexivity. }
  split; [eexists _, _; split; [exact Hloop | apply Hbad] |].
  split; [exact Hthrow |].
  unfold ImageProcessing.work.
  destruct (good ++ bad :: rest) as [| d l] eqn:E.
  - destruct good; discriminate E.
  - rewrite Hthrow. reflexivity.
Qed.

Lemma work_throws_on_dimensions_witness :
  ImageProcessing.datums_loop
    ([datum_of_pose pose_19_parts] ++ datum_of_pose pose_2_dimensions :: [])
    (ImageProcessing.mapParts_init, [])
  = Throws "pose.getNumberDimensions() != 3."
  /\ ImageProcessing.work ImageProcessing.new
       (Some ([datum_of_pose pose_19_parts] ++ datum_of_pose pose_2_dimensions :: []))
     = Throws "pose.getNumberDimensions() != 3.".
Proof.
  apply (work_throws_on_dimensions ImageProcessing.new
           [datum_of_pose pose_19_parts] [] (datum_of_pose pose_2_dimensions)).
  - exact mapParts_init_reachable.
  - constructor; [| constructor].
    right. exists 1, 19. split; [reflexivity |]. split; [reflexivity |].
    unfold INT_MAX. cbn. lia.
  - reflexivity.
  - cbn. lia.
Defined.

(** ** The numbers of the message *)

Lemma flat_map_seq_S {A : Type} (g : nat -> list A) (start len : nat) :
  flat_map g (seq (S start) len) = flat_map (fun b => g (S b)) (seq start len).
Proof.
  revert start. induction len as [| len IH]; intros start; [reflexivity |].
  cbn [seq flat_map]. f_equal. apply IH.
Qed.

Lemma flat_map_seq_from {A : Type} (g : nat -> list A) (start len : nat) :
  flat_map g (seq start len) = flat_map (fun b => g (start + b)) (seq 0 len).
Proof.
  revert g. induction start as [| start IH]; intros g; [reflexivity |].
  rewrite flat_map_seq_S, IH. reflexivity.
Qed.

Lemma flat_map_pairs {A : Type} (f : nat -> list A) (P n : nat) :
  flat_map (fun p => flat_map (fun b => f (p * P + b)) (seq 0 P)) (seq 0 n)
  = flat_map f (seq 0 (n * P)).
Proof.
  induction n as [| n IH]; [reflexivity |].
  rewrite seq_S, flat_map_app, IH. cbn [flat_map]. rewrite app_nil_r.
  replace (S n * P) with (n * P + P) by lia.
  rewrite seq_app, flat_map_app. f_equal.
  symmetry. apply (flat_map_seq_from f (n * P) P).
Qed.

Lemma flat_map_triples (l : list float) (m : nat) :
  length l = 3 * m ->
  flat_map (fun t => [nth (3 * t) l 0%float; nth (3 * t + 1) l 0%float;
                      nth (3 * t + 2) l 0%float]) (seq 0 m) = l.
Proof.
  revert l. induction m as [| m IH]; intros l Hlen.
  - destruct l; [reflexivity | cbn in Hlen; lia].
  - destruct l as [| a [| b [| c l]]]; cbn [length] in Hlen; try lia.
    cbn [seq flat_map]. rewrite flat_map_seq_S.
    change (nth (3 * 0) (a :: b :: c :: l) 0%float) with a.
    change (nth (3 * 0 + 1) (a :: b :: c :: l) 0%float) with b.
    change (nth (3 * 0 + 2) (a :: b :: c :: l) 0%float) with c.
    cbn [app]. do 3 f_equal.
    etransitivity; [| apply (IH l); lia].
    apply flat_map_ext. intros t.
    replace (3 * S t) with (S (S (S (3 * t)))) by lia.
    reflexivity.
Qed.

Lemma flat_map_flat_map {A B C : Type} (f : A -> list B) (g : B -> list C) (l : list A) :
  flat_map g (flat_map f l) = flat_map (fun a => flat_map g (f a)) l.
Proof.
  induction l as [| a l IH]; [reflexivity |].
  cbn [flat_map]. rewrite flat_map_app, IH. reflexivity.
Qed.

Lemma flat_map_map {A B C : Type} (f : A -> B) (g : B -> list C) (l : list A) :
  flat_map g (map f l) = flat_map (fun a => g (f a)) l.
Proof.
  induction l as [| a l IH]; [reflexivity |].
  cbn [map flat_map]. rewrite IH. reflexivity.
Qed.

(** The numbers of the inner lists of a well-formed pose array are its
    elements. *)
Lemma doubles_Persons_of (pose : op.Array) :
  pose_well_formed pose ->
  flat_map (fun person => doubles (yarp.VList (map record_of person))) (Persons_of pose)
  = op.mData pose.
Proof.
  intros Hwf.
  assert (Hperson : forall person,
             doubles (yarp.VList (map record_of (Person_of pose person)))
             = flat_map (fun b => [nth (3 * (person * op.getSize pose 1 + b)) (op.mData pose) 0%float;
                                   nth (3 * (person * op.getSize pose 1 + b) + 1) (op.mData pose) 0%float;
                                   nth (3 * (person * op.getSize pose 1 + b) + 2) (op.mData pose) 0%float])
                 (seq 0 (op.getSize pose 1))).
  { intros person. cbn [doubles]. unfold Person_of. rewrite !flat_map_map.
    apply flat_map_ext. intros b. unfold record_of.
    cbn [doubles flat_map app kp_x kp_y kp_confidence].
    rewrite !element_flat, Nat.add_0_r. reflexivity. }
  unfold Persons_of. rewrite flat_map_map.
  rewrite (flat_map_ext _ _ Hperson).
  rewrite (flat_map_pairs
             (fun t => [nth (3 * t) (op.mData pose) 0%float;
                        nth (3 * t + 1) (op.mData pose) 0%float;
                        nth (3 * t + 2) (op.mData pose) 0%float])
             (op.getSize pose 1) (op.getSize pose 0)).
  apply flat_map_triples.
  unfold op.getSize. destruct Hwf as [[-> ->] | (n & P & -> & Hlen & _)].
  - reflexivity.
  - cbn [nth]. lia.
Qed.

(** X6: for a non-empty batch of well-formed pose arrays, the numbers of
    the message [work] writes, read in order, are exactly the elements
    of the pose arrays of the batch, in datum order and array order:
    no coordinate is dropped, repeated or moved. *)
Theorem work_message_numbers (self : ImageProcessing.t) (datums : list op.Datum) :
  datums <> [] ->
  mapParts_reachable (ImageProcessing.mapParts self) ->
  Forall (fun datum => pose_well_formed (op.poseKeyPoints datum)) datums ->
  exists (self' : ImageProcessing.t) (message : yarp.Bottle),
    ImageProcessing.work self (Some datums) = Returns self'
    /\ ImageProcessing.targetPort self' = ImageProcessing.targetPort self ++ [message]
    /\ flat_map doubles message
       = flat_map (fun datum => op.mData (op.poseKeyPoints datum)) datums.
Proof.
  intros Hne Hm Hwf.
  destruct (work_well_formed self datums Hne Hm Hwf) as (self' & Hwork & Hport & _).
  exists self', (message_of (DetectionBatch datums)).
  split; [exact Hwork |]. split; [exact Hport |].
  unfold message_of. cbn [flat_map doubles]. rewrite app_nil_r, flat_map_map.
  unfold DetectionBatch. rewrite flat_map_flat_map.
  clear Hne Hwork Hport. induction Hwf as [| datum rest Hdatum _ IH]; [reflexivity |].
  cbn [flat_map]. rewrite IH. f_equal. apply doubles_Persons_of, Hdatum.
Qed.

Lemma work_message_numbers_witness :
  exists (self' : ImageProcessing.t) (message : yarp.Bottle),
    ImageProcessing.work ImageProcessing.new (Some [datum_of_pose pose_2_parts])
    = Returns self'
    /\ ImageProcessing.targetPort self' = [message]
    /\ flat_map doubles message = [10; 20; 0.5; 30; 40; 0.25]%float.
Proof.
  destruct (work_message_numbers ImageProcessing.new [datum_of_pose pose_2_parts])
    as (self' & message & Hwork & Hport & Hnumbers).
  - discriminate.
  - exact mapParts_init_reachable.
  - constructor; [| constructor].
    right. exists 1, 2. split; [reflexivity |]. split; [reflexivity |].
    unfold INT_MAX. cbn. lia.
  - exists self', message. split; [exact Hwork |]. split; [exact Hport | exact Hnumbers].
Defined.

(** ** [ImageOutput::workConsumer] on a rendered frame *)

(** X8: a non-empty frame that [workProducer] turned into a matrix and
    that comes back as the rendered frame of the first datum is written
    to the outbound port as the image that was read: same width, height
    and bytes; nothing is logged, and the images written before stay. *)
Theorem workConsumer_writes_frame_back
    (self : ImageOutput.t) (frame : yarp.Image) (datum : op.Datum)
    (rest : list op.Datum) :
  op.Mat_empty (ImageInput.cvarrToMat frame) = false ->
  op.cvOutputData datum = ImageInput.cvarrToMat frame ->
  ImageOutput.workConsumer self (Some (datum :: rest))
  = Returns ({| ImageOutput.outPort := ImageOutput.outPort self ++ [frame] |}, []).
Proof.
  intros Hframe H. cbn [ImageOutput.workConsumer]. rewrite H, Hframe.
  destruct frame as [w h b]. reflexivity.
Qed.

Lemma workConsumer_writes_frame_back_witness :
  ImageOutput.workConsumer ImageOutput.new
    (Some ({| op.cvInputData := op.Mat_default;
              op.cvOutputData := ImageInput.cvarrToMat one_pixel;
              op.poseKeyPoints := op.Array_default |} :: [op.Datum_default]))
  = Returns ({| ImageOutput.outPort := [one_pixel] |}, []).
Proof.
  apply (workConsumer_writes_frame_back ImageOutput.new one_pixel); reflexivity.
Defined.

(** ** Conversions of the configuration *)

(** X9: [gflagToHeatMaps] returns the types whose flag is set, and only
    those, each once, and always in the order parts, background, PAFs,
    whatever the flags are. *)
Theorem gflagToHeatMaps_selected (parts bkg PAFs : bool) :
  (In op.Parts (gflagToHeatMaps parts bkg PAFs) <-> parts = true)
  /\ (In op.Background (gflagToHeatMaps parts bkg PAFs) <-> bkg = true)
  /\ (In op.PAFs (gflagToHeatMaps parts bkg PAFs) <-> PAFs = true)
  /\ NoDup (gflagToHeatMaps parts bkg PAFs)
  /\ sublist (gflagToHeatMaps parts bkg PAFs) [op.Parts; op.Background; op.PAFs].
Proof.
  destruct parts, bkg, PAFs; cbn [gflagToHeatMaps app];
    (split; [| split; [| split; [| split]]]).
  all: try (apply NoDup_ListNoDup; repeat constructor; cbn [In];
            intuition discriminate).
  all: try (repeat constructor; fail).
  all: cbn [In]; intuition (discriminate || congruence).
Qed.

(** X10: [gflagsToOpParameters] returns exactly when [sscanf] converts
    two integers in each resolution string and [heatmaps_scale_mode]
    lies in 0..2, and throws otherwise; accordingly [configure] either
    returns [true], with the module open, not closing, nothing written
    and the line "Running processses" logged last, or throws without
    logging that line. It never returns [false]. *)
Theorem configure_true_or_throws
    (Wrapper : Type) (configure_ : Wrapper -> Params -> OpParameters -> Wrapper)
    (start : Wrapper -> Wrapper) (wrapper : Wrapper) (p : Params) :
  let accepted :=
    (libc.sscanf_dxd (img_resolution p) 0 0).1.1 = 2%Z
    /\ (libc.sscanf_dxd (net_resolution p) 0 0).1.1 = 2%Z
    /\ (0 <= heatmaps_scale_mode p <= 2)%Z in
  (accepted <-> exists log r, gflagsToOpParameters p = (log, Returns r))
  /\ (accepted ->
      exists log r m,
        gflagsToOpParameters p = (log, Returns r)
        /\ configure Wrapper configure_ start wrapper p
           = (YDebug "Starting yarpOpenPose" :: log
                ++ [YDebug "Starting thread(s)"; YDebug "Done starting thread(s)";
                    YDebug "Running processses"],
              Returns (true, m))
        /\ inputClass m = ImageInput.new
        /\ processingClass m = ImageProcessing.new
        /\ outputClass m = ImageOutput.new
        /\ opWrapper m = start (configure_ wrapper p r)
        /\ closing m = false)
  /\ (~ accepted ->
      exists log what,
        gflagsToOpParameters p = (log, Throws what)
        /\ configure Wrapper configure_ start wrapper p
           = (YDebug "Starting yarpOpenPose" :: log, Throws what)
        /\ Forall (fun line => exists msg, line = YError msg) log).
Proof.
  intros accepted.
  assert (Hyes : accepted -> exists log r, gflagsToOpParameters p = (log, Returns r)).
  { intros (Himg & Hnet & Hrange).
    destruct (libc.sscanf_dxd (img_resolution p) 0 0) as [[n w] h] eqn:Eimg.
    destruct (libc.sscanf_dxd (net_resolution p) 0 0) as [[n' w'] h'] eqn:Enet.
    cbn in Himg, Hnet. subst n n'.
    eexists _, _. apply (gflagsToOpParameters_returns p w h w' h' Eimg Enet Hrange). }
  assert (Hno : ~ accepted ->
                exists log what,
                  gflagsToOpParameters p = (log, Throws what)
                  /\ Forall (fun line => exists msg, line = YError msg) log).
  { intros Hnot.
    destruct (Z.eq_dec (libc.sscanf_dxd (img_resolution p) 0 0).1.1 2%Z) as [Himg | Himg].
    - destruct (Z.eq_dec (libc.sscanf_dxd (net_resolution p) 0 0).1.1 2%Z) as [Hnet | Hnet].
      + assert (Hrange : ~ (0 <= heatmaps_scale_mode p <= 2)%Z)
          by (intros Hrange; apply Hnot; repeat split; tauto).
        unfold gflagsToOpParameters.
        destruct (libc.sscanf_dxd (img_resolution p) 0 0) as [[n w] h].
        destruct (libc.sscanf_dxd (net_resolution p) 0 0) as [[n' w'] h'].
        cbn in Himg, Hnet. subst n n'. cbn [negb Z.eqb].
        assert (Hlog1 : Forall (fun line => exists msg, line = YError msg)
                          (gflagToPoseModel (model_name p)).2).
        { unfold gflagToPoseModel. repeat destruct (String.eqb _ _); cbn; repeat constructor.
          eexists. reflexivity. }
        assert (Hlog2 : Forall (fun line => exists msg, line = YError msg)
                          (gflagToScaleMode (scale_mode p)).2).
        { unfold gflagToScaleMode. repeat destruct (Z.eqb _ _); cbn; repeat constructor.
          eexists. reflexivity. }
        destruct (gflagToPoseModel (model_name p)) as [poseModel log1].
        destruct (gflagToScaleMode (scale_mode p)) as [scaleMode log2].
        replace ((0 <=? heatmaps_scale_mode p)%Z && (heatmaps_scale_mode p <=? 2)%Z)
          with false.
        * cbn [negb]. eexists _, _. split; [reflexivity |].
          apply Forall_app. split; assumption.
        * symmetry. apply andb_false_iff.
          destruct (Z.leb_spec 0 (heatmaps_scale_mode p)); [right | left; reflexivity].
          apply Z.leb_gt. lia.
      + destruct (gflagsToOpParameters_resolution_throws p (or_intror Hnet)) as [what H].
        exists [], what. split; [exact H | constructor].
    - destruct (gflagsToOpParameters_resolution_throws p (or_introl Himg)) as [what H].
      exists [], what. split; [exact H | constructor]. }
  split; [| split].
  - split; [exact Hyes |].
    intros (log & r & Hr).
    destruct (Z.eq_dec (libc.sscanf_dxd (img_resolution p) 0 0).1.1 2%Z) as [Himg | Himg];
      [destruct (Z.eq_dec (libc.sscanf_dxd (net_resolution p) 0 0).1.1 2%Z) as [Hnet | Hnet];
       [destruct (Z_le_dec 0 (heatmaps_scale_mode p));
        [destruct (Z_le_dec (heatmaps_scale_mode p) 2) |] |] |];
      try (repeat split; assumption);
      (destruct Hno as (log' & what & Hthrows & _);
       [intros (? & ? & ?); first [contradiction | lia] | congruence]).
  - intros Hacc. destruct (Hyes Hacc) as (log & r & Hr).
    eexists log, r, _. split; [exact Hr |].
    unfold configure. rewrite Hr. cbn [app]. split; [reflexivity |].
    repeat split.
  - intros Hnot. destruct (Hno Hnot) as (log & what & Hthrows & Hlog).
    exists log, what. split; [exact Hthrows |]. split; [| exact Hlog].
    unfold configure. rewrite Hthrows. reflexivity.
Qed.

Lemma configure_true_or_throws_witness :
  exists log r m,
    gflagsToOpParameters Params_default = (log, Returns r)
    /\ configure unit (fun w _ _ => w) (fun w => w) tt Params_default
       = (YDebug "Starting yarpOpenPose" :: log
            ++ [YDebug "Starting thread(s)"; YDebug "Done starting thread(s)";
                YDebug "Running processses"],
          Returns (true, m))
    /\ closing m = false.
Proof.
  destruct (configure_true_or_throws unit (fun w _ _ => w) (fun w => w) tt Params_default)
    as (_ & Hyes & _).
  destruct Hyes as (log & r & m & Hr & Hc & _ & _ & _ & _ & Hclosing).
  - split; [reflexivity |]. split; [reflexivity |]. cbn. lia.
  - exists log, r, m. split; [exact Hr |]. split; [exact Hc | exact Hclosing].
Defined.

(** X11: the checks of [gflagsToOpParameters] are made in the order image
    resolution, net resolution, heat-map scale mode, and the first that
    fails decides the exception: a rejected [img_resolution] throws the
    message that quotes it whatever the other members are, and a
    rejected resolution is thrown before any [yError] of the model or
    scale-mode fall-backs is logged, while a rejected
    [heatmaps_scale_mode] is thrown after them. *)
Theorem gflagsToOpParameters_first_failure (p : Params) :
  ((libc.sscanf_dxd (img_resolution p) 0 0).1.1 <> 2%Z ->
   gflagsToOpParameters p
   = ([], Throws ("Error, resolution format (" +:+ img_resolution p
                  +:+ ") invalid, should be e.g., 960x540 ")))
  /\ ((libc.sscanf_dxd (img_resolution p) 0 0).1.1 = 2%Z ->
      (libc.sscanf_dxd (net_resolution p) 0 0).1.1 <> 2%Z ->
      gflagsToOpParameters p
      = ([], Throws ("Error, net resolution format (" +:+ net_resolution p
                     +:+ ") invalid, should be e.g., 656x368 (multiples of 16)")))
  /\ ((libc.sscanf_dxd (img_resolution p) 0 0).1.1 = 2%Z ->
      (libc.sscanf_dxd (net_resolution p) 0 0).1.1 = 2%Z ->
      ~ (0 <= heatmaps_scale_mode p <= 2)%Z ->
      gflagsToOpParameters p
      = ((gflagToPoseModel (model_name p)).2 ++ (gflagToScaleMode (scale_mode p)).2,
         Throws "Non valid `heatmaps_scale_mode`.")).
Proof.
  unfold gflagsToOpParameters.
  destruct (libc.sscanf_dxd (img_resolution p) 0 0) as [[n w] h].
  destruct (libc.sscanf_dxd (net_resolution p) 0 0) as [[n' w'] h'].
  cbn [fst snd]. split; [| split].
  - intros Hn. apply Z.eqb_neq in Hn. rewrite Hn. reflexivity.
  - intros -> Hn. apply Z.eqb_neq in Hn. rewrite Hn. reflexivity.
  - intros -> -> Hrange. cbn [negb Z.eqb].
    destruct (gflagToPoseModel (model_name p)) as [poseModel log1].
    destruct (gflagToScaleMode (scale_mode p)) as [scaleMode log2].
    replace ((0 <=? heatmaps_scale_mode p)%Z && (heatmaps_scale_mode p <=? 2)%Z)
      with false; [reflexivity |].
    symmetry. apply andb_false_iff.
    destruct (Z.leb_spec 0 (heatmaps_scale_mode p)); [right | left; reflexivity].
    apply Z.leb_gt. lia.
Qed.

Lemma gflagsToOpParameters_first_failure_witness :
  gflagsToOpParameters (Params_resolutions "320" "wide")
  = ([], Throws "Error, resolution format (320) invalid, should be e.g., 960x540 ")
  /\ gflagsToOpParameters (Params_heatmaps_scale_mode 3)
     = ([], Throws "Non valid `heatmaps_scale_mode`.").
Proof.
  split.
  - apply (proj1 (gflagsToOpParameters_first_failure (Params_resolutions "320" "wide"))).
    discriminate.
  - apply (proj2 (proj2 (gflagsToOpParameters_first_failure
                           (Params_heatmaps_scale_mode 3)))).
    + reflexivity.
    + reflexivity.
    + cbn. lia.
Defined.

(** ** The resolution strings [sscanf] accepts *)

Lemma scan_digits_seen (s : string) (acc : Z) :
  (libc.scan_digits s true acc).1.1 = true.
Proof.
  revert acc. induction s as [| c r IH]; intros acc; cbn [libc.scan_digits]; [reflexivity |].
  destruct (libc.isdigit c); [apply IH | reflexivity].
Qed.

Lemma scan_digits_head (s : string) (acc : Z) :
  (libc.scan_digits s false acc).1.1
  = match s with String d _ => libc.isdigit d | EmptyString => false end.
Proof.
  destruct s as [| d r]; cbn [libc.scan_digits]; [reflexivity |].
  destruct (libc.isdigit d); [apply scan_digits_seen | reflexivity].
Qed.

(** [%d] converts exactly when the text begins with an integer. *)
Lemma scan_d_converts (s : string) :
  integer_prefix s = true <-> exists v rest, libc.scan_d s = libc.Converted v rest.
Proof.
  unfold integer_prefix, libc.scan_d.
  destruct (libc.skip_space s) as [| c r]; [split; [discriminate | intros (? & ? & [=])] |].
  assert (Hbody : forall negative body,
             (match body with String d _ => libc.isdigit d | EmptyString => false end) = true
             <-> exists v rest,
                 match libc.scan_digits body false 0 with
                 | (true, v, rest) =>
                     libc.Converted (libc.store_int (if negative : bool then - v else v)) rest
                 | (false, _, _) => libc.MatchingFailure
                 end = libc.Converted v rest).
  { intros negative body. rewrite <- (scan_digits_head body 0).
    destruct (libc.scan_digits body false 0) as [[[] v] rest]; cbn [fst].
    - split; [eauto | reflexivity].
    - split; [discriminate | intros (? & ? & [=])]. }
  destruct (Ascii.eqb c "-"); cbn [orb]; [exact (Hbody true r) |].
  destruct (Ascii.eqb c "+"); [exact (Hbody false r) | exact (Hbody false (String c r))].
Qed.

Lemma scan_digits_to_x (s : string) (seen : bool) (acc : Z) :
  contains_x s = true ->
  all_digits (width_field s) = true ->
  libc.scan_digits s seen acc
  = (if width_field s is EmptyString then seen else true,
     decimal_value acc (width_field s), String "x" (after_x s)).
Proof.
  revert seen acc. induction s as [| c r IH]; intros seen acc; [discriminate |].
  cbn [contains_x width_field after_x libc.scan_digits].
  destruct (Ascii.eqb_spec c "x") as [-> | Hc].
  - intros _ _. reflexivity.
  - cbn [orb all_digits decimal_value]. intros Hx [Hd Hall]%andb_true_iff.
    rewrite Hd, (IH true _ Hx Hall). destruct (width_field r); reflexivity.
Qed.

(** With an x in the text and a numeric width in front of it, [%d] stops
    at that x. *)
Lemma scan_d_to_x (s : string) :
  contains_x s = true ->
  numeric (width_field s) = true ->
  exists v, libc.scan_d s = libc.Converted v (String "x" (after_x s)).
Proof.
  induction s as [| c r IH]; [discriminate |].
  cbn [contains_x width_field after_x].
  destruct (Ascii.eqb_spec c "x") as [-> | Hc]; [intros _; discriminate |].
  cbn [orb]. intros Hx Hnum.
  destruct (libc.isspace c) eqn:Hs.
  - rewrite (numeric_space c _ Hs) in Hnum. destruct (IH Hx Hnum) as [v Hv].
    exists v. unfold libc.scan_d in *. cbn [libc.skip_space]. rewrite Hs. exact Hv.
  - unfold numeric in Hnum. cbn [libc.skip_space] in Hnum. rewrite Hs in Hnum.
    unfold libc.scan_d. cbn [libc.skip_space]. rewrite Hs.
    destruct (Ascii.eqb c "-" || Ascii.eqb c "+") eqn:Hsign.
    + assert (Hr : width_field r <> EmptyString /\ all_digits (width_field r) = true)
        by (destruct (width_field r); [discriminate Hnum | split; [discriminate | exact Hnum]]).
      destruct Hr as [Hne Hall].
      pose proof (scan_digits_to_x r false 0 Hx Hall) as Hscan.
      destruct (width_field r) eqn:Hw; [contradiction |].
      destruct (Ascii.eqb c "-"); [| destruct (Ascii.eqb c "+"); [| discriminate Hsign]];
        rewrite Hscan; eauto.
    + apply orb_false_iff in Hsign as [-> ->].
      assert (Hx' : contains_x (String c r) = true)
        by (cbn [contains_x]; rewrite Hx; apply orb_true_r).
      assert (Hw : width_field (String c r) = String c (width_field r)).
      { cbn [width_field]. destruct (Ascii.eqb_spec c "x"); [contradiction | reflexivity]. }
      pose proof (scan_digits_to_x (String c r) false 0 Hx') as Hscan.
      rewrite Hw in Hscan. rewrite (Hscan Hnum).
      cbn [after_x]. destruct (Ascii.eqb_spec c "x"); [contradiction |]. eauto.
Qed.

Lemma scan_digits_after_x (s : string) (seen seen' : bool) (acc v : Z) (rest : string) :
  libc.scan_digits s seen acc = (seen', v, String "x" rest) -> after_x s = rest.
Proof.
  revert seen acc. induction s as [| c r IH]; intros seen acc; cbn [libc.scan_digits];
    [discriminate |].
  destruct (libc.isdigit c) eqn:Hc.
  - intros H. cbn [after_x]. rewrite (isdigit_not_x c Hc). exact (IH _ _ H).
  - intros [= _ _ -> ->]. reflexivity.
Qed.

Lemma scan_d_after_x (s : string) (v : Z) (rest : string) :
  libc.scan_d s = libc.Converted v (String "x" rest) -> after_x s = rest.
Proof.
  induction s as [| c r IH]; [discriminate |].
  unfold libc.scan_d. cbn [libc.skip_space]. destruct (libc.isspace c) eqn:Hs.
  - intros H. cbn [after_x]. rewrite (isspace_not_x c Hs). apply IH. exact H.
  - destruct (Ascii.eqb c "-" || Ascii.eqb c "+") eqn:Hsign.
    + cbn [after_x]. rewrite (sign_not_x c Hsign).
      destruct (Ascii.eqb c "-"); [| destruct (Ascii.eqb c "+"); [| discriminate Hsign]];
        (destruct (libc.scan_digits r false 0) as [[[] v'] rest'] eqn:E; [| discriminate];
         intros [= _ ->]; exact (scan_digits_after_x _ _ _ _ _ _ E)).
    + apply orb_false_iff in Hsign as [-> ->].
      destruct (libc.scan_digits (String c r) false 0) as [[[] v'] rest'] eqn:E;
        [| discriminate].
      intros [= _ ->]. exact (scan_digits_after_x _ _ _ _ _ _ E).
Qed.

(** X12: [sscanf] with ["%dx%d"] returns 2 exactly for the strings whose
    C string holds an x, has a numeric text in front of its first x
    (white space if any, a sign if any, digits) and has a text after that
    x that begins with an integer (white space if any, a sign if any, a
    digit). Whatever follows the second integer is not looked at. *)
Theorem sscanf_dxd_accepts (s : string) (w h : Z) :
  (libc.sscanf_dxd s w h).1.1 = 2%Z
  <-> contains_x (libc.c_str s) = true
      /\ numeric (width_field (libc.c_str s)) = true
      /\ integer_prefix (after_x (libc.c_str s)) = true.
Proof.
  split.
  - intros Htwo. destruct (sscanf_dxd_two s w h Htwo) as (v & rest & Hscan).
    split; [apply (contains_x_scan_d _ _ _ Hscan); reflexivity |].
    split; [exact (scan_d_width_numeric _ _ _ Hscan) |].
    rewrite (scan_d_after_x _ _ _ Hscan).
    unfold libc.sscanf_dxd in Htwo. rewrite Hscan in Htwo.
    change (Ascii.eqb "x" "x") with true in Htwo. cbn iota in Htwo.
    apply scan_d_converts.
    destruct (libc.scan_d rest) as [| | v' rest']; [discriminate Htwo .. | eauto].
  - intros (Hx & Hnum & Hint).
    destruct (scan_d_to_x _ Hx Hnum) as [v Hscan].
    apply scan_d_converts in Hint as (v' & rest' & Hscan').
    unfold libc.sscanf_dxd. rewrite Hscan.
    change (Ascii.eqb "x" "x") with true. cbn iota. rewrite Hscan'. reflexivity.
Qed.

Lemma pretty_N_digits_all (x : N) :
  exists digits : string,
    pretty x = digits /\ digits <> EmptyString /\ all_digits digits = true
    /\ decimal_value 0 digits = Z.of_N x.
Proof.
  destruct (N.eq_dec x 0%N) as [-> | Hx].
  - exists "0". repeat split. discriminate.
  - apply pretty_N_digits. lia.
Qed.

Lemma c_str_stops (tail : string) :
  (if tail is String c _ then libc.isdigit c else false) = false ->
  (if libc.c_str tail is String c _ then libc.isdigit c else false) = false.
Proof.
  destruct tail as [| c t]; [reflexivity |]. cbn [libc.c_str].
  destruct (Nat.eqb (nat_of_ascii c) 0); [reflexivity | auto].
Qed.

Lemma scan_d_minus_digits (digits rest : string) :
  digits <> EmptyString ->
  all_digits digits = true ->
  (if rest is String c _ then libc.isdigit c else false) = false ->
  libc.scan_d (String "-" (digits +:+ rest))
    = libc.Converted (libc.store_int (- decimal_value 0 digits)) rest.
Proof.
  intros Hne Hall Hstop. unfold libc.scan_d. cbn [libc.skip_space].
  change (libc.isspace "-") with false. cbn iota.
  change (Ascii.eqb "-" "-") with true. cbn iota.
  rewrite (scan_digits_run digits rest false 0 Hall).
  destruct digits as [| d ds]; [contradiction |].
  destruct rest as [| c' rest']; [reflexivity |].
  cbn [libc.scan_digits]. rewrite Hstop. reflexivity.
Qed.

(** X13: the sizes read from a resolution string are not validated: for
    integers up to [INT_MAX] written in decimal, a width with a minus
    sign in front is read as the negative width, zero is read as zero,
    and any text after the height that does not begin with a digit is
    ignored; [sscanf] returns 2 for all of them and
    [gflagsToOpParameters] takes the pair as [outputSize]. *)
Theorem sscanf_dxd_sizes_not_validated
    (negative : bool) (W H : N) (tail : string) :
  (Z.of_N W <= INT_MAX)%Z ->
  (Z.of_N H <= INT_MAX)%Z ->
  (if tail is String c _ then libc.isdigit c else false) = false ->
  let text := (if negative then "-" else EmptyString)
              +:+ pretty W +:+ "x" +:+ pretty H +:+ tail in
  let width := if negative then (- Z.of_N W)%Z else Z.of_N W in
  libc.sscanf_dxd text 0 0 = (2%Z, width, Z.of_N H)
  /\ forall p : Params,
       img_resolution p = text ->
       parses (net_resolution p) ->
       (0 <= heatmaps_scale_mode p <= 2)%Z ->
       exists log r,
         gflagsToOpParameters p = (log, Returns r)
         /\ outputSize_of r = (width, Z.of_N H).
Proof.
  intros HW HH Hstop text width.
  assert (Hscan : libc.sscanf_dxd text 0 0 = (2%Z, width, Z.of_N H)).
  { subst text width.
    destruct (pretty_N_digits_all W) as (wdigits & -> & Hw & Hwd & Hwv).
    destruct (pretty_N_digits_all H) as (hdigits & -> & Hh & Hhd & Hhv).
    pose proof (c_str_stops tail Hstop) as Hstop'.
    assert (Hheight : libc.scan_d (hdigits +:+ libc.c_str tail)
                      = libc.Converted (Z.of_N H) (libc.c_str tail)).
    { rewrite (scan_d_digits hdigits _ Hh Hhd Hstop'), Hhv.
      rewrite store_int_id by (unfold INT_MIN, INT_MAX in *; lia). reflexivity. }
    unfold libc.sscanf_dxd. destruct negative.
    - rewrite append_cons, append_empty_l. cbn [libc.c_str].
      change (Nat.eqb (nat_of_ascii "-") 0) with false. cbn iota.
      rewrite (c_str_digits wdigits _ Hwd), append_cons, append_empty_l.
      cbn [libc.c_str]. change (Nat.eqb (nat_of_ascii "x") 0) with false. cbn iota.
      rewrite (c_str_digits hdigits _ Hhd).
      rewrite (scan_d_minus_digits wdigits (String "x" (hdigits +:+ libc.c_str tail))
                 Hw Hwd eq_refl), Hwv.
      change (Ascii.eqb "x" "x") with true. cbn iota. rewrite Hheight.
      rewrite store_int_id by (unfold INT_MIN, INT_MAX in *; lia). reflexivity.
    - rewrite append_empty_l.
      rewrite (c_str_digits wdigits _ Hwd), append_cons, append_empty_l.
      cbn [libc.c_str]. change (Nat.eqb (nat_of_ascii "x") 0) with false. cbn iota.
      rewrite (c_str_digits hdigits _ Hhd).
      rewrite (scan_d_digits wdigits (String "x" (hdigits +:+ libc.c_str tail))
                 Hw Hwd eq_refl), Hwv.
      change (Ascii.eqb "x" "x") with true. cbn iota. rewrite Hheight.
      rewrite store_int_id by (unfold INT_MIN, INT_MAX in *; lia). reflexivity. }
  split; [exact Hscan |].
  intros p Eimg (w' & h' & Hnet) Hrange. rewrite <- Eimg in Hscan.
  eexists _, _. split.
  - apply (gflagsToOpParameters_returns p _ _ _ _ Hscan Hnet Hrange).
  - reflexivity.
Qed.

Lemma sscanf_dxd_sizes_not_validated_witness :
  libc.sscanf_dxd "-320x0 pixels" 0 0 = (2, -320, 0)%Z
  /\ exists log r,
       gflagsToOpParameters (Params_resolutions "-320x0 pixels" "656x368")
       = (log, Returns r)
       /\ outputSize_of r = (-320, 0)%Z.
Proof.
  destruct (sscanf_dxd_sizes_not_validated true 320 0 " pixels") as [Hscan Hconf].
  - unfold INT_MAX. cbn. lia.
  - unfold INT_MAX. cbn. lia.
  - reflexivity.
  - split; [exact Hscan |].
    apply (Hconf (Params_resolutions "-320x0 pixels" "656x368")).
    + reflexivity.
    + exists 656%Z, 368%Z. reflexivity.
    + cbn. lia.
Defined.

(** ** [Module::updateModule]: the cycles *)

Section UpdateModule.

Context {Wrapper : Type}.
Variable waitAndEmplace : Wrapper -> list op.Datum -> bool * Wrapper.
Variable waitAndPop : Wrapper -> bool * DatumsPtr * Wrapper.
Variable frames : nat -> yarp.Image.

Local Abbreviation cycle := (updateModule Wrapper waitAndEmplace waitAndPop frames).
Local Abbreviation cycles := (updateModule_n Wrapper waitAndEmplace waitAndPop frames).

Lemma updateModule_closed (self : YarpOpenPose.t Wrapper) :
  ImageInput.mClosed (inputClass self) = true ->
  cycle self = Returns (negb (closing self), self, []).
Proof.
  intros H. unfold updateModule. rewrite (workProducer_closed frames _ H).
  destruct self as [[reads closed] processing output wrapper closing_].
  cbn in H. subst closed. reflexivity.
Qed.

Lemma updateModule_n_closed (n : nat) (self : YarpOpenPose.t Wrapper) :
  ImageInput.mClosed (inputClass self) = true ->
  cycles n self = Returns (repeat (negb (closing self)) n, self, []).
Proof.
  intros H. induction n as [| n IH]; [reflexivity |].
  cbn [updateModule_n]. rewrite (updateModule_closed self H). cbn [bind].
  rewrite IH. reflexivity.
Qed.

Lemma updateModule_acquired (self : YarpOpenPose.t Wrapper) :
  ImageInput.mClosed (inputClass self) = false ->
  op.Mat_empty (ImageInput.cvarrToMat (frames (ImageInput.inPort_reads (inputClass self))))
    = false ->
  ImageInput.workProducer frames (inputClass self)
  = (Some [datum_of_frame (frames (ImageInput.inPort_reads (inputClass self)))],
     {| ImageInput.inPort_reads := S (ImageInput.inPort_reads (inputClass self));
        ImageInput.mClosed := false |}, []).
Proof.
  intros Hopen Hframe. destruct (inputClass self) as [reads closed].
  cbn in Hopen, Hframe |- *. subst closed. apply workProducer_frame, Hframe.
Qed.

End UpdateModule.

(** X14: once a cycle finds the frame source closed, or reads an empty
    frame, the module idles for good: that cycle and every later one
    return [!closing] without submitting anything to the wrapper and
    without writing to either outbound port. A cycle that finds the
    source closed reads nothing, logs nothing and leaves the module as
    it was; the cycle that reads the empty frame reads that one frame,
    closes the source and logs the one line of [workProducer]; no later
    cycle reads the inbound port, logs, or changes the module in any
    way. *)
Theorem updateModule_idles_after_end_of_stream
    (Wrapper : Type)
    (waitAndEmplace : Wrapper -> list op.Datum -> bool * Wrapper)
    (waitAndPop : Wrapper -> bool * DatumsPtr * Wrapper)
    (frames : nat -> yarp.Image)
    (self : YarpOpenPose.t Wrapper) :
  ImageInput.mClosed (inputClass self) = true
  \/ op.Mat_empty (ImageInput.cvarrToMat
                     (frames (ImageInput.inPort_reads (inputClass self)))) = true ->
  let found_closed := ImageInput.mClosed (inputClass self) in
  let self1 :=
    {| inputClass :=
         {| ImageInput.inPort_reads :=
              if found_closed then ImageInput.inPort_reads (inputClass self)
              else S (ImageInput.inPort_reads (inputClass self));
            ImageInput.mClosed := true |};
       processingClass := processingClass self;
       outputClass := outputClass self;
       opWrapper := opWrapper self;
       closing := closing self |} in
  updateModule Wrapper waitAndEmplace waitAndPop frames self
  = Returns (negb (closing self), self1,
             if found_closed then []
             else [OpLog "Empty frame detected. Closing program."])
  /\ (found_closed = true -> self1 = self)
  /\ forall n : nat,
       updateModule_n Wrapper waitAndEmplace waitAndPop frames n self1
       = Returns (repeat (negb (closing self)) n, self1, []).
Proof.
  intros H found_closed self1. subst found_closed self1.
  destruct self as [[reads closed] processing output wrapper closing_].
  cbn [inputClass processingClass outputClass opWrapper closing
       ImageInput.mClosed ImageInput.inPort_reads] in *.
  destruct closed.
  - split; [| split].
    + apply (updateModule_closed waitAndEmplace waitAndPop frames). reflexivity.
    + reflexivity.
    + intros n.
      apply (updateModule_n_closed waitAndEmplace waitAndPop frames n
               {| inputClass := {| ImageInput.inPort_reads := reads;
                                   ImageInput.mClosed := true |};
                  processingClass := processing; outputClass := output;
                  opWrapper := wrapper; closing := closing_ |}).
      reflexivity.
  - destruct H as [H | H]; [discriminate H |].
    split; [| split].
    + unfold updateModule. cbn [inputClass].
      rewrite (workProducer_empty_frame frames reads H). reflexivity.
    + discriminate.
    + intros n.
      apply (updateModule_n_closed waitAndEmplace waitAndPop frames n
               {| inputClass := {| ImageInput.inPort_reads := S reads;
                                   ImageInput.mClosed := true |};
                  processingClass := processing; outputClass := output;
                  opWrapper := wrapper; closing := closing_ |}).
      reflexivity.
Qed.

Lemma updateModule_idles_witness :
  let self :=
    {| inputClass := ImageInput.new; processingClass := ImageProcessing.new;
       outputClass := ImageOutput.new; opWrapper := None; closing := false |} in
  let self1 :=
    {| inputClass := {| ImageInput.inPort_reads := 1; ImageInput.mClosed := true |};
       processingClass := ImageProcessing.new;
       outputClass := ImageOutput.new; opWrapper := None; closing := false |} in
  let frames := fun _ : nat =>
    {| yarp.width := 0; yarp.height := 0; yarp.bytes := [] |} in
  updateModule DatumsPtr echo_waitAndEmplace echo_waitAndPop frames self
  = Returns (true, self1, [OpLog "Empty frame detected. Closing program."])
  /\ updateModule_n DatumsPtr echo_waitAndEmplace echo_waitAndPop frames 5 self1
     = Returns (repeat true 5, self1, []).
Proof.
  intros self self1 frames.
  destruct (updateModule_idles_after_end_of_stream DatumsPtr echo_waitAndEmplace
              echo_waitAndPop frames self)
    as (Hcycle & _ & Hidle).
  - right. reflexivity.
  - split; [exact Hcycle | exact (Hidle 5)].
Defined.

(** X15: in a cycle where the source is open and delivers a non-empty
    frame, the wrapper accepts the datum made of that frame and gives
    back a batch holding at least one datum, the first with a non-empty
    rendered frame, all with well-formed pose arrays, [updateModule]
    returns [!closing] having read one frame, written the rendered
    frame of the first datum to the image port and the message of the
    batch to the target port, one write each, and logged nothing. *)
Theorem updateModule_publishes
    (Wrapper : Type)
    (waitAndEmplace : Wrapper -> list op.Datum -> bool * Wrapper)
    (waitAndPop : Wrapper -> bool * DatumsPtr * Wrapper)
    (frames : nat -> yarp.Image)
    (self : YarpOpenPose.t Wrapper)
    (wrapper1 wrapper2 : Wrapper) (datum : op.Datum) (rest : list op.Datum) :
  ImageInput.mClosed (inputClass self) = false ->
  op.Mat_empty (ImageInput.cvarrToMat (frames (ImageInput.inPort_reads (inputClass self))))
    = false ->
  waitAndEmplace (opWrapper self)
    [datum_of_frame (frames (ImageInput.inPort_reads (inputClass self)))]
    = (true, wrapper1) ->
  waitAndPop wrapper1 = (true, Some (datum :: rest), wrapper2) ->
  op.Mat_empty (op.cvOutputData datum) = false ->
  mapParts_reachable (ImageProcessing.mapParts (processingClass self)) ->
  Forall (fun d => pose_well_formed (op.poseKeyPoints d)) (datum :: rest) ->
  exists self',
    updateModule Wrapper waitAndEmplace waitAndPop frames self
    = Returns (negb (closing self), self', [])
    /\ ImageInput.inPort_reads (inputClass self')
       = S (ImageInput.inPort_reads (inputClass self))
    /\ ImageInput.mClosed (inputClass self') = false
    /\ ImageOutput.outPort (outputClass self')
       = ImageOutput.outPort (outputClass self) ++ [image_of_Mat (op.cvOutputData datum)]
    /\ ImageProcessing.targetPort (processingClass self')
       = ImageProcessing.targetPort (processingClass self)
         ++ [message_of (DetectionBatch (datum :: rest))]
    /\ mapParts_reachable (ImageProcessing.mapParts (processingClass self'))
    /\ opWrapper self' = wrapper2
    /\ closing self' = closing self.
Proof.
  intros Hopen Hframe Hemplace Hpop Hrendered Hm Hwf.
  destruct (work_well_formed (processingClass self) (datum :: rest)
              ltac:(discriminate) Hm Hwf) as (processing' & Hwork & Hport & Hm' & _).
  unfold updateModule. rewrite (updateModule_acquired frames self Hopen Hframe).
  rewrite Hemplace, Hpop. cbn [andb ImageOutput.workConsumer].
  rewrite Hrendered. cbn [bind]. rewrite Hwork. cbn [bind app].
  eexists. split; [reflexivity |]. cbn.
  split; [reflexivity |]. split; [reflexivity |]. split; [reflexivity |].
  split; [exact Hport |]. split; [exact Hm' |]. split; reflexivity.
Qed.

Lemma updateModule_publishes_witness :
  let self :=
    {| inputClass := ImageInput.new; processingClass := ImageProcessing.new;
       outputClass := ImageOutput.new; opWrapper := None; closing := false |} in
  exists self',
    updateModule DatumsPtr (rendering_waitAndEmplace pose_2_parts) echo_waitAndPop
      (fun _ => one_pixel) self
    = Returns (true, self', [])
    /\ ImageOutput.outPort (outputClass self') = [one_pixel]
    /\ ImageProcessing.targetPort (processingClass self')
       = [message_of
            (DetectionBatch [rendered pose_2_parts (datum_of_frame one_pixel)])].
Proof.
  intros self.
  destruct (updateModule_publishes DatumsPtr (rendering_waitAndEmplace pose_2_parts)
              echo_waitAndPop (fun _ => one_pixel) self
              (Some [rendered pose_2_parts (datum_of_frame one_pixel)]) None
              (rendered pose_2_parts (datum_of_frame one_pixel)) [])
    as (self' & Hcycle & _ & _ & Hout & Htarget & _).
  - reflexivity.
  - reflexivity.
  - reflexivity.
  - reflexivity.
  - reflexivity.
  - exact mapParts_init_reachable.
  - constructor; [| constructor].
    right. exists 1, 2. split; [reflexivity |]. split; [reflexivity |].
    unfold INT_MAX. cbn. lia.
  - exists self'. split; [exact Hcycle |]. split; [exact Hout | exact Htarget].
Defined.

(** X16: in a cycle where the frame was acquired and submitted but
    [waitAndPop] returns [false], [updateModule] behaves as for a
    rejected submission: it logs the one [yError] line (which speaks of
    the datum not being emplaced), writes to neither outbound port and
    returns [!closing]; whatever [waitAndPop] stored in the batch
    pointer is not used. *)
Theorem updateModule_pop_failed
    (Wrapper : Type)
    (waitAndEmplace : Wrapper -> list op.Datum -> bool * Wrapper)
    (waitAndPop : Wrapper -> bool * DatumsPtr * Wrapper)
    (frames : nat -> yarp.Image)
    (self : YarpOpenPose.t Wrapper)
    (datums : list op.Datum) (input : ImageInput.t) (log : list LogLine)
    (wrapper1 wrapper2 : Wrapper) (datumProcessed : DatumsPtr) :
  ImageInput.workProducer frames (inputClass self) = (Some datums, input, log) ->
  waitAndEmplace (opWrapper self) datums = (true, wrapper1) ->
  waitAndPop wrapper1 = (false, datumProcessed, wrapper2) ->
  updateModule Wrapper waitAndEmplace waitAndPop frames self
  = Returns (negb (closing self),
             {| inputClass := input; processingClass := processingClass self;
                outputClass := outputClass self; opWrapper := wrapper2;
                closing := closing self |},
             [YError "Processed datum could not be emplaced."]).
Proof.
  intros Hproduce Hemplace Hpop.
  pose proof (workProducer_acquired _ _ _ _ _ Hproduce) as ->.
  unfold updateModule. rewrite Hproduce, Hemplace, Hpop. reflexivity.
Qed.

Lemma updateModule_pop_failed_witness :
  updateModule unit (fun w _ => (true, w)) closed_waitAndPop (fun _ => one_pixel)
    {| inputClass := ImageInput.new; processingClass := ImageProcessing.new;
       outputClass := ImageOutput.new; opWrapper := tt; closing := false |}
  = Returns (true,
             {| inputClass := {| ImageInput.inPort_reads := 1;
                                 ImageInput.mClosed := false |};
                processingClass := ImageProcessing.new;
                outputClass := ImageOutput.new; opWrapper := tt; closing := false |},
             [YError "Processed datum could not be emplaced."]).
Proof.
  apply (updateModule_pop_failed unit (fun w _ => (true, w)) closed_waitAndPop
           (fun _ => one_pixel)
           {| inputClass := ImageInput.new; processingClass := ImageProcessing.new;
              outputClass := ImageOutput.new; opWrapper := tt; closing := false |}
           [datum_of_frame one_pixel]
           {| ImageInput.inPort_reads := 1; ImageInput.mClosed := false |}
           [] tt tt None eq_refl eq_refl eq_refl).
Defined.

(** X17: in a cycle where the wrapper reports success but gives back a
    null pointer or a vector without datum, [updateModule] writes to
    neither outbound port, leaves [mapParts] as it was, logs exactly the
    one line of [workConsumer] and returns [!closing]. *)
Theorem updateModule_empty_batch
    (Wrapper : Type)
    (waitAndEmplace : Wrapper -> list op.Datum -> bool * Wrapper)
    (waitAndPop : Wrapper -> bool * DatumsPtr * Wrapper)
    (frames : nat -> yarp.Image)
    (self : YarpOpenPose.t Wrapper)
    (datums : list op.Datum) (input : ImageInput.t) (log : list LogLine)
    (wrapper1 wrapper2 : Wrapper) (datumProcessed : DatumsPtr) :
  ImageInput.workProducer frames (inputClass self) = (Some datums, input, log) ->
  waitAndEmplace (opWrapper self) datums = (true, wrapper1) ->
  waitAndPop wrapper1 = (true, datumProcessed, wrapper2) ->
  datumProcessed = None \/ datumProcessed = Some [] ->
  updateModule Wrapper waitAndEmplace waitAndPop frames self
  = Returns (negb (closing self),
             {| inputClass := input; processingClass := processingClass self;
                outputClass := outputClass self; opWrapper := wrapper2;
                closing := closing self |},
             [OpLog "Nullptr or empty datumsPtr found."]).
Proof.
  intros Hproduce Hemplace Hpop Hempty.
  pose proof (workProducer_acquired _ _ _ _ _ Hproduce) as ->.
  unfold updateModule. rewrite Hproduce, Hemplace, Hpop.
  destruct Hempty as [-> | ->]; reflexivity.
Qed.

Lemma updateModule_empty_batch_witness :
  updateModule unit (fun w _ => (true, w)) (fun w => (true, Some [], w))
    (fun _ => one_pixel)
    {| inputClass := ImageInput.new; processingClass := ImageProcessing.new;
       outputClass := ImageOutput.new; opWrapper := tt; closing := false |}
  = Returns (true,
             {| inputClass := {| ImageInput.inPort_reads := 1;
                                 ImageInput.mClosed := false |};
                processingClass := ImageProcessing.new;
                outputClass := ImageOutput.new; opWrapper := tt; closing := false |},
             [OpLog "Nullptr or empty datumsPtr found."]).
Proof.
  apply (updateModule_empty_batch unit (fun w _ => (true, w))
           (fun w => (true, Some [], w)) (fun _ => one_pixel)
           {| inputClass := ImageInput.new; processingClass := ImageProcessing.new;
              outputClass := ImageOutput.new; opWrapper := tt; closing := false |}
           [datum_of_frame one_pixel]
           {| ImageInput.inPort_reads := 1; ImageInput.mClosed := false |}
           [] tt tt (Some []) eq_refl eq_refl eq_refl).
  right. reflexivity.
Defined.

Section UpdateModuleReturns.

Context {Wrapper : Type}.
Variable waitAndEmplace : Wrapper -> list op.Datum -> bool * Wrapper.
Variable waitAndPop : Wrapper -> bool * DatumsPtr * Wrapper.
Variable frames : nat -> yarp.Image.

(** The value a cycle returns, and what it leaves of [closing]. *)
Lemma updateModule_closing (self self' : YarpOpenPose.t Wrapper) (b : bool)
    (log : list LogLine) :
  updateModule Wrapper waitAndEmplace waitAndPop frames self = Returns (b, self', log) ->
  b = negb (closing self) /\ closing self' = closing self.
Proof.
  unfold updateModule.
  destruct (ImageInput.workProducer frames (inputClass self)) as [[[datums |] input] log1].
  - destruct (waitAndEmplace (opWrapper self) datums) as [[] wrapper1].
    + destruct (waitAndPop wrapper1) as [[[] datumProcessed] wrapper2]; cbn [andb].
      * destruct (ImageOutput.workConsumer (outputClass self) datumProcessed)
          as [[output log2] | |]; cbn [bind]; try discriminate.
        destruct (ImageProcessing.work (processingClass self) datumProcessed);
          cbn [bind]; try discriminate.
        intros [= <- <- _]. split; reflexivity.
      * intros [= <- <- _]. split; reflexivity.
    + cbn [andb]. intros [= <- <- _]. split; reflexivity.
  - intros [= <- <- _]. split; reflexivity.
Qed.

Lemma updateModule_n_closing (n : nat) (self self' : YarpOpenPose.t Wrapper)
    (bs : list bool) (log : list LogLine) :
  updateModule_n Wrapper waitAndEmplace waitAndPop frames n self
    = Returns (bs, self', log) ->
  bs = repeat (negb (closing self)) n /\ closing self' = closing self.
Proof.
  revert self bs log. induction n as [| n IH]; intros self bs log.
  - cbn. intros [= <- <- _]. split; reflexivity.
  - cbn [updateModule_n].
    destruct (updateModule Wrapper waitAndEmplace waitAndPop frames self)
      as [[[b self1] log1] | |] eqn:Hcycle; cbn [bind]; try discriminate.
    destruct (updateModule_n Wrapper waitAndEmplace waitAndPop frames n self1)
      as [[[bs' self2] log2] | |] eqn:Hrest; cbn [bind]; try discriminate.
    intros [= <- <- _].
    destruct (updateModule_closing _ _ _ _ Hcycle) as [-> Hc1].
    destruct (IH _ _ _ Hrest) as [-> Hc2].
    rewrite Hc1. split; [reflexivity | congruence].
Qed.

End UpdateModuleReturns.

(** X18: a cycle that returns has returned [!closing] and left [closing]
    as it was; it has read at most one frame, logged at most one line,
    written at most one image and at most one message after those
    written before, and kept every entry of [mapParts], adding only
    keys mapped to the empty string. *)
Theorem updateModule_one_of_each
    (Wrapper : Type)
    (waitAndEmplace : Wrapper -> list op.Datum -> bool * Wrapper)
    (waitAndPop : Wrapper -> bool * DatumsPtr * Wrapper)
    (frames : nat -> yarp.Image)
    (self self' : YarpOpenPose.t Wrapper) (b : bool) (log : list LogLine) :
  updateModule Wrapper waitAndEmplace waitAndPop frames self = Returns (b, self', log) ->
  b = negb (closing self)
  /\ closing self' = closing self
  /\ length log <= 1
  /\ ImageInput.inPort_reads (inputClass self)
     <= ImageInput.inPort_reads (inputClass self')
     <= S (ImageInput.inPort_reads (inputClass self))
  /\ (exists images,
        ImageOutput.outPort (outputClass self')
        = ImageOutput.outPort (outputClass self) ++ images
        /\ length images <= 1)
  /\ (exists messages,
        ImageProcessing.targetPort (processingClass self')
        = ImageProcessing.targetPort (processingClass self) ++ messages
        /\ length messages <= 1)
  /\ mapParts_grown (ImageProcessing.mapParts (processingClass self))
       (ImageProcessing.mapParts (processingClass self')).
Proof.
  intros Hcycle.
  destruct (updateModule_closing _ _ _ _ _ _ _ Hcycle) as [Hb Hclosing].
  split; [exact Hb |]. split; [exact Hclosing |]. clear Hb Hclosing.
  assert (Hnone : forall (A : Type) (l : list A), exists l', l = l ++ l' /\ length l' <= 1)
    by (intros A l; exists []; rewrite app_nil_r; split; [reflexivity | cbn; lia]).
  assert (Hreads : forall datumToProcess input log1,
             ImageInput.workProducer frames (inputClass self)
             = (datumToProcess, input, log1) ->
             ImageInput.inPort_reads (inputClass self)
             <= ImageInput.inPort_reads input
             <= S (ImageInput.inPort_reads (inputClass self))
             /\ length log1 <= 1
             /\ (datumToProcess <> None -> log1 = [])).
  { unfold ImageInput.workProducer. intros d input log1.
    destruct (ImageInput.mClosed (inputClass self)).
    - intros [= <- <- <-]. cbn. split; [lia |]. split; [lia | reflexivity].
    - destruct (op.Mat_empty _); intros [= <- <- <-]; cbn;
        (split; [lia |]); (split; [lia |]); [intros H; contradiction | reflexivity]. }
  unfold updateModule in Hcycle.
  destruct (ImageInput.workProducer frames (inputClass self))
    as [[datumToProcess input] log1] eqn:Hproduce.
  destruct (Hreads _ _ _ eq_refl) as (Hr & Hlog1 & Hsome).
  destruct datumToProcess as [datums |].
  - rewrite (Hsome ltac:(discriminate)) in Hcycle. clear Hsome Hlog1.
    destruct (waitAndEmplace (opWrapper self) datums) as [successfullyEmplaced wrapper1].
    destruct (if successfullyEmplaced then waitAndPop wrapper1 else (false, None, wrapper1))
      as [[popped datumProcessed] wrapper2].
    destruct (successfullyEmplaced && popped).
    + destruct (ImageOutput.workConsumer (outputClass self) datumProcessed)
        as [[output log2] | |] eqn:Hconsume; cbn [bind] in Hcycle; try discriminate.
      destruct (ImageProcessing.work (processingClass self) datumProcessed)
        as [processing | |] eqn:Hwork; cbn [bind] in Hcycle; try discriminate.
      injection Hcycle as _ <- <-. cbn [app inputClass outputClass processingClass].
      assert (Hout : (exists images,
                        ImageOutput.outPort output
                        = ImageOutput.outPort (outputClass self) ++ images
                        /\ length images <= 1)
                     /\ length log2 <= 1).
      { destruct datumProcessed as [[| d0 rest] |]; cbn [ImageOutput.workConsumer] in Hconsume;
          [| destruct (op.Mat_empty (op.cvOutputData d0)); [discriminate Hconsume |] |];
          injection Hconsume as <- <-; (split; [| cbn; lia]);
          [apply Hnone | eexists; split; [reflexivity | cbn; lia] | apply Hnone]. }
      destruct Hout as [Hout Hlog2].
      split; [exact Hlog2 |]. split; [exact Hr |]. split; [exact Hout |].
      unfold ImageProcessing.work in Hwork.
      destruct datumProcessed as [[| d0 rest] |].
      * injection Hwork as <-. split; [apply Hnone | apply mapParts_grown_refl].
      * destruct (ImageProcessing.datums_loop (d0 :: rest)
                    (ImageProcessing.mapParts (processingClass self), []))
          as [[m' mainList] | |] eqn:Hloop; cbn [bind] in Hwork; try discriminate.
        cbn [app length Nat.eqb negb] in Hwork. injection Hwork as <-.
        cbn [ImageProcessing.targetPort ImageProcessing.mapParts].
        split; [eexists; split; [reflexivity | cbn; lia] |].
        exact (proj1 (datums_loop_returns _ _ _ _ _ Hloop)).
      * injection Hwork as <-. split; [apply Hnone | apply mapParts_grown_refl].
    + injection Hcycle as _ <- <-. cbn [app inputClass outputClass processingClass length].
      split; [lia |]. split; [exact Hr |]. split; [apply Hnone |].
      split; [apply Hnone | apply mapParts_grown_refl].
  - injection Hcycle as _ <- <-. cbn [inputClass outputClass processingClass].
    split; [exact Hlog1 |]. split; [exact Hr |]. split; [apply Hnone |].
    split; [apply Hnone | apply mapParts_grown_refl].
Qed.

Lemma updateModule_one_of_each_witness :
  let self :=
    {| inputClass := ImageInput.new; processingClass := ImageProcessing.new;
       outputClass := ImageOutput.new; opWrapper := tt; closing := false |} in
  let self' :=
    {| inputClass := {| ImageInput.inPort_reads := 1; ImageInput.mClosed := false |};
       processingClass := ImageProcessing.new;
       outputClass := ImageOutput.new; opWrapper := tt; closing := false |} in
  updateModule unit rejecting_waitAndEmplace closed_waitAndPop (fun _ => one_pixel) self
  = Returns (true, self', [YError "Processed datum could not be emplaced."])
  /\ ImageInput.inPort_reads (inputClass self)
     <= ImageInput.inPort_reads (inputClass self')
     <= S (ImageInput.inPort_reads (inputClass self))
  /\ length [YError "Processed datum could not be emplaced."] <= 1.
Proof.
  intros self self'.
  destruct (updateModule_one_of_each unit rejecting_waitAndEmplace closed_waitAndPop
              (fun _ => one_pixel) self self' true
              [YError "Processed datum could not be emplaced."] eq_refl)
    as (_ & _ & Hlog & Hreads & _).
  split; [reflexivity |]. split; [exact Hreads | exact Hlog].
Defined.

(** X19: [quit] sets [closing] and stops the wrapper, leaving the ports
    and [mapParts] alone, and nothing resets [closing]: for every number
    of cycles run after [quit] that return, each returns [false] and
    [closing] is still set at the end, whatever the source and the
    wrapper do. *)
Theorem updateModule_false_after_quit
    (Wrapper : Type)
    (stop : Wrapper -> Wrapper)
    (waitAndEmplace : Wrapper -> list op.Datum -> bool * Wrapper)
    (waitAndPop : Wrapper -> bool * DatumsPtr * Wrapper)
    (frames : nat -> yarp.Image)
    (self self' : YarpOpenPose.t Wrapper) (n : nat) (bs : list bool)
    (log : list LogLine) :
  updateModule_n Wrapper waitAndEmplace waitAndPop frames n (quit Wrapper stop self).2
    = Returns (bs, self', log) ->
  (quit Wrapper stop self).1 = true
  /\ inputClass (quit Wrapper stop self).2 = inputClass self
  /\ processingClass (quit Wrapper stop self).2 = processingClass self
  /\ outputClass (quit Wrapper stop self).2 = outputClass self
  /\ opWrapper (quit Wrapper stop self).2 = stop (opWrapper self)
  /\ bs = repeat false n
  /\ closing self' = true.
Proof.
  intros Hrun. do 5 (split; [reflexivity |]).
  exact (updateModule_n_closing _ _ _ _ _ _ _ _ Hrun).
Qed.

Lemma updateModule_false_after_quit_witness :
  let self :=
    {| inputClass := ImageInput.new; processingClass := ImageProcessing.new;
       outputClass := ImageOutput.new; opWrapper := tt; closing := false |} in
  exists self' log,
    updateModule_n unit rejecting_waitAndEmplace closed_waitAndPop (fun _ => one_pixel) 3
      (quit unit (fun w => w) self).2
    = Returns ([false; false; false], self', log)
    /\ closing self' = true.
Proof.
  intros self.
  exists {| inputClass := {| ImageInput.inPort_reads := 3; ImageInput.mClosed := false |};
            processingClass := ImageProcessing.new; outputClass := ImageOutput.new;
            opWrapper := tt; closing := true |},
         [YError "Processed datum could not be emplaced.";
          YError "Processed datum could not be emplaced.";
          YError "Processed datum could not be emplaced."].
  split; [reflexivity |].
  exact (proj2 (proj2 (proj2 (proj2 (proj2 (proj2
           (updateModule_false_after_quit unit (fun w => w) rejecting_waitAndEmplace
              closed_waitAndPop (fun _ => one_pixel) self _ 3 [false; false; false]
              _ eq_refl))))))).
Defined.

(** X20: [updateModule] does not catch the exception of [work]: in a
    cycle where the frame was acquired, submitted and popped, the first
    datum of the batch given back has a non-empty rendered frame (so
    that [workConsumer] returns) and [work] throws on that batch,
    [updateModule] leaves through the exception of [work] instead of
    returning. *)
Theorem updateModule_throws_with_work
    (Wrapper : Type)
    (waitAndEmplace : Wrapper -> list op.Datum -> bool * Wrapper)
    (waitAndPop : Wrapper -> bool * DatumsPtr * Wrapper)
    (frames : nat -> yarp.Image)
    (self : YarpOpenPose.t Wrapper)
    (datums : list op.Datum) (input : ImageInput.t) (log : list LogLine)
    (wrapper1 wrapper2 : Wrapper) (datum : op.Datum) (rest : list op.Datum)
    (what : string) :
  ImageInput.workProducer frames (inputClass self) = (Some datums, input, log) ->
  waitAndEmplace (opWrapper self) datums = (true, wrapper1) ->
  waitAndPop wrapper1 = (true, Some (datum :: rest), wrapper2) ->
  op.Mat_empty (op.cvOutputData datum) = false ->
  ImageProcessing.work (processingClass self) (Some (datum :: rest)) = Throws what ->
  (exists (output : ImageOutput.t) (log2 : list LogLine),
     ImageOutput.workConsumer (outputClass self) (Some (datum :: rest))
     = Returns (output, log2))
  /\ updateModule Wrapper waitAndEmplace waitAndPop frames self = Throws what.
Proof.
  intros Hproduce Hemplace Hpop Hrendered Hwork. split.
  - cbn [ImageOutput.workConsumer]. rewrite Hrendered. eexists _, _. reflexivity.
  - unfold updateModule. rewrite Hproduce, Hemplace, Hpop.
    cbn [andb ImageOutput.workConsumer]. rewrite Hrendered. cbn [bind].
    rewrite Hwork. reflexivity.
Qed.

Lemma updateModule_throws_with_work_witness :
  (exists (output : ImageOutput.t) (log2 : list LogLine),
     ImageOutput.workConsumer ImageOutput.new
       (Some [rendered pose_2_dimensions (datum_of_frame one_pixel)])
     = Returns (output, log2))
  /\ updateModule DatumsPtr (rendering_waitAndEmplace pose_2_dimensions) echo_waitAndPop
       (fun _ => one_pixel)
       {| inputClass := ImageInput.new; processingClass := ImageProcessing.new;
          outputClass := ImageOutput.new; opWrapper := None; closing := false |}
     = Throws "pose.getNumberDimensions() != 3.".
Proof.
  apply (updateModule_throws_with_work DatumsPtr
           (rendering_waitAndEmplace pose_2_dimensions) echo_waitAndPop
           (fun _ => one_pixel)
           {| inputClass := ImageInput.new; processingClass := ImageProcessing.new;
              outputClass := ImageOutput.new; opWrapper := None; closing := false |}
           [datum_of_frame one_pixel]
           {| ImageInput.inPort_reads := 1; ImageInput.mClosed := false |}
           [] (Some [rendered pose_2_dimensions (datum_of_frame one_pixel)]) None
           (rendered pose_2_dimensions (datum_of_frame one_pixel)) []
           "pose.getNumberDimensions() != 3." eq_refl eq_refl eq_refl eq_refl eq_refl).
Defined.

(** ** [ImageInput::isFinished] *)

(** X21: after any call of [workProducer], [isFinished] is [true] exactly
    when that call returned [nullptr]; and once it is [true] it stays
    [true] after every further call. *)
Theorem isFinished_iff_nullptr (frames : nat -> yarp.Image) (self : ImageInput.t) :
  (ImageInput.isFinished (ImageInput.workProducer frames self).1.2 = true
   <-> (ImageInput.workProducer frames self).1.1 = None)
  /\ (ImageInput.isFinished self = true ->
      ImageInput.isFinished (ImageInput.workProducer frames self).1.2 = true).
Proof.
  unfold ImageInput.workProducer, ImageInput.isFinished.
  destruct (ImageInput.mClosed self) eqn:Hclosed; cbn [fst snd ImageInput.mClosed].
  - split; [split; reflexivity | reflexivity].
  - destruct (op.Mat_empty _); cbn [fst snd ImageInput.mClosed].
    + split; [split; reflexivity | reflexivity].
    + split; [split; discriminate | discriminate].
Qed.

(** ** The message determines the key points *)

Lemma partName_injective (i j : nat) :
  i < 19 -> j < 19 -> partName i = partName j -> i = j.
Proof.
  intros Hi Hj.
  do 19 (destruct i as [| i]; [do 19 (destruct j as [| j];
            [first [reflexivity | discriminate] |]); lia |]).
  lia.
Qed.

Lemma record_of_injective (k k' : KeyPoint) :
  bodyPartIndex k < 19 -> bodyPartIndex k' < 19 ->
  record_of k = record_of k' -> k = k'.
Proof.
  destruct k as [i x y c], k' as [i' x' y' c']. cbn [bodyPartIndex]. unfold record_of.
  cbn [bodyPartIndex kp_x kp_y kp_confidence].
  intros Hi Hi' [= Hname -> -> ->].
  rewrite (partName_injective i i' Hi Hi' Hname). reflexivity.
Qed.

Lemma records_injective (person person' : Person) :
  Forall (fun k => bodyPartIndex k < 19) person ->
  Forall (fun k => bodyPartIndex k < 19) person' ->
  map record_of person = map record_of person' -> person = person'.
Proof.
  intros H. revert person'. induction H as [| k person Hk _ IH]; intros person' H' E.
  - destruct person'; [reflexivity | discriminate E].
  - destruct H' as [| k' person' Hk' H']; [discriminate E |].
    cbn [map] in E.
    assert (Ek : record_of k = record_of k') by congruence.
    assert (Erest : map record_of person = map record_of person') by congruence.
    rewrite (record_of_injective k k' Hk Hk' Ek), (IH person' H' Erest). reflexivity.
Qed.

Lemma message_of_inj (persons persons' : list Person) :
  Forall (Forall (fun k => bodyPartIndex k < 19)) persons ->
  Forall (Forall (fun k => bodyPartIndex k < 19)) persons' ->
  message_of persons = message_of persons' ->
  persons = persons'.
Proof.
  unfold message_of. intros H H' [= E]. revert persons' H' E.
  induction H as [| person persons Hperson _ IH]; intros persons' H' E.
  - destruct persons'; [reflexivity | discriminate E].
  - destruct H' as [| person' persons' Hperson' H']; [discriminate E |].
    cbn [map] in E. injection E as Eperson E.
    rewrite (records_injective person person' Hperson Hperson' Eperson),
      (IH persons' H' E).
    reflexivity.
Qed.

Lemma DetectionBatch_inside (datums : list op.Datum) :
  Forall (fun datum => op.getSize (op.poseKeyPoints datum) 1 <= 19) datums ->
  Forall (Forall (fun k => bodyPartIndex k < 19)) (DetectionBatch datums).
Proof.
  intros Hparts. apply List.Forall_forall. intros person Hperson.
  apply List.Forall_forall. intros k Hk.
  destruct (keypoint_origin datums person k Hperson Hk) as (datum & Hdatum & _ & Hlt).
  rewrite List.Forall_forall in Hparts. specialize (Hparts datum Hdatum). lia.
Qed.

(** X22: the message [work] writes determines the key points, as long as
    no datum has more body parts than the table has names: when two
    non-empty batches of well-formed pose arrays with at most 19 body
    parts make [work] write the same message, they hold the same
    persons with the same key points, indices included (the names of
    the table are pairwise distinct, so a reader of the port can tell
    the part from its name). *)
Theorem work_message_determines_batch
    (self : ImageProcessing.t) (datums datums' : list op.Datum)
    (self1 self2 : ImageProcessing.t) :
  datums <> [] -> datums' <> [] ->
  mapParts_reachable (ImageProcessing.mapParts self) ->
  Forall (fun datum => pose_well_formed (op.poseKeyPoints datum)
                       /\ op.getSize (op.poseKeyPoints datum) 1 <= 19) datums ->
  Forall (fun datum => pose_well_formed (op.poseKeyPoints datum)
                       /\ op.getSize (op.poseKeyPoints datum) 1 <= 19) datums' ->
  ImageProcessing.work self (Some datums) = Returns self1 ->
  ImageProcessing.work self (Some datums') = Returns self2 ->
  ImageProcessing.targetPort self1 = ImageProcessing.targetPort self2 ->
  DetectionBatch datums = DetectionBatch datums'.
Proof.
  intros Hne Hne' Hm [Hwf Hparts]%Forall_and [Hwf' Hparts']%Forall_and Hwork1 Hwork2 Hports.
  destruct (work_well_formed self datums Hne Hm Hwf) as (s1 & E1 & Hport1 & _).
  destruct (work_well_formed self datums' Hne' Hm Hwf') as (s2 & E2 & Hport2 & _).
  assert (s1 = self1) by congruence. assert (s2 = self2) by congruence. subst s1 s2.
  rewrite Hport1, Hport2 in Hports. apply app_inv_head in Hports.
  injection Hports as Hmessage.
  apply message_of_inj; [apply DetectionBatch_inside, Hparts
                        | apply DetectionBatch_inside, Hparts' |].
  unfold message_of. rewrite Hmessage. reflexivity.
Qed.

Lemma work_message_determines_batch_witness :
  DetectionBatch [datum_of_pose pose_2_parts]
  = DetectionBatch [datum_of_pose pose_2_parts; op.Datum_default].
Proof.
  apply (work_message_determines_batch ImageProcessing.new
           [datum_of_pose pose_2_parts]
           [datum_of_pose pose_2_parts; op.Datum_default]
           {| ImageProcessing.mapParts := ImageProcessing.mapParts_init;
              ImageProcessing.targetPort :=
                [message_of (Persons_of pose_2_parts)] |}
           {| ImageProcessing.mapParts := ImageProcessing.mapParts_init;
              ImageProcessing.targetPort :=
                [message_of (Persons_of pose_2_parts)] |}).
  - discriminate.
  - discriminate.
  - exact mapParts_init_reachable.
  - constructor; [| constructor]. split; [| cbn; lia].
    right. exists 1, 2. split; [reflexivity |]. split; [reflexivity |].
    unfold INT_MAX. cbn. lia.
  - constructor; [| constructor; [| constructor]].
    + split; [| cbn; lia].
      right. exists 1, 2. split; [reflexivity |]. split; [reflexivity |].
      unfold INT_MAX. cbn. lia.
    + split; [| cbn; lia]. left. split; reflexivity.
  - reflexivity.
  - reflexivity.
  - reflexivity.
Defined.
